(** * War-timeline reconstruction (routers/public/test.py)

    A shallow embedding of [extract_attacks], [initialize_member_stats],
    [compute_timeline] and the war selection of [get_war], and the properties
    of the timeline they produce.

    Modelling decisions.
    - The war snapshot is typed as the data source documents it: two rosters
      with their members, a team size, an optional attacksPerMember; a
      member's attack list is optional.  A raw attack record is a record of
      optional fields: a field that is [None] is a key absent from the dict,
      so that [a["stars"]] can raise [KeyError] and [a.get("duration", 0)]
      can default.
    - Python [int] is [Z].  A JSON number is an [int] or a [float], as the
      decoder leaves it.
    - Python [float] is an interface, [PyFloat]: the operations the program
      applies to floats, among them the conversion of an int, which raises
      OverflowError when the int is too large.  [binary64] implements it
      with the IEEE 754 double-precision operations of the standard library
      (round to nearest, ties to even, infinities, nan), so the program can
      be run on the floats Python computes with.  The program and its
      properties are stated for any implementation; the properties about
      the order of percentages assume the order laws [FloatOrder].
    - Exceptions are the [Raise] branch of a small error monad.
    - The per-member accumulators are mutable dict objects reached through
      two tag-indexed dicts.  They live in an explicit heap, the two dicts
      hold references, [copy.deepcopy] allocates fresh objects, and a
      snapshot holds references to its own copies.

    Plan.  The program is embedded first, on the heap.  Then the same fold is
    written on values, and [timeline_on_values_correct] proves that reading
    the result of the program in its final heap gives the fold on values,
    errors included.  The properties are stated on the program and proved
    through that fold. *)

From Stdlib Require Import List ZArith QArith Qfield String Bool Lia Arith.
From Stdlib Require Import Permutation Sorted.
From Stdlib Require Import DecimalString Ascii.
From Stdlib Require Import Floats.SpecFloat.
Import ListNotations.

Local Open Scope string_scope.
Local Open Scope list_scope.
Local Open Scope Z_scope.

Set Implicit Arguments.

(** ** Exceptions *)

Inductive error : Type :=
| KeyError (key : string)
| ZeroDivisionError
| OverflowError.

Inductive result (A : Type) : Type :=
| Ok (a : A)
| Raise (e : error).

Arguments Ok {A} a.
Arguments Raise {A} e.

Definition bind {A B : Type} (r : result A) (k : A -> result B) : result B :=
  match r with
  | Ok a => k a
  | Raise e => Raise e
  end.

Notation "x <- r ;; k" := (bind r (fun x => k))
  (at level 61, r at next level, right associativity).

(** [d[key]] on a dict whose entry for [key] may be missing. *)
Definition getitem {A : Type} (key : string) (field : option A) : result A :=
  match field with
  | Some v => Ok v
  | None => Raise (KeyError key)
  end.

(** [d.get(key, default)]. *)
Definition get {A : Type} (field : option A) (default : A) : A :=
  match field with
  | Some v => v
  | None => default
  end.

(** ** Floats

    What [compute_timeline] does with floats: the literal [0.0], the float
    of the int literal [100], the conversion of an int operand
    ([float_of_int], [None] when Python raises OverflowError: "int too large
    to convert to float"), [+], [/] by a divisor that is not zero, [*], and
    [<=], which the statements about the order of percentages use. *)

Class PyFloat : Type := {
  pyfloat : Type;
  float_zero : pyfloat;
  float_hundred : pyfloat;
  float_of_int : Z -> option pyfloat;
  float_add : pyfloat -> pyfloat -> pyfloat;
  float_truediv : pyfloat -> pyfloat -> pyfloat;
  float_mul : pyfloat -> pyfloat -> pyfloat;
  float_le : pyfloat -> pyfloat -> bool;
  float_of_int_0 : float_of_int 0 = Some float_zero;
  float_of_int_100 : float_of_int 100 = Some float_hundred
}.

(** The conversion of an int to binary64: rounded to nearest, ties to even;
    an int that rounds beyond the largest finite float has no float. *)
Definition binary64_of_int (z : Z) : option spec_float :=
  match binary_normalize 53 1024 z 0 false with
  | S754_infinity _ => None
  | x => Some x
  end.

(** [x <= y] on binary64: both are floats of the format (a mantissa of at
    most 53 bits in canonical position, an exponent in range), neither is
    nan, and [x] is not above [y]. *)
Definition binary64_le (x y : spec_float) : bool :=
  valid_binary 53 1024 x && valid_binary 53 1024 y && SFleb x y.

(** Python's floats. *)
Definition binary64 : PyFloat :=
  {| pyfloat := spec_float;
     float_zero := S754_zero false;
     float_hundred := S754_finite false 7036874417766400 (-46);
     float_of_int := binary64_of_int;
     float_add := SFadd 53 1024;
     float_truediv := SFdiv 53 1024;
     float_mul := SFmul 53 1024;
     float_le := binary64_le;
     float_of_int_0 := eq_refl;
     float_of_int_100 := eq_refl |}.

(** Arithmetic without rounding, on rationals. *)
Definition exact : PyFloat :=
  {| pyfloat := Q;
     float_zero := 0%Q;
     float_hundred := 100%Q;
     float_of_int := fun z => Some (inject_Z z);
     float_add := Qplus;
     float_truediv := Qdiv;
     float_mul := Qmult;
     float_le := Qle_bool;
     float_of_int_0 := eq_refl;
     float_of_int_100 := eq_refl |}.

(** The order laws the proofs about the order of percentages rest on: [<=]
    is transitive and holds of no nan, the ints from 0 to [2^53] convert
    without rounding, and on floats that are not negative the conversion,
    [+], [/] by the float of a positive int and [* 100] are monotone. *)
Class FloatOrder (F : PyFloat) : Prop := {
  float_le_trans : forall x y z : pyfloat,
    float_le x y = true -> float_le y z = true -> float_le x z = true;
  float_le_refl_r : forall x y : pyfloat,
    float_le x y = true -> float_le y y = true;
  float_of_int_small : forall z,
    0 <= z <= 2 ^ 53 -> float_of_int z <> None;
  float_of_int_mono : forall z z' x x',
    0 <= z <= z' -> float_of_int z = Some x -> float_of_int z' = Some x' ->
    float_le x x' = true;
  float_add_nonneg : forall x y : pyfloat,
    float_le float_zero x = true -> float_le float_zero y = true ->
    float_le x (float_add x y) = true;
  float_add_bounded : forall k (x y b b' : pyfloat),
    0 <= k -> 100 * (k + 1) <= 2 ^ 53 ->
    float_of_int (100 * k) = Some b ->
    float_of_int (100 * (k + 1)) = Some b' ->
    float_le float_zero x = true -> float_le float_zero y = true ->
    float_le x b = true -> float_le y float_hundred = true ->
    float_le (float_add x y) b' = true;
  float_truediv_mono : forall z (d x y : pyfloat),
    0 < z -> float_of_int z = Some d ->
    float_le float_zero x = true -> float_le x y = true ->
    float_le (float_truediv x d) (float_truediv y d) = true;
  float_truediv_nonneg : forall z (d x : pyfloat),
    0 < z -> float_of_int z = Some d -> float_le float_zero x = true ->
    float_le float_zero (float_truediv x d) = true;
  float_mul_mono : forall x y : pyfloat,
    float_le float_zero x = true -> float_le x y = true ->
    float_le (float_mul x float_hundred) (float_mul y float_hundred) = true;
  float_mul_nonneg : forall x : pyfloat,
    float_le float_zero x = true ->
    float_le float_zero (float_mul x float_hundred) = true;
  float_ratio : forall z (d x : pyfloat),
    0 < z -> float_of_int z = Some d ->
    float_le float_zero x = true -> float_le x d = true ->
    float_le (float_mul (float_truediv x d) float_hundred) float_hundred
      = true
}.

(** ** The data, over the type [A] of floats *)

(** A JSON number as Python decodes it: an [int] or a [float]. *)
Inductive json_number {A : Type} : Type :=
| Int (z : Z)
| Float (x : A).

(** The war snapshot received from the data source. *)
Record raw_attack_of {A : Type} : Type := {
  raw_attackerTag : option string;
  raw_defenderTag : option string;
  raw_stars : option Z;
  raw_destructionPercentage : option (@json_number A);
  raw_order : option Z;
  raw_duration : option Z
}.

Record member_of {A : Type} : Type := {
  m_tag : string;
  m_attacks : option (list (@raw_attack_of A))
}.

Record roster_of {A : Type} : Type := {
  r_tag : string;
  members : list (@member_of A)
}.

Record war_data_of {A : Type} : Type := {
  clan : @roster_of A;
  opponent : @roster_of A;
  teamSize : Z;
  attacksPerMember : option Z
}.

(** Attacks as [extract_attacks] emits them. *)
Module Attack.
Record t {A : Type} : Type := {
  attackerClan : string;
  attackerTag : string;
  defenderTag : string;
  stars : Z;
  destructionPercentage : @json_number A;
  order : Z;
  duration : Z
}.
End Attack.

(** Per-member accumulators. *)

Record member_stat : Type := {
  tag : string;
  attacks_used : Z;
  defenses_used : Z
}.

(** Timeline snapshots.  [M] is what a member list holds: references in
    the running program, MemberStat values once the timeline is read. *)
Module Snapshot.
Record t {A : Type} (M : Type) : Type := {
  order : Z;
  clan_stars : Z;
  clan_destruction : A;
  clan_attacks_used : Z;
  opponent_stars : Z;
  opponent_destruction : A;
  opponent_attacks_used : Z;
  clan_members : list M;
  opponent_members : list M;
  last_attack : option (@Attack.t A)
}.
End Snapshot.

(** What [get_war] hands to the template. *)

Module Choice.
Record t : Type := {
  position : Z;
  label : string
}.
End Choice.

Module Page.
Record t {A : Type} : Type := {
  war_timeline : list (@Snapshot.t A member_stat);
  clan : @roster_of A;
  opponent : @roster_of A;
  attacks_per_member : Z;
  wars_available : list Choice.t;
  selected_position : Z;
  clan_tag : string
}.
End Page.

(** What [get_war] answers: the 404 page of line 168, or the rendered
    template with its context. *)
Inductive response_of {A : Type} : Type :=
| NotFound
| Rendered (context : @Page.t A).

(** The data over the floats of the arithmetic at hand. *)
Abbreviation number := (@json_number pyfloat).
Abbreviation raw_attack := (@raw_attack_of pyfloat).
Abbreviation member := (@member_of pyfloat).
Abbreviation roster := (@roster_of pyfloat).
Abbreviation war_data := (@war_data_of pyfloat).
Abbreviation attack := (@Attack.t pyfloat).
Abbreviation snapshot := (@Snapshot.t pyfloat).
Abbreviation page := (@Page.t pyfloat).
Abbreviation response := (@response_of pyfloat).

Section Program.
Context {F : PyFloat}.

(** ** extract_attacks *)

(** The dict literal of lines 19-27 (and 32-40): the items are evaluated
    top to bottom, so the first missing key is the one reported. *)
Definition make_attack (side : string) (a : raw_attack) : result attack :=
  atk <- getitem "attackerTag" (raw_attackerTag a) ;;
  def <- getitem "defenderTag" (raw_defenderTag a) ;;
  st <- getitem "stars" (raw_stars a) ;;
  dp <- getitem "destructionPercentage" (raw_destructionPercentage a) ;;
  ord <- getitem "order" (raw_order a) ;;
  Ok {| Attack.attackerClan := side;
        Attack.attackerTag := atk;
        Attack.defenderTag := def;
        Attack.stars := st;
        Attack.destructionPercentage := dp;
        Attack.order := ord;
        Attack.duration := get (raw_duration a) 0 |}.

(** Inner loop [for a in m.get("attacks", []): all_attacks.append(...)]. *)
Fixpoint append_attacks (side : string) (l : list raw_attack)
    (all_attacks : list attack) : result (list attack) :=
  match l with
  | [] => Ok all_attacks
  | a :: l' =>
      x <- make_attack side a ;;
      append_attacks side l' (all_attacks ++ [x])
  end.

(** Outer loop [for m in roster["members"]]. *)
Fixpoint extract_members (side : string) (ms : list member)
    (all_attacks : list attack) : result (list attack) :=
  match ms with
  | [] => Ok all_attacks
  | m :: ms' =>
      acc <- append_attacks side (get (m_attacks m) []) all_attacks ;;
      extract_members side ms' acc
  end.

(** [sorted(l, key=...)]: Python's sort is stable.  Insertion of [x] in front
    of the first element whose key is not smaller keeps [x], which comes
    earlier in the input, ahead of every element with an equal key. *)
Section Sorted.
Variable A : Type.
Variable key : A -> Z.

Fixpoint insert_sorted (x : A) (l : list A) : list A :=
  match l with
  | [] => [x]
  | y :: l' => if key x <=? key y then x :: y :: l'
               else y :: insert_sorted x l'
  end.

Fixpoint sorted (l : list A) : list A :=
  match l with
  | [] => []
  | x :: l' => insert_sorted x (sorted l')
  end.
End Sorted.

(** The list [all_attacks] as it stands before line 42. *)
Definition combined_attacks (war : war_data) : result (list attack) :=
  clan_part <- extract_members "clan" (members (clan war)) [] ;;
  extract_members "opponent" (members (opponent war)) clan_part.

Definition extract_attacks (war : war_data) : result (list attack) :=
  all_attacks <- combined_attacks war ;;
  Ok (sorted Attack.order all_attacks).

(** ** The heap the accumulators live in *)

Definition loc : Type := nat.

(** The heap holds the MemberStat objects; a reference is an index, and a
    new object is placed at the end. *)
Definition heap : Type := list member_stat.

Definition dangling : member_stat :=
  {| tag := ""; attacks_used := 0; defenses_used := 0 |}.

Definition deref (h : heap) (l : loc) : member_stat := nth l h dangling.

Definition alloc (h : heap) (v : member_stat) : loc * heap :=
  (List.length h, h ++ [v]).

Fixpoint assign (h : heap) (l : loc) (v : member_stat) : heap :=
  match h, l with
  | [], _ => []
  | _ :: h', O => v :: h'
  | x :: h', S l' => x :: assign h' l' v
  end.

(** A Python dict with string keys: insertion order is kept, and assigning
    to a key already present replaces the value in place. *)
Section Dict.
Variable V : Type.

Definition dict : Type := list (string * V).

Fixpoint dict_get (d : dict) (k : string) : option V :=
  match d with
  | [] => None
  | (k', v) :: d' => if String.eqb k' k then Some v else dict_get d' k
  end.

Fixpoint dict_set (d : dict) (k : string) (v : V) : dict :=
  match d with
  | [] => [(k, v)]
  | (k', v') :: d' =>
      if String.eqb k' k then (k', v) :: d' else (k', v') :: dict_set d' k v
  end.

Definition dict_values (d : dict) : list V := map snd d.
Definition dict_keys (d : dict) : list string := map fst d.
End Dict.

Definition zero_stat (t : string) : member_stat :=
  {| tag := t; attacks_used := 0; defenses_used := 0 |}.

(** Lines 45-53.  Every iteration builds a new dict object and binds the
    member's tag to it. *)
Fixpoint initialize_member_stats_from (ms : list member)
    (member_stats : dict loc) (h : heap) : dict loc * heap :=
  match ms with
  | [] => (member_stats, h)
  | m :: ms' =>
      let (l, h') := alloc h (zero_stat (m_tag m)) in
      initialize_member_stats_from ms' (dict_set member_stats (m_tag m) l) h'
  end.

Definition initialize_member_stats (ms : list member) (h : heap)
    : dict loc * heap :=
  initialize_member_stats_from ms [] h.

(** [copy.deepcopy(list(d.values()))]: a new list of new objects, each with
    the contents its original has at the time of the copy.  (The memo table
    of deepcopy only decides whether two copies are one object; it has no
    effect on their contents.) *)
Fixpoint deepcopy (ls : list loc) (h : heap) : list loc * heap :=
  match ls with
  | [] => ([], h)
  | l :: ls' =>
      let (l', h1) := alloc h (deref h l) in
      let (ls'', h2) := deepcopy ls' h1 in
      (l' :: ls'', h2)
  end.

Definition add_attack_used (s : member_stat) : member_stat :=
  {| tag := tag s;
     attacks_used := attacks_used s + 1;
     defenses_used := defenses_used s |}.

Definition add_defense_used (s : member_stat) : member_stat :=
  {| tag := tag s;
     attacks_used := attacks_used s;
     defenses_used := defenses_used s + 1 |}.

(** [if k in d: d[k][field] += 1], the update being [f]. *)
Definition bump (f : member_stat -> member_stat) (d : dict loc) (k : string)
    (h : heap) : heap :=
  match dict_get d k with
  | Some l => assign h l (f (deref h l))
  | None => h
  end.

(** ** compute_timeline *)

(** The local variables the loop of lines 92-127 updates, and the heap. *)
Record locals : Type := {
  clan_stars : Z;
  sum_clan_destruction : pyfloat;
  clan_attacks_used : Z;
  opponent_stars : Z;
  sum_opponent_destruction : pyfloat;
  opponent_attacks_used : Z;
  war_timeline : list (snapshot loc);
  store : heap
}.

(** The float operand a float operator makes of a number: a float is taken
    as it is, an int is converted, which raises OverflowError when the int
    has no float. *)
Definition as_float (n : number) : result pyfloat :=
  match n with
  | Int z =>
      match float_of_int z with
      | Some x => Ok x
      | None => Raise OverflowError
      end
  | Float x => Ok x
  end.

(** [x + n] on a float and a number. *)
Definition add (x : pyfloat) (n : number) : result pyfloat :=
  y <- as_float n ;;
  Ok (float_add x y).

(** [x / d] on a float and an int: the int is converted, then tested; it is
    zero exactly when its float is. *)
Definition truediv (x : pyfloat) (d : Z) : result pyfloat :=
  y <- as_float (Int d) ;;
  if d =? 0 then Raise ZeroDivisionError else Ok (float_truediv x y).

Definition is_clan (a : attack) : bool :=
  String.eqb (Attack.attackerClan a) "clan".

(** Lines 93-111: the running totals and the per-member counters.  The
    addition of line 95 (or 105) is the one step that can raise. *)
Definition count_attack (clan_members_stats opponent_members_stats : dict loc)
    (a : attack) (st : locals) : result locals :=
  if is_clan a then
    sum <- add (sum_clan_destruction st) (Attack.destructionPercentage a) ;;
    Ok {| clan_stars := clan_stars st + Attack.stars a;
          sum_clan_destruction := sum;
          clan_attacks_used := clan_attacks_used st + 1;
          opponent_stars := opponent_stars st;
          sum_opponent_destruction := sum_opponent_destruction st;
          opponent_attacks_used := opponent_attacks_used st;
          war_timeline := war_timeline st;
          store :=
            bump add_defense_used opponent_members_stats
              (Attack.defenderTag a)
              (bump add_attack_used clan_members_stats (Attack.attackerTag a)
                 (store st)) |}
  else
    sum <- add (sum_opponent_destruction st)
             (Attack.destructionPercentage a) ;;
    Ok {| clan_stars := clan_stars st;
          sum_clan_destruction := sum_clan_destruction st;
          clan_attacks_used := clan_attacks_used st;
          opponent_stars := opponent_stars st + Attack.stars a;
          sum_opponent_destruction := sum;
          opponent_attacks_used := opponent_attacks_used st + 1;
          war_timeline := war_timeline st;
          store :=
            bump add_defense_used clan_members_stats (Attack.defenderTag a)
              (bump add_attack_used opponent_members_stats
                 (Attack.attackerTag a) (store st)) |}.

(** One iteration of the loop, lines 93-127. *)
Definition fold_attack (team_size : Z)
    (clan_members_stats opponent_members_stats : dict loc)
    (a : attack) (st : locals) : result locals :=
  st1 <- count_attack clan_members_stats opponent_members_stats a st ;;
  cq <- truediv (sum_clan_destruction st1) (team_size * 100) ;;
  let clan_destruction := float_mul cq float_hundred in
  oq <- truediv (sum_opponent_destruction st1) (team_size * 100) ;;
  let opponent_destruction := float_mul oq float_hundred in
  let (cm, h1) := deepcopy (dict_values clan_members_stats) (store st1) in
  let (om, h2) := deepcopy (dict_values opponent_members_stats) h1 in
  Ok {| clan_stars := clan_stars st1;
        sum_clan_destruction := sum_clan_destruction st1;
        clan_attacks_used := clan_attacks_used st1;
        opponent_stars := opponent_stars st1;
        sum_opponent_destruction := sum_opponent_destruction st1;
        opponent_attacks_used := opponent_attacks_used st1;
        war_timeline :=
          war_timeline st1 ++
          [ {| Snapshot.order := Attack.order a;
               Snapshot.clan_stars := clan_stars st1;
               Snapshot.clan_destruction := clan_destruction;
               Snapshot.clan_attacks_used := clan_attacks_used st1;
               Snapshot.opponent_stars := opponent_stars st1;
               Snapshot.opponent_destruction := opponent_destruction;
               Snapshot.opponent_attacks_used := opponent_attacks_used st1;
               Snapshot.clan_members := cm;
               Snapshot.opponent_members := om;
               Snapshot.last_attack := Some a |} ];
        store := h2 |}.

Fixpoint fold_attacks (team_size : Z)
    (clan_members_stats opponent_members_stats : dict loc)
    (all_attacks : list attack) (st : locals) : result locals :=
  match all_attacks with
  | [] => Ok st
  | a :: rest =>
      st' <- fold_attack team_size clan_members_stats opponent_members_stats
               a st ;;
      fold_attacks team_size clan_members_stats opponent_members_stats rest st'
  end.

(** Lines 64-129, on the attack list that line 62 obtained and the heap [h]
    at that point: the accumulators, the initial snapshot, and the loop. *)
Definition timeline_from (war : war_data) (all_attacks : list attack)
    (h : heap) : result (list (snapshot loc) * heap) :=
  let team_size := teamSize war in
  let (clan_members_stats, h1) :=
    initialize_member_stats (members (clan war)) h in
  let (opponent_members_stats, h2) :=
    initialize_member_stats (members (opponent war)) h1 in
  let (cm, h3) := deepcopy (dict_values clan_members_stats) h2 in
  let (om, h4) := deepcopy (dict_values opponent_members_stats) h3 in
  st <- fold_attacks team_size clan_members_stats opponent_members_stats
          all_attacks
          {| clan_stars := 0;
             sum_clan_destruction := float_zero;
             clan_attacks_used := 0;
             opponent_stars := 0;
             sum_opponent_destruction := float_zero;
             opponent_attacks_used := 0;
             war_timeline :=
               [ {| Snapshot.order := 0;
                    Snapshot.clan_stars := 0;
                    Snapshot.clan_destruction := float_zero;
                    Snapshot.clan_attacks_used := 0;
                    Snapshot.opponent_stars := 0;
                    Snapshot.opponent_destruction := float_zero;
                    Snapshot.opponent_attacks_used := 0;
                    Snapshot.clan_members := cm;
                    Snapshot.opponent_members := om;
                    Snapshot.last_attack := None |} ];
             store := h4 |} ;;
  Ok (war_timeline st, store st).

Definition compute_timeline (war : war_data) (h : heap)
    : result (list (snapshot loc) * heap) :=
  all_attacks <- extract_attacks war ;;
  timeline_from war all_attacks h.

(** What a reader of the returned timeline sees: every reference followed
    in the heap as it is when [compute_timeline] returns. *)
Definition read (h : heap) (s : snapshot loc) : snapshot member_stat :=
  {| Snapshot.order := Snapshot.order s;
     Snapshot.clan_stars := Snapshot.clan_stars s;
     Snapshot.clan_destruction := Snapshot.clan_destruction s;
     Snapshot.clan_attacks_used := Snapshot.clan_attacks_used s;
     Snapshot.opponent_stars := Snapshot.opponent_stars s;
     Snapshot.opponent_destruction := Snapshot.opponent_destruction s;
     Snapshot.opponent_attacks_used := Snapshot.opponent_attacks_used s;
     Snapshot.clan_members := map (deref h) (Snapshot.clan_members s);
     Snapshot.opponent_members := map (deref h) (Snapshot.opponent_members s);
     Snapshot.last_attack := Snapshot.last_attack s |}.

Definition read_timeline (r : list (snapshot loc) * heap)
    : list (snapshot member_stat) :=
  map (read (snd r)) (fst r).

Definition timeline (war : war_data) (h : heap)
    : result (list (snapshot member_stat)) :=
  r <- compute_timeline war h ;;
  Ok (read_timeline r).

(** ** The fold on values

    The same fold with the heap read away: the two dicts hold MemberStat
    values, a snapshot holds the values themselves, and the steps that can
    raise are checked ahead of the fold, in the order the loop meets them.
    [timeline_on_values_correct] below proves that this is what
    [timeline_from] computes; the properties of the timeline are then proved
    on this form. *)

Section DictAdjust.
Variable V : Type.
Variable f : V -> V.

(** [if k in d: d[k] = f(d[k])]. *)
Fixpoint dict_adjust (d : dict V) (k : string) : dict V :=
  match d with
  | [] => []
  | (k', v) :: d' =>
      if String.eqb k' k then (k', f v) :: d' else (k', v) :: dict_adjust d' k
  end.
End DictAdjust.

Record tally : Type := {
  t_clan_stars : Z;
  t_sum_clan_destruction : pyfloat;
  t_clan_attacks_used : Z;
  t_opponent_stars : Z;
  t_sum_opponent_destruction : pyfloat;
  t_opponent_attacks_used : Z;
  t_clan_members_stats : dict member_stat;
  t_opponent_members_stats : dict member_stat
}.

(** A number has a float: every float, and every int that converts. *)
Definition convertible (n : number) : bool :=
  match as_float n with
  | Ok _ => true
  | Raise _ => false
  end.

(** The float of a number that has one (and [0.0] for the others, which
    the fold on values never meets). *)
Definition number_value (n : number) : pyfloat :=
  match as_float n with
  | Ok x => x
  | Raise _ => float_zero
  end.

Definition tally_attack (a : attack) (t : tally) : tally :=
  if is_clan a then
    {| t_clan_stars := t_clan_stars t + Attack.stars a;
       t_sum_clan_destruction :=
         float_add (t_sum_clan_destruction t)
           (number_value (Attack.destructionPercentage a));
       t_clan_attacks_used := t_clan_attacks_used t + 1;
       t_opponent_stars := t_opponent_stars t;
       t_sum_opponent_destruction := t_sum_opponent_destruction t;
       t_opponent_attacks_used := t_opponent_attacks_used t;
       t_clan_members_stats :=
         dict_adjust add_attack_used (t_clan_members_stats t)
           (Attack.attackerTag a);
       t_opponent_members_stats :=
         dict_adjust add_defense_used (t_opponent_members_stats t)
           (Attack.defenderTag a) |}
  else
    {| t_clan_stars := t_clan_stars t;
       t_sum_clan_destruction := t_sum_clan_destruction t;
       t_clan_attacks_used := t_clan_attacks_used t;
       t_opponent_stars := t_opponent_stars t + Attack.stars a;
       t_sum_opponent_destruction :=
         float_add (t_sum_opponent_destruction t)
           (number_value (Attack.destructionPercentage a));
       t_opponent_attacks_used := t_opponent_attacks_used t + 1;
       t_clan_members_stats :=
         dict_adjust add_defense_used (t_clan_members_stats t)
           (Attack.defenderTag a);
       t_opponent_members_stats :=
         dict_adjust add_attack_used (t_opponent_members_stats t)
           (Attack.attackerTag a) |}.

(** The float of [team_size * 100] when it has one. *)
Definition divisor (team_size : Z) : pyfloat :=
  number_value (Int (team_size * 100)).

(** Lines 113-114 when the division does not raise. *)
Definition normalized (sum : pyfloat) (team_size : Z) : pyfloat :=
  float_mul (float_truediv sum (divisor team_size)) float_hundred.

Definition snapshot_of (team_size : Z) (a : attack) (t : tally)
    : snapshot member_stat :=
  {| Snapshot.order := Attack.order a;
     Snapshot.clan_stars := t_clan_stars t;
     Snapshot.clan_destruction :=
       normalized (t_sum_clan_destruction t) team_size;
     Snapshot.clan_attacks_used := t_clan_attacks_used t;
     Snapshot.opponent_stars := t_opponent_stars t;
     Snapshot.opponent_destruction :=
       normalized (t_sum_opponent_destruction t) team_size;
     Snapshot.opponent_attacks_used := t_opponent_attacks_used t;
     Snapshot.clan_members := dict_values (t_clan_members_stats t);
     Snapshot.opponent_members := dict_values (t_opponent_members_stats t);
     Snapshot.last_attack := Some a |}.

Fixpoint scan (team_size : Z) (all_attacks : list attack) (t : tally)
    : list (snapshot member_stat) :=
  match all_attacks with
  | [] => []
  | a :: rest =>
      let t' := tally_attack a t in
      snapshot_of team_size a t' :: scan team_size rest t'
  end.

Fixpoint member_stats_from (ms : list member) (member_stats : dict member_stat)
    : dict member_stat :=
  match ms with
  | [] => member_stats
  | m :: ms' =>
      member_stats_from ms'
        (dict_set member_stats (m_tag m) (zero_stat (m_tag m)))
  end.

Definition member_stats (ms : list member) : dict member_stat :=
  member_stats_from ms [].

Definition initial_tally (war : war_data) : tally :=
  {| t_clan_stars := 0;
     t_sum_clan_destruction := float_zero;
     t_clan_attacks_used := 0;
     t_opponent_stars := 0;
     t_sum_opponent_destruction := float_zero;
     t_opponent_attacks_used := 0;
     t_clan_members_stats := member_stats (members (clan war));
     t_opponent_members_stats := member_stats (members (opponent war)) |}.

Definition initial_snapshot (war : war_data) : snapshot member_stat :=
  {| Snapshot.order := 0;
     Snapshot.clan_stars := 0;
     Snapshot.clan_destruction := float_zero;
     Snapshot.clan_attacks_used := 0;
     Snapshot.opponent_stars := 0;
     Snapshot.opponent_destruction := float_zero;
     Snapshot.opponent_attacks_used := 0;
     Snapshot.clan_members := dict_values (member_stats (members (clan war)));
     Snapshot.opponent_members :=
       dict_values (member_stats (members (opponent war)));
     Snapshot.last_attack := None |}.

(** Every percentage of the list has a float. *)
Definition all_convertible (l : list attack) : bool :=
  forallb (fun a => convertible (Attack.destructionPercentage a)) l.

(** The first iteration meets the addition of its attack, then the
    division; the later ones can only fail at their addition. *)
Definition timeline_on_values (war : war_data) (all_attacks : list attack)
    : result (list (snapshot member_stat)) :=
  match all_attacks with
  | [] => Ok [initial_snapshot war]
  | a :: rest =>
      _ <- as_float (Attack.destructionPercentage a) ;;
      _ <- truediv float_zero (teamSize war * 100) ;;
      if all_convertible rest
      then Ok (initial_snapshot war
                 :: scan (teamSize war) all_attacks (initial_tally war))
      else Raise OverflowError
  end.

(** ** Notions the statements use *)

(** The raw attack records of a roster, in the order the loops visit them. *)
Definition roster_attacks (r : roster) : list raw_attack :=
  flat_map (fun m => get (m_attacks m) []) (members r).

(** A raw record that carries the five mandatory fields. *)
Definition well_formed (a : raw_attack) : bool :=
  match raw_attackerTag a, raw_defenderTag a, raw_stars a,
        raw_destructionPercentage a, raw_order a with
  | Some _, Some _, Some _, Some _, Some _ => true
  | _, _, _, _, _ => false
  end.

(** The conversion of a whole list of raw records, first failure first. *)
Fixpoint make_attacks (side : string) (l : list raw_attack)
    : result (list attack) :=
  match l with
  | [] => Ok []
  | a :: l' =>
      x <- make_attack side a ;;
      xs <- make_attacks side l' ;;
      Ok (x :: xs)
  end.

(** The raw destruction-percentage sum of one side over a list of attacks,
    added up from [0.0] in the order of the list, with the addition of the
    loop. *)
Fixpoint destruction_sum_from (clan_side : bool) (l : list attack)
    (sum : pyfloat) : result pyfloat :=
  match l with
  | [] => Ok sum
  | a :: rest =>
      if Bool.eqb (is_clan a) clan_side
      then sum' <- add sum (Attack.destructionPercentage a) ;;
           destruction_sum_from clan_side rest sum'
      else destruction_sum_from clan_side rest sum
  end.

Definition destruction_sum (clan_side : bool) (l : list attack)
    : result pyfloat :=
  destruction_sum_from clan_side l float_zero.

Definition has_tag (t : string) (s : member_stat) : bool :=
  String.eqb (tag s) t.

(** The number of attacks recorded in the two rosters. *)
Definition attack_count (war : war_data) : nat :=
  (List.length (roster_attacks (clan war)) +
   List.length (roster_attacks (opponent war)))%nat.

(** A raw record that lacks one of the five mandatory fields. *)
Definition lacks_mandatory_field (a : raw_attack) : Prop :=
  raw_attackerTag a = None \/ raw_defenderTag a = None \/
  raw_stars a = None \/ raw_destructionPercentage a = None \/
  raw_order a = None.

(** The tally after a list of attacks has been folded in. *)
Definition tally_after (t : tally) (l : list attack) : tally :=
  fold_left (fun t a => tally_attack a t) l t.

(** [P] holds of every two neighbours of a list. *)
Definition adjacent (A : Type) (P : A -> A -> Prop) (l : list A) : Prop :=
  forall n x y, nth_error l n = Some x -> nth_error l (S n) = Some y -> P x y.

(** [n >= 0] on a number. *)
Definition number_nonneg (n : number) : Prop :=
  match n with
  | Int z => 0 <= z
  | Float x => float_le float_zero x = true
  end.

(** [0 <= n <= 100] on a number. *)
Definition number_percent (n : number) : Prop :=
  match n with
  | Int z => 0 <= z <= 100
  | Float x => float_le float_zero x = true /\ float_le x float_hundred = true
  end.

(** Each side's stars, attacks used and destruction percentage do not
    decrease from [s1] to [s2]. *)
Definition non_decreasing (s1 s2 : snapshot member_stat) : Prop :=
  Snapshot.clan_stars s1 <= Snapshot.clan_stars s2 /\
  Snapshot.clan_attacks_used s1 <= Snapshot.clan_attacks_used s2 /\
  float_le (Snapshot.clan_destruction s1) (Snapshot.clan_destruction s2)
    = true /\
  Snapshot.opponent_stars s1 <= Snapshot.opponent_stars s2 /\
  Snapshot.opponent_attacks_used s1 <= Snapshot.opponent_attacks_used s2 /\
  float_le (Snapshot.opponent_destruction s1)
    (Snapshot.opponent_destruction s2) = true.

(** The totals of snapshot [s] do not exceed those a snapshot of tally [t]
    would show, and the raw sums of [t] are not negative. *)
Definition not_ahead (team_size : Z) (s : snapshot member_stat) (t : tally)
    : Prop :=
  Snapshot.clan_stars s <= t_clan_stars t /\
  Snapshot.clan_attacks_used s <= t_clan_attacks_used t /\
  float_le (Snapshot.clan_destruction s)
    (normalized (t_sum_clan_destruction t) team_size) = true /\
  Snapshot.opponent_stars s <= t_opponent_stars t /\
  Snapshot.opponent_attacks_used s <= t_opponent_attacks_used t /\
  float_le (Snapshot.opponent_destruction s)
    (normalized (t_sum_opponent_destruction t) team_size) = true /\
  float_le float_zero (t_sum_clan_destruction t) = true /\
  float_le float_zero (t_sum_opponent_destruction t) = true.

(** Both destruction percentages of a snapshot lie between 0 and 100. *)
Definition destruction_bounded (s : snapshot member_stat) : Prop :=
  (float_le float_zero (Snapshot.clan_destruction s) = true /\
   float_le (Snapshot.clan_destruction s) float_hundred = true) /\
  (float_le float_zero (Snapshot.opponent_destruction s) = true /\
   float_le (Snapshot.opponent_destruction s) float_hundred = true).

(** How many attacks of a list are on the given side. *)
Definition side_count (clan_side : bool) (l : list attack) : nat :=
  List.length (filter (fun a => Bool.eqb (is_clan a) clan_side) l).

(** What the initial snapshot holds for a roster: only all-zero MemberStats,
    exactly one for the tag of each member, none for any other tag, and, when
    no two members share a tag, one per member in roster order. *)
Definition roster_zeroed (ms : list member) (stats : list member_stat)
    : Prop :=
  Forall (fun s => attacks_used s = 0 /\ defenses_used s = 0) stats /\
  (forall m, In m ms ->
     List.length (filter (has_tag (m_tag m)) stats) = 1%nat) /\
  (forall s, In s stats -> exists m, In m ms /\ tag s = m_tag m) /\
  (NoDup (map m_tag ms) ->
     stats = map (fun m => zero_stat (m_tag m)) ms).

(** A dict from tags to the all-zero MemberStat of that tag. *)
Definition zeroed (d : dict member_stat) : Prop :=
  NoDup (dict_keys d) /\ Forall (fun p => snd p = zero_stat (fst p)) d.

(** The fields of a snapshot and the roster of a war, by side: [true] is the
    home side ("clan"), [false] the other one. *)
Definition side_stars (b : bool) (s : snapshot member_stat) : Z :=
  if b then Snapshot.clan_stars s else Snapshot.opponent_stars s.

Definition side_attacks_used (b : bool) (s : snapshot member_stat) : Z :=
  if b then Snapshot.clan_attacks_used s
  else Snapshot.opponent_attacks_used s.

Definition side_destruction (b : bool) (s : snapshot member_stat) : pyfloat :=
  if b then Snapshot.clan_destruction s else Snapshot.opponent_destruction s.

Definition side_members (b : bool) (s : snapshot member_stat)
    : list member_stat :=
  if b then Snapshot.clan_members s else Snapshot.opponent_members s.

Definition side_tags (b : bool) (war : war_data) : list string :=
  map m_tag (members (if b then clan war else opponent war)).

(** Snapshot [s] shows the counters of tally [t]. *)
Definition shows (s : snapshot member_stat) (t : tally) : Prop :=
  Snapshot.clan_stars s = t_clan_stars t /\
  Snapshot.clan_attacks_used s = t_clan_attacks_used t /\
  Snapshot.opponent_stars s = t_opponent_stars t /\
  Snapshot.opponent_attacks_used s = t_opponent_attacks_used t /\
  Snapshot.clan_members s = dict_values (t_clan_members_stats t) /\
  Snapshot.opponent_members s = dict_values (t_opponent_members_stats t).

(** Two wars with the same team size and the same attack records, member by
    member or not: they may differ in the tags of their members. *)
Definition same_attacks (war war' : war_data) : Prop :=
  teamSize war' = teamSize war /\
  roster_attacks (clan war') = roster_attacks (clan war) /\
  roster_attacks (opponent war') = roster_attacks (opponent war).

(** ** Notions the proofs use *)

(** References between two bounds. *)
Definition within (lo hi : nat) (ls : list loc) : Prop :=
  Forall (fun l => (lo <= l < hi)%nat) ls.

(** The dict of values a dict of references stands for in a heap. *)
Definition dict_read (h : heap) (d : dict loc) : dict member_stat :=
  map (fun p => (fst p, deref h (snd p))) d.

(** The running totals and the two accumulators dicts, read in the heap. *)
Definition tally_of (clan_members_stats opponent_members_stats : dict loc)
    (st : locals) : tally :=
  {| t_clan_stars := clan_stars st;
     t_sum_clan_destruction := sum_clan_destruction st;
     t_clan_attacks_used := clan_attacks_used st;
     t_opponent_stars := opponent_stars st;
     t_sum_opponent_destruction := sum_opponent_destruction st;
     t_opponent_attacks_used := opponent_attacks_used st;
     t_clan_members_stats := dict_read (store st) clan_members_stats;
     t_opponent_members_stats := dict_read (store st) opponent_members_stats |}.

Definition snapshot_locs (s : snapshot loc) : list loc :=
  Snapshot.clan_members s ++ Snapshot.opponent_members s.

(** The snapshots appended so far own objects allocated after the
    accumulators (which all lie below [n0]). *)
Definition kept (n0 : nat) (st : locals) : Prop :=
  (n0 <= List.length (store st))%nat /\
  Forall (fun s => within n0 (List.length (store st)) (snapshot_locs s))
    (war_timeline st).

(** [timeline_from] with its result read in the final heap. *)
Definition read_timeline_from (war : war_data) (all_attacks : list attack)
    (h : heap) : result (list (snapshot member_stat)) :=
  r <- timeline_from war all_attacks h ;;
  Ok (read_timeline r).

(** The loop over [l] raises nowhere: there is no attack, or every
    percentage and [team_size * 100] have a float and the team size is not
    zero. *)
Definition runs (team_size : Z) (l : list attack) : Prop :=
  l = [] \/
  (all_convertible l = true /\
   convertible (Int (team_size * 100)) = true /\
   team_size <> 0).

(** The raw sum of one side in a tally. *)
Definition side_sum (clan_side : bool) (t : tally) : pyfloat :=
  if clan_side then t_sum_clan_destruction t
  else t_sum_opponent_destruction t.

(** ** Concrete wars *)

Definition raw (attacker defender : string) (st : Z) (dp : Z) (ord : Z)
    : raw_attack :=
  {| raw_attackerTag := Some attacker;
     raw_defenderTag := Some defender;
     raw_stars := Some st;
     raw_destructionPercentage := Some (Int dp);
     raw_order := Some ord;
     raw_duration := None |}.

Definition war_of (team_size : Z) (home away : list member) : war_data :=
  {| clan := {| r_tag := "#HOME"; members := home |};
     opponent := {| r_tag := "#AWAY"; members := away |};
     teamSize := team_size;
     attacksPerMember := None |}.

(** Scenario B: team size 2, one member attacks twice, 50 and 50. *)
Definition war_scenario_B : war_data :=
  war_of 2
    [ {| m_tag := "#a";
         m_attacks := Some [raw "#a" "#x" 2 50 1; raw "#a" "#y" 1 50 2] |};
      {| m_tag := "#b"; m_attacks := None |} ]
    [ {| m_tag := "#x"; m_attacks := Some [] |};
      {| m_tag := "#y"; m_attacks := None |} ].

(** The attacks of scenario B as [extract_attacks] returns them. *)
Definition attacks_scenario_B : list attack :=
  [ {| Attack.attackerClan := "clan";
       Attack.attackerTag := "#a";
       Attack.defenderTag := "#x";
       Attack.stars := 2;
       Attack.destructionPercentage := Int 50;
       Attack.order := 1;
       Attack.duration := 0 |};
    {| Attack.attackerClan := "clan";
       Attack.attackerTag := "#a";
       Attack.defenderTag := "#y";
       Attack.stars := 1;
       Attack.destructionPercentage := Int 50;
       Attack.order := 2;
       Attack.duration := 0 |} ].

(** Scenario C: nobody attacks. *)
Definition war_scenario_C : war_data :=
  war_of 5
    [ {| m_tag := "#a"; m_attacks := None |} ]
    [ {| m_tag := "#x"; m_attacks := Some [] |} ].

(** Scenario D with both identifiers unknown: the attack names an attacker
    and a defender that are on no roster. *)
Definition war_scenario_D : war_data :=
  war_of 1
    [ {| m_tag := "#a"; m_attacks := Some [raw "#gone" "#nobody" 3 100 1] |} ]
    [ {| m_tag := "#x"; m_attacks := None |} ].

(** The war of scenario D with the attack filed under tags the rosters
    hold. *)
Definition war_scenario_D_known : war_data :=
  war_of 1
    [ {| m_tag := "#gone";
         m_attacks := Some [raw "#gone" "#nobody" 3 100 1] |} ]
    [ {| m_tag := "#nobody"; m_attacks := None |} ].

(** One attack, and a team size of zero. *)
Definition war_zero_team : war_data :=
  war_of 0
    [ {| m_tag := "#a"; m_attacks := Some [raw "#a" "#x" 3 100 1] |} ]
    [ {| m_tag := "#x"; m_attacks := None |} ].

(** One attack whose percentage is an int beyond the floats, and a team size
    of zero. *)
Definition war_zero_team_huge : war_data :=
  war_of 0
    [ {| m_tag := "#a";
         m_attacks := Some [raw "#a" "#x" 3 (10 ^ 400) 1] |} ]
    [ {| m_tag := "#x"; m_attacks := None |} ].

(** One attack of 7 percent on a team of one. *)
Definition war_seven : war_data :=
  war_of 1
    [ {| m_tag := "#a"; m_attacks := Some [raw "#a" "#x" 1 7 1] |} ]
    [ {| m_tag := "#x"; m_attacks := None |} ].

(** The two sides number their attacks alike: both carry order 1. *)
Definition war_tie : war_data :=
  war_of 1
    [ {| m_tag := "#a"; m_attacks := Some [raw "#a" "#x" 2 60 1] |} ]
    [ {| m_tag := "#x"; m_attacks := Some [raw "#x" "#a" 1 40 1] |} ].

(** A record without stars. *)
Definition war_malformed : war_data :=
  war_of 1
    [ {| m_tag := "#a";
         m_attacks :=
           Some [ {| raw_attackerTag := Some "#a";
                     raw_defenderTag := Some "#x";
                     raw_stars := None;
                     raw_destructionPercentage := Some (Int 100);
                     raw_order := Some 1;
                     raw_duration := Some 30 |} ] |} ]
    [ {| m_tag := "#x"; m_attacks := None |} ].

(** Two attacks per member: both members of the home side destroy both
    bases of the other side. *)
Definition war_two_attacks_each : war_data :=
  {| clan :=
       {| r_tag := "#HOME";
          members :=
            [ {| m_tag := "#a";
                 m_attacks :=
                   Some [raw "#a" "#x" 3 100 1; raw "#a" "#y" 3 100 2] |};
              {| m_tag := "#b";
                 m_attacks :=
                   Some [raw "#b" "#x" 3 100 3; raw "#b" "#y" 3 100 4] |} ] |};
     opponent :=
       {| r_tag := "#AWAY";
          members := [ {| m_tag := "#x"; m_attacks := None |};
                       {| m_tag := "#y"; m_attacks := None |} ] |};
     teamSize := 2;
     attacksPerMember := Some 2 |}.

(** ** Notions of the further properties *)

(** The stars one side scored over a list of attacks. *)
Definition stars_sum (clan_side : bool) (l : list attack) : Z :=
  fold_left
    (fun s a => if Bool.eqb (is_clan a) clan_side then s + Attack.stars a else s)
    l 0.

(** The attacks of a list made by side [clan_side] under attacker tag [t]. *)
Definition attacks_by (clan_side : bool) (t : string) (l : list attack)
    : nat :=
  List.length
    (filter (fun a => Bool.eqb (is_clan a) clan_side
                      && String.eqb (Attack.attackerTag a) t) l).

(** The attacks of a list made by the side opposite to [clan_side] on
    defender tag [t]. *)
Definition defenses_of (clan_side : bool) (t : string) (l : list attack)
    : nat :=
  List.length
    (filter (fun a => Bool.eqb (is_clan a) (negb clan_side)
                      && String.eqb (Attack.defenderTag a) t) l).

(** The attacks of a list made by side [clan_side] under a tag that is not
    among [tags]. *)
Definition unknown_attackers (clan_side : bool) (tags : list string)
    (l : list attack) : nat :=
  List.length
    (filter (fun a => Bool.eqb (is_clan a) clan_side
                      && negb (existsb (String.eqb (Attack.attackerTag a)) tags))
       l).

Definition total_attacks_used (stats : list member_stat) : Z :=
  fold_right (fun s n => attacks_used s + n) 0 stats.

(** The first mandatory key a raw record lacks, in the order the dict
    literal of lines 19-27 reads them. *)
Definition missing_key (a : raw_attack) : option string :=
  match raw_attackerTag a with
  | None => Some "attackerTag"
  | Some _ =>
    match raw_defenderTag a with
    | None => Some "defenderTag"
    | Some _ =>
      match raw_stars a with
      | None => Some "stars"
      | Some _ =>
        match raw_destructionPercentage a with
        | None => Some "destructionPercentage"
        | Some _ =>
          match raw_order a with
          | None => Some "order"
          | Some _ => None
          end
        end
      end
    end
  end.

(** All the references a timeline holds. *)
Definition timeline_locs (tl : list (snapshot loc)) : list loc :=
  flat_map snapshot_locs tl.

(** Every MemberStat of a dict carries the tag it is filed under and the
    counts of the attacks of [l] that name this tag. *)
Definition counted (clan_side : bool) (l : list attack)
    (d : dict member_stat) : Prop :=
  NoDup (dict_keys d) /\
  Forall
    (fun p =>
       tag (snd p) = fst p /\
       attacks_used (snd p) = Z.of_nat (attacks_by clan_side (fst p) l) /\
       defenses_used (snd p) = Z.of_nat (defenses_of clan_side (fst p) l))
    d.

(** The accumulators dict of one side in a tally. *)
Definition side_dict (clan_side : bool) (t : tally) : dict member_stat :=
  if clan_side then t_clan_members_stats t else t_opponent_members_stats t.

(** The loop keeps the first [lo] objects of the heap as they are in [base],
    and the snapshots appended so far own pairwise distinct objects. *)
Definition fresh (base : heap) (n0 : nat) (st : locals) : Prop :=
  firstn (List.length base) (store st) = base /\
  NoDup (timeline_locs (war_timeline st)) /\
  kept n0 st.

(** ** get_war (lines 132-198)

    The two fetches are its inputs: [current_war_data] is [None] when the
    first request does not answer 200, [previous_wars_data] is empty when the
    second does not. *)

(** Lines 151-168: the war to show and the position it is shown under;
    [None] is the 404 answer. *)
Definition select_war (position : Z) (current_war_data : option war_data)
    (previous_wars_data : list war_data) : option (war_data * Z) :=
  let war :=
    match position =? 0, current_war_data with
    | true, Some w => Some w
    | _, _ =>
        let idx := position - 1 in
        if (0 <=? idx) && (idx <? Z.of_nat (List.length previous_wars_data))
        then nth_error previous_wars_data (Z.to_nat idx)
        else None
    end in
  match war with
  | Some w => Some (w, position)
  | None =>
      match previous_wars_data with
      | w :: _ => Some (w, 1)
      | [] => None
      end
  end.

Definition swap_sides (war : war_data) : war_data :=
  {| clan := opponent war;
     opponent := clan war;
     teamSize := teamSize war;
     attacksPerMember := attacksPerMember war |}.

(** Lines 171-175. *)
Definition orient (clan_tag : string) (war : war_data) : war_data :=
  if String.eqb (r_tag (clan war)) clan_tag then war else swap_sides war.

(** [f"{i}"] on a non-negative int. *)
Definition decimal (i : nat) : string :=
  NilZero.string_of_uint (Nat.to_uint i).

(** [for i, w in enumerate(previous_wars_data, start=i)]. *)
Fixpoint previous_choices (i : nat) (previous_wars_data : list war_data)
    : list Choice.t :=
  match previous_wars_data with
  | [] => []
  | _ :: rest =>
      {| Choice.position := Z.of_nat i;
         Choice.label := String.append "Previous War " (decimal i) |}
      :: previous_choices (S i) rest
  end.

(** Lines 180-184. *)
Definition wars_available (current_war_data : option war_data)
    (previous_wars_data : list war_data) : list Choice.t :=
  match current_war_data with
  | Some _ => [ {| Choice.position := 0; Choice.label := "Current War" |} ]
  | None => []
  end ++ previous_choices 1 previous_wars_data.

Definition get_war (clan_tag : string) (position : Z)
    (current_war_data : option war_data)
    (previous_wars_data : list war_data) (h : heap) : result response :=
  match select_war position current_war_data previous_wars_data with
  | None => Ok NotFound
  | Some (war, position) =>
      let war := orient clan_tag war in
      war_timeline <- timeline war h ;;
      Ok (Rendered
            {| Page.war_timeline := war_timeline;
               Page.clan := clan war;
               Page.opponent := opponent war;
               Page.attacks_per_member := get (attacksPerMember war) 1;
               Page.wars_available :=
                 wars_available current_war_data previous_wars_data;
               Page.selected_position := position;
               Page.clan_tag := clan_tag |})
  end.

(** The label the list of wars gives to a position. *)
Definition label_of (position : Z) : string :=
  if position =? 0 then "Current War"
  else String.append "Previous War " (decimal (Z.to_nat position)).

(** The war the list of wars files under a position. *)
Definition war_at (position : Z) (current_war_data : option war_data)
    (previous_wars_data : list war_data) : option war_data :=
  if position =? 0 then current_war_data
  else if 1 <=? position
       then nth_error previous_wars_data (Z.to_nat (position - 1))
       else None.

(** ** The war seen from the other side *)

Definition flip_attack (a : attack) : attack :=
  {| Attack.attackerClan := if is_clan a then "opponent" else "clan";
     Attack.attackerTag := Attack.attackerTag a;
     Attack.defenderTag := Attack.defenderTag a;
     Attack.stars := Attack.stars a;
     Attack.destructionPercentage := Attack.destructionPercentage a;
     Attack.order := Attack.order a;
     Attack.duration := Attack.duration a |}.

Definition mirror (s : snapshot member_stat) : snapshot member_stat :=
  {| Snapshot.order := Snapshot.order s;
     Snapshot.clan_stars := Snapshot.opponent_stars s;
     Snapshot.clan_destruction := Snapshot.opponent_destruction s;
     Snapshot.clan_attacks_used := Snapshot.opponent_attacks_used s;
     Snapshot.opponent_stars := Snapshot.clan_stars s;
     Snapshot.opponent_destruction := Snapshot.clan_destruction s;
     Snapshot.opponent_attacks_used := Snapshot.clan_attacks_used s;
     Snapshot.clan_members := Snapshot.opponent_members s;
     Snapshot.opponent_members := Snapshot.clan_members s;
     Snapshot.last_attack := option_map flip_attack (Snapshot.last_attack s) |}.

Definition mirror_tally (t : tally) : tally :=
  {| t_clan_stars := t_opponent_stars t;
     t_sum_clan_destruction := t_sum_opponent_destruction t;
     t_clan_attacks_used := t_opponent_attacks_used t;
     t_opponent_stars := t_clan_stars t;
     t_sum_opponent_destruction := t_sum_clan_destruction t;
     t_opponent_attacks_used := t_clan_attacks_used t;
     t_clan_members_stats := t_opponent_members_stats t;
     t_opponent_members_stats := t_clan_members_stats t |}.

Definition set_side (side : string) (a : attack) : attack :=
  {| Attack.attackerClan := side;
     Attack.attackerTag := Attack.attackerTag a;
     Attack.defenderTag := Attack.defenderTag a;
     Attack.stars := Attack.stars a;
     Attack.destructionPercentage := Attack.destructionPercentage a;
     Attack.order := Attack.order a;
     Attack.duration := Attack.duration a |}.

End Program.

(** ** Boosters of a giveaway (routers/public/giveaway.py, lines 111-116)

    [V] is what a booster's "value" entry may hold once the JSON is decoded,
    [R] is the type of Python's floats, [float] is Python's conversion of
    such a value, [None] when it raises (ValueError, TypeError), and [one]
    is [float(1)]. *)

Section Boosters.
Variable V : Type.
Variable R : Type.
Variable float : V -> option R.
Variable one : R.

Record booster : Type := {
  b_value : option V;
  b_roles : option (list string)
}.

Record parsed_booster : Type := {
  pb_value : R;
  pb_roles : list string
}.

(** [if role_list:] on a list. *)
Definition truthy (A : Type) (l : list A) : bool :=
  match l with
  | [] => false
  | _ :: _ => true
  end.

(** [float(booster.get("value", 1))]. *)
Definition booster_value (b : booster) : option R :=
  match b_value b with
  | Some v => float v
  | None => Some one
  end.

(** The loop of lines 112-116; [None] when [float] raises. *)
Fixpoint parse_boosters_from (boosters : list booster)
    (parsed_boosters : list parsed_booster) : option (list parsed_booster) :=
  match boosters with
  | [] => Some parsed_boosters
  | b :: rest =>
      match booster_value b with
      | None => None
      | Some value =>
          let role_list := get (b_roles b) [] in
          if truthy role_list
          then parse_boosters_from rest
                 (parsed_boosters
                    ++ [ {| pb_value := value; pb_roles := role_list |} ])
          else parse_boosters_from rest parsed_boosters
      end
  end.

Definition parse_boosters (boosters : list booster)
    : option (list parsed_booster) :=
  parse_boosters_from boosters [].

(** The boosters that are kept, each with the value [float] gives it. *)
Definition kept_booster (b : booster) (p : parsed_booster) : Prop :=
  pb_roles p = get (b_roles b) [] /\ booster_value b = Some (pb_value p).
End Boosters.

(** A conversion for the examples: it accepts "2.5", "nan" and nothing
    else. *)
Definition float_2_5 (v : string) : option spec_float :=
  if String.eqb v "2.5" then Some (S754_finite false 5629499534213120 (-51))
  else if String.eqb v "nan" then Some S754_nan
  else None.

(** The float 1.0. *)
Definition float_1 : spec_float := S754_finite false 4503599627370496 (-52).

(** ** The clan tag in a request URL (lines 137 and 144) *)

(** [tag.replace('#', '%23')]. *)
Fixpoint replace_hash (tag : string) : string :=
  match tag with
  | EmptyString => EmptyString
  | String c rest =>
      if Ascii.eqb c "#"%char
      then String.append "%23" (replace_hash rest)
      else String c (replace_hash rest)
  end.

(** How many times a character occurs in a string. *)
Fixpoint occurrences (c : Ascii.ascii) (s : string) : nat :=
  match s with
  | EmptyString => 0
  | String c' rest =>
      if Ascii.eqb c' c then S (occurrences c rest) else occurrences c rest
  end.

(** * Proofs *)

Section Facts.
Context {F : PyFloat}.

(** ** The error monad *)

Lemma bind_Ok_inv (A B : Type) (r : result A) (k : A -> result B) (b : B) :
  bind r k = Ok b -> exists a, r = Ok a /\ k a = Ok b.
Proof.
  destruct r as [a | e]; simpl; intros H; [eauto | discriminate].
Qed.

Lemma bind_Raise_inv (A B : Type) (r : result A) (k : A -> result B) e :
  bind r k = Raise e -> r = Raise e \/ exists a, r = Ok a /\ k a = Raise e.
Proof.
  destruct r as [a | e']; simpl; intros H; [right; eauto | left; congruence].
Qed.

(** ** The heap *)

Lemma within_weaken lo hi lo' hi' ls :
  (lo' <= lo)%nat -> (hi <= hi')%nat -> within lo hi ls -> within lo' hi' ls.
Proof.
  intros Hlo Hhi H. eapply Forall_impl; [| exact H]. simpl. intros; lia.
Qed.

Lemma deref_app_old (h x : heap) (l : loc) :
  (l < List.length h)%nat -> deref (h ++ x) l = deref h l.
Proof. intros H. unfold deref. now apply app_nth1. Qed.

Lemma deref_app_new (h : heap) (v : member_stat) (x : heap) :
  deref (h ++ v :: x) (List.length h) = v.
Proof. unfold deref. now rewrite nth_middle. Qed.

Lemma map_deref_app (h x : heap) (ls : list loc) :
  Forall (fun l => (l < List.length h)%nat) ls ->
  map (deref (h ++ x)) ls = map (deref h) ls.
Proof.
  intros H. apply map_ext_in. intros l Hl.
  apply deref_app_old. rewrite Forall_forall in H. auto.
Qed.

Lemma assign_length (h : heap) (l : loc) (v : member_stat) :
  List.length (assign h l v) = List.length h.
Proof.
  revert l; induction h as [| x h IH]; intros [| l]; simpl; auto.
Qed.

Lemma deref_assign_same (h : heap) (l : loc) (v : member_stat) :
  (l < List.length h)%nat -> deref (assign h l v) l = v.
Proof.
  revert l; induction h as [| x h IH]; intros [| l]; simpl; intros H;
    try lia; auto.
  apply IH. lia.
Qed.

Lemma deref_assign_other (h : heap) (l l' : loc) (v : member_stat) :
  l <> l' -> deref (assign h l v) l' = deref h l'.
Proof.
  revert l l'; induction h as [| x h IH]; intros [| l] [| l'] H; simpl; auto;
    try congruence.
  apply IH. congruence.
Qed.

Lemma deepcopy_spec (ls : list loc) (h : heap) :
  Forall (fun l => (l < List.length h)%nat) ls ->
  deepcopy ls h = (seq (List.length h) (List.length ls), h ++ map (deref h) ls).
Proof.
  revert h; induction ls as [| l ls IH]; intros h H; simpl.
  - now rewrite app_nil_r.
  - inversion H as [| ? ? Hl Hls]; subst.
    rewrite IH.
    + rewrite length_app; simpl. rewrite Nat.add_1_r.
      rewrite map_deref_app by assumption.
      now rewrite <- app_assoc.
    + eapply Forall_impl; [| exact Hls]. simpl. intros a Ha.
      rewrite length_app; simpl; lia.
Qed.

Lemma within_seq (n k : nat) : within n (n + k) (seq n k).
Proof.
  unfold within. apply Forall_forall. intros l Hl.
  apply in_seq in Hl. lia.
Qed.

Lemma map_deref_seq (h x y : heap) :
  map (deref (h ++ x ++ y)) (seq (List.length h) (List.length x)) = x.
Proof.
  revert h; induction x as [| v x IH]; intros h; simpl; auto.
  f_equal.
  - apply deref_app_new.
  - specialize (IH (h ++ [v])).
    rewrite length_app in IH; simpl in IH. rewrite Nat.add_1_r in IH.
    rewrite <- app_assoc in IH. exact IH.
Qed.

(** ** Dicts of references and the dicts of values they stand for *)

Lemma dict_values_read (h : heap) (d : dict loc) :
  dict_values (dict_read h d) = map (deref h) (dict_values d).
Proof.
  unfold dict_values, dict_read. rewrite !map_map. reflexivity.
Qed.

Lemma dict_read_ext (h h' : heap) (d : dict loc) :
  (forall l, In l (dict_values d) -> deref h' l = deref h l) ->
  dict_read h' d = dict_read h d.
Proof.
  intros H. apply map_ext_in. intros [k l] Hin. simpl. f_equal.
  apply H. unfold dict_values. change l with (snd (k, l)). now apply in_map.
Qed.

Lemma dict_set_values_Forall (P : loc -> Prop) (d : dict loc) k l :
  Forall P (dict_values d) -> P l -> Forall P (dict_values (dict_set d k l)).
Proof.
  induction d as [| [k' l'] d IH]; simpl; intros Hd Hl.
  - constructor; auto.
  - inversion Hd; subst. destruct (String.eqb k' k); simpl; constructor; auto.
Qed.

Lemma dict_set_values_In (d : dict loc) k l x :
  In x (dict_values (dict_set d k l)) -> x = l \/ In x (dict_values d).
Proof.
  induction d as [| [k' l'] d IH]; simpl.
  - intros [H | []]; auto.
  - destruct (String.eqb k' k); simpl; intros [H | H]; auto.
    destruct (IH H); auto.
Qed.

Lemma dict_set_values_NoDup (d : dict loc) k l :
  NoDup (dict_values d) -> ~ In l (dict_values d) ->
  NoDup (dict_values (dict_set d k l)).
Proof.
  induction d as [| [k' l'] d IH]; simpl; intros Hd Hl.
  - constructor; auto.
  - inversion Hd; subst. destruct (String.eqb k' k); simpl.
    + constructor; auto.
    + constructor; [| apply IH; auto].
      intros Hin. apply dict_set_values_In in Hin. destruct Hin; subst; auto.
Qed.

Lemma dict_read_set (h : heap) (d : dict loc) k l :
  dict_read h (dict_set d k l) = dict_set (dict_read h d) k (deref h l).
Proof.
  induction d as [| [k' l'] d IH]; simpl; auto.
  destruct (String.eqb k' k); simpl; congruence.
Qed.

Lemma initialize_member_stats_from_spec (ms : list member) :
  forall (d : dict loc) (h : heap) (lo : nat),
    (lo <= List.length h)%nat ->
    within lo (List.length h) (dict_values d) ->
    NoDup (dict_values d) ->
    exists d',
      initialize_member_stats_from ms d h =
        (d', h ++ map (fun m => zero_stat (m_tag m)) ms) /\
      within lo (List.length h + List.length ms) (dict_values d') /\
      NoDup (dict_values d') /\
      dict_read (h ++ map (fun m => zero_stat (m_tag m)) ms) d' =
        member_stats_from ms (dict_read h d).
Proof.
  induction ms as [| m ms IH]; intros d h lo Hlo Hw Hnd; simpl.
  - exists d. rewrite app_nil_r, Nat.add_0_r. auto.
  - set (z := zero_stat (m_tag m)).
    set (d1 := dict_set d (m_tag m) (List.length h)).
    destruct (IH d1 (h ++ [z]) lo) as (d' & Hrun & Hw' & Hnd' & Hread).
    + rewrite length_app; simpl; lia.
    + apply dict_set_values_Forall.
      * eapply within_weaken; [| | exact Hw]; auto.
        rewrite length_app; simpl; lia.
      * rewrite length_app; simpl; lia.
    + apply dict_set_values_NoDup; auto.
      intros Hin. unfold within in Hw. rewrite Forall_forall in Hw.
      specialize (Hw _ Hin). lia.
    + exists d'. rewrite <- app_assoc in Hrun, Hread. simpl in Hrun, Hread.
      rewrite length_app in Hw'; simpl in Hw'.
      repeat split; auto.
      * eapply within_weaken; [| | exact Hw']; lia.
      * rewrite Hread. f_equal. unfold d1. rewrite dict_read_set.
        rewrite (deref_app_new h z []).
        f_equal. apply dict_read_ext. intros l Hl.
        apply deref_app_old. unfold within in Hw. rewrite Forall_forall in Hw.
        specialize (Hw _ Hl). lia.
Qed.

Lemma initialize_member_stats_spec (ms : list member) (h : heap) :
  exists d,
    initialize_member_stats ms h =
      (d, h ++ map (fun m => zero_stat (m_tag m)) ms) /\
    within (List.length h) (List.length h + List.length ms) (dict_values d) /\
    NoDup (dict_values d) /\
    dict_read (h ++ map (fun m => zero_stat (m_tag m)) ms) d = member_stats ms.
Proof.
  unfold initialize_member_stats, member_stats.
  destruct (@initialize_member_stats_from_spec ms [] h (List.length h))
    as (d & H1 & H2 & H3 & H4); auto.
  - constructor.
  - constructor.
  - exists d; auto.
Qed.

(** ** The counters of a member and the heap *)

Lemma dict_get_In (d : dict loc) k l :
  dict_get d k = Some l -> In l (dict_values d).
Proof.
  induction d as [| [k' l'] d IH]; simpl; [discriminate |].
  destruct (String.eqb k' k); intros H; [left; congruence | right; auto].
Qed.

Lemma bump_length f (d : dict loc) k (h : heap) : List.length (bump f d k h) = List.length h.
Proof.
  unfold bump. destruct (dict_get d k); auto using assign_length.
Qed.

(** A bump changes nothing outside the objects of its dict. *)
Lemma bump_frame f (d : dict loc) k (h : heap) (l : loc) :
  ~ In l (dict_values d) -> deref (bump f d k h) l = deref h l.
Proof.
  intros Hl. unfold bump. destruct (dict_get d k) as [l0 |] eqn:E; auto.
  apply deref_assign_other. intros ->. apply Hl. eapply dict_get_In; eauto.
Qed.

Lemma dict_read_assign_get f h : forall (d : dict loc) k l,
  dict_get d k = Some l ->
  NoDup (dict_values d) ->
  (l < List.length h)%nat ->
  dict_read (assign h l (f (deref h l))) d = dict_adjust f (dict_read h d) k.
Proof.
  induction d as [| [k' l'] d IH]; simpl; intros k l Hget Hnd Hl;
    [discriminate |].
  inversion Hnd as [| ? ? Hnot Hnd']; subst.
  destruct (String.eqb k' k).
  - injection Hget as ->. rewrite deref_assign_same by assumption.
    f_equal. apply dict_read_ext. intros x Hx.
    apply deref_assign_other. intros ->. auto.
  - rewrite deref_assign_other.
    + f_equal. apply IH; auto.
    + intros ->. apply Hnot. eapply dict_get_In; eauto.
Qed.

Lemma dict_adjust_absent f (h : heap) : forall (d : dict loc) k,
  dict_get d k = None -> dict_adjust f (dict_read h d) k = dict_read h d.
Proof.
  induction d as [| [k' l'] d IH]; simpl; intros k Hget; auto.
  destruct (String.eqb k' k); [discriminate |]. f_equal. auto.
Qed.

Lemma bump_read_self f (d : dict loc) k (h : heap) :
  NoDup (dict_values d) ->
  Forall (fun l => (l < List.length h)%nat) (dict_values d) ->
  dict_read (bump f d k h) d = dict_adjust f (dict_read h d) k.
Proof.
  intros Hnd Hlt. unfold bump. destruct (dict_get d k) as [l |] eqn:E.
  - apply dict_read_assign_get; auto.
    rewrite Forall_forall in Hlt. apply Hlt. eapply dict_get_In; eauto.
  - symmetry. now apply dict_adjust_absent.
Qed.

Lemma bump_read_other f (d : dict loc) k (h : heap) (d2 : dict loc) :
  (forall l, In l (dict_values d2) -> ~ In l (dict_values d)) ->
  dict_read (bump f d k h) d2 = dict_read h d2.
Proof.
  intros H. apply dict_read_ext. intros l Hl. apply bump_frame. auto.
Qed.

(** ** The steps that can raise *)

Lemma as_float_convertible (n : number) :
  convertible n = true -> as_float n = Ok (number_value n).
Proof.
  unfold convertible, number_value.
  destruct (as_float n); [reflexivity | discriminate].
Qed.

Lemma as_float_not_convertible (n : number) :
  convertible n = false -> as_float n = Raise OverflowError.
Proof.
  unfold convertible. destruct n as [z | x]; simpl; [| discriminate].
  destruct (float_of_int z); [discriminate | reflexivity].
Qed.

Lemma as_float_Raise (n : number) (e : error) :
  as_float n = Raise e -> e = OverflowError /\ convertible n = false.
Proof.
  unfold convertible. destruct n as [z | x]; simpl; [| discriminate].
  destruct (float_of_int z); [discriminate |]. intros [= <-]. auto.
Qed.

Lemma add_convertible (x : pyfloat) (n : number) :
  convertible n = true -> add x n = Ok (float_add x (number_value n)).
Proof. intros H. unfold add. now rewrite (as_float_convertible _ H). Qed.

Lemma truediv_Ok (x : pyfloat) (team_size : Z) :
  convertible (Int (team_size * 100)) = true ->
  team_size * 100 <> 0 ->
  truediv x (team_size * 100) = Ok (float_truediv x (divisor team_size)).
Proof.
  intros Hc Hnz. unfold truediv, divisor.
  rewrite (as_float_convertible _ Hc). simpl.
  apply Z.eqb_neq in Hnz. now rewrite Hnz.
Qed.

Lemma truediv_Ok_inv (x : pyfloat) (d : Z) (q : pyfloat) :
  truediv x d = Ok q -> convertible (Int d) = true /\ d <> 0.
Proof.
  unfold truediv, convertible.
  destruct (as_float (Int d)); simpl; [| discriminate].
  destruct (d =? 0) eqn:E; [discriminate |].
  intros _. split; [reflexivity | now apply Z.eqb_neq].
Qed.

Lemma truediv_Raise (x y : pyfloat) (d : Z) (e : error) :
  truediv x d = Raise e -> truediv y d = Raise e.
Proof.
  unfold truediv. destruct (as_float (Int d)); simpl; [| auto].
  destruct (d =? 0); [auto | discriminate].
Qed.

Lemma truediv_Raise_inv (x : pyfloat) (d : Z) (e : error) :
  truediv x d = Raise e ->
  (e = OverflowError /\ convertible (Int d) = false) \/
  (e = ZeroDivisionError /\ convertible (Int d) = true /\ d = 0).
Proof.
  unfold truediv. destruct (as_float (Int d)) as [y | e'] eqn:E; simpl.
  - destruct (d =? 0) eqn:Ez; [| discriminate]. intros [= <-]. right.
    apply Z.eqb_eq in Ez. unfold convertible. rewrite E. auto.
  - intros [= <-]. left. now apply as_float_Raise.
Qed.

Lemma truediv_zero (x : pyfloat) :
  truediv x 0 = Raise ZeroDivisionError.
Proof. unfold truediv. simpl. now rewrite float_of_int_0. Qed.

Lemma all_convertible_cons (a : attack) (l : list attack) :
  all_convertible (a :: l) =
    convertible (Attack.destructionPercentage a) && all_convertible l.
Proof. reflexivity. Qed.

Lemma all_convertible_firstn (n : nat) (l : list attack) :
  all_convertible l = true -> all_convertible (firstn n l) = true.
Proof.
  revert n. induction l as [| a l IH]; intros [| n] H; auto.
  rewrite firstn_cons, all_convertible_cons.
  rewrite all_convertible_cons in H. apply andb_true_iff in H.
  destruct H as [Ha Hl]. now rewrite Ha, IH.
Qed.

Lemma all_convertible_false (l : list attack) :
  all_convertible l = false <->
  exists a, In a l /\ convertible (Attack.destructionPercentage a) = false.
Proof.
  induction l as [| x l IH].
  - split; [discriminate | intros (a & [] & _)].
  - rewrite all_convertible_cons.
    destruct (convertible (Attack.destructionPercentage x)) eqn:E; simpl.
    + rewrite IH. split.
      * intros (a & Ha & Hf). eauto.
      * intros (a & [-> | Ha] & Hf); [congruence | eauto].
    + split; auto. intros _. exists x. auto.
Qed.

(** ** One iteration of the loop, in the heap and on values *)

Lemma read_frame (n0 : nat) (h h' : heap) (s : snapshot loc) :
  within n0 (List.length h) (snapshot_locs s) ->
  (forall l, (n0 <= l < List.length h)%nat -> deref h' l = deref h l) ->
  read h' s = read h s.
Proof.
  intros Hw Hfr. unfold within, snapshot_locs in Hw.
  rewrite Forall_app in Hw. destruct Hw as [Hc Ho].
  rewrite Forall_forall in Hc, Ho.
  unfold read. f_equal; apply map_ext_in; intros l Hl; apply Hfr; auto.
Qed.

Section Fold.
Variable team_size : Z.
Variables cd od : dict loc.
Variable n0 : nat.
Hypothesis cd_below : within 0 n0 (dict_values cd).
Hypothesis od_below : within 0 n0 (dict_values od).
Hypothesis cd_NoDup : NoDup (dict_values cd).
Hypothesis od_NoDup : NoDup (dict_values od).
Hypothesis cd_od_apart :
  forall l, In l (dict_values cd) -> ~ In l (dict_values od).

Let below (d : dict loc) (Hd : within 0 n0 (dict_values d)) (h : heap) :
  (n0 <= List.length h)%nat ->
  Forall (fun l => (l < List.length h)%nat) (dict_values d).
Proof.
  intros Hn. eapply Forall_impl; [| exact Hd]. simpl. intros; lia.
Qed.

Let od_cd_apart l : In l (dict_values od) -> ~ In l (dict_values cd).
Proof. intros H1 H2. eapply cd_od_apart; eauto. Qed.

Let above (d : dict loc) (Hd : within 0 n0 (dict_values d)) (l : loc) :
  (n0 <= l)%nat -> ~ In l (dict_values d).
Proof.
  intros Hn Hin. unfold within in Hd. rewrite Forall_forall in Hd.
  specialize (Hd _ Hin). lia.
Qed.

Lemma count_attack_spec (a : attack) (st : locals) :
  (n0 <= List.length (store st))%nat ->
  convertible (Attack.destructionPercentage a) = true ->
  exists st1,
    count_attack cd od a st = Ok st1 /\
    tally_of cd od st1 = tally_attack a (tally_of cd od st) /\
    List.length (store st1) = List.length (store st) /\
    (forall l, (n0 <= l)%nat -> deref (store st1) l = deref (store st) l) /\
    war_timeline st1 = war_timeline st.
Proof.
  intros Hn Hc. unfold count_attack, tally_attack, tally_of.
  destruct (is_clan a); rewrite (add_convertible _ _ Hc); simpl;
    (eexists; split; [reflexivity |]); simpl; repeat split.
  - f_equal.
    + rewrite bump_read_other by exact cd_od_apart.
      apply bump_read_self; auto.
    + rewrite bump_read_self; auto.
      * f_equal. apply bump_read_other. exact od_cd_apart.
      * rewrite bump_length. auto.
  - now rewrite !bump_length.
  - intros l Hl. rewrite !bump_frame; auto.
  - f_equal.
    + rewrite bump_read_self; auto.
      * f_equal. apply bump_read_other. exact cd_od_apart.
      * rewrite bump_length. auto.
    + rewrite bump_read_other by exact od_cd_apart.
      apply bump_read_self; auto.
  - now rewrite !bump_length.
  - intros l Hl. rewrite !bump_frame; auto.
Qed.

Lemma fold_attack_spec (a : attack) (st : locals) :
  convertible (Int (team_size * 100)) = true ->
  team_size * 100 <> 0 ->
  convertible (Attack.destructionPercentage a) = true ->
  kept n0 st ->
  exists st',
    fold_attack team_size cd od a st = Ok st' /\
    kept n0 st' /\
    tally_of cd od st' = tally_attack a (tally_of cd od st) /\
    map (read (store st')) (war_timeline st') =
      map (read (store st)) (war_timeline st) ++
      [snapshot_of team_size a (tally_attack a (tally_of cd od st))].
Proof.
  intros Hd Hnz Hc [Hn Hsn].
  destruct (@count_attack_spec a st Hn Hc)
    as (st1 & Hrun1 & Ht & Hlen & Hfr & Htl).
  unfold fold_attack. rewrite Hrun1. simpl.
  rewrite !(@truediv_Ok _ team_size Hd Hnz). simpl.
  assert (Hn1 : (n0 <= List.length (store st1))%nat) by lia.
  assert (Hbc : Forall (fun l => (l < List.length (store st1))%nat)
                  (dict_values cd)) by (apply below; auto).
  assert (Hbo : Forall (fun l => (l < List.length (store st1))%nat)
                  (dict_values od)) by (apply below; auto).
  rewrite deepcopy_spec by exact Hbc.
  set (X := map (deref (store st1)) (dict_values cd)).
  assert (HY : map (deref (store st1 ++ X)) (dict_values od) =
               map (deref (store st1)) (dict_values od))
    by (apply map_deref_app; auto).
  rewrite deepcopy_spec.
  2:{ eapply Forall_impl; [| exact Hbo].
      simpl; intros l Hl. rewrite length_app; lia. }
  rewrite HY. set (Y := map (deref (store st1)) (dict_values od)).
  eexists; split; [reflexivity |].
  assert (HlX : List.length X = List.length (dict_values cd))
    by (unfold X; apply length_map).
  assert (HlY : List.length Y = List.length (dict_values od))
    by (unfold Y; apply length_map).
  assert (Hold : forall l, (n0 <= l < List.length (store st))%nat ->
            deref ((store st1 ++ X) ++ Y) l = deref (store st) l).
  { intros l Hl. rewrite <- app_assoc.
    rewrite deref_app_old by lia. apply Hfr. lia. }
  unfold kept; simpl. rewrite Htl. repeat split.
  - rewrite !length_app. lia.
  - apply Forall_app; split.
    + eapply Forall_impl; [| exact Hsn]. simpl. intros s Hs.
      eapply within_weaken; [| | exact Hs]; auto.
      rewrite !length_app. lia.
    + constructor; [| constructor].
      unfold snapshot_locs; simpl. apply Forall_app; split.
      * eapply within_weaken; [| | apply within_seq]; auto.
        rewrite !length_app. lia.
      * eapply within_weaken; [| | apply within_seq].
        -- rewrite length_app; lia.
        -- rewrite !length_app. lia.
  - rewrite <- Ht. unfold tally_of; simpl. f_equal.
    + apply dict_read_ext. intros l Hl. rewrite <- app_assoc.
      apply deref_app_old. rewrite Forall_forall in Hbc. auto.
    + apply dict_read_ext. intros l Hl. rewrite <- app_assoc.
      apply deref_app_old. rewrite Forall_forall in Hbo. auto.
  - rewrite map_app. f_equal.
    + apply map_ext_in. intros s Hs. rewrite Forall_forall in Hsn.
      eapply read_frame; eauto.
    + simpl. rewrite <- Ht. unfold read, snapshot_of, normalized; simpl.
      rewrite !dict_values_read. fold X Y.
      f_equal. f_equal.
      * rewrite <- HlX, <- app_assoc. apply map_deref_seq.
      * rewrite <- HlY.
        rewrite <- (app_nil_r Y) at 1.
        apply (map_deref_seq (store st1 ++ X) Y []).
Qed.

Lemma fold_attacks_spec (l : list attack) :
  convertible (Int (team_size * 100)) = true ->
  team_size * 100 <> 0 ->
  all_convertible l = true ->
  forall st, kept n0 st ->
  exists st',
    fold_attacks team_size cd od l st = Ok st' /\
    map (read (store st')) (war_timeline st') =
      map (read (store st)) (war_timeline st) ++
      scan team_size l (tally_of cd od st).
Proof.
  intros Hd Hnz. induction l as [| a l IH]; intros Hl st Hk; simpl.
  - exists st. now rewrite app_nil_r.
  - rewrite all_convertible_cons in Hl. apply andb_true_iff in Hl.
    destruct Hl as [Ha Hl].
    destruct (@fold_attack_spec a st Hd Hnz Ha Hk)
      as (st1 & Hrun & Hk1 & Ht & Hrd).
    rewrite Hrun; simpl.
    destruct (IH Hl st1 Hk1) as (st' & Hrun' & Hrd').
    exists st'. split; auto.
    rewrite Hrd', Hrd, Ht, <- app_assoc. reflexivity.
Qed.

(** The first iteration raises at its addition. *)
Lemma fold_attacks_Raise_add (a : attack) (l : list attack) (st : locals) :
  convertible (Attack.destructionPercentage a) = false ->
  fold_attacks team_size cd od (a :: l) st = Raise OverflowError.
Proof.
  intros Hc. simpl. unfold fold_attack, count_attack, add.
  rewrite (as_float_not_convertible _ Hc). now destruct (is_clan a).
Qed.

(** The first iteration raises at its division. *)
Lemma fold_attacks_Raise_div (a : attack) (l : list attack) (st : locals)
    (e : error) :
  convertible (Attack.destructionPercentage a) = true ->
  truediv float_zero (team_size * 100) = Raise e ->
  fold_attacks team_size cd od (a :: l) st = Raise e.
Proof.
  intros Hc He. simpl. unfold fold_attack, count_attack.
  destruct (is_clan a); rewrite (add_convertible _ _ Hc); simpl;
    now rewrite (@truediv_Raise float_zero _ _ _ He).
Qed.

(** A later iteration raises at its addition. *)
Lemma fold_attacks_Raise (l : list attack) :
  convertible (Int (team_size * 100)) = true ->
  team_size * 100 <> 0 ->
  all_convertible l = false ->
  forall st, kept n0 st ->
  fold_attacks team_size cd od l st = Raise OverflowError.
Proof.
  intros Hd Hnz. induction l as [| a l IH]; intros Hl st Hk;
    [discriminate |].
  rewrite all_convertible_cons in Hl.
  destruct (convertible (Attack.destructionPercentage a)) eqn:Ha.
  - destruct (@fold_attack_spec a st Hd Hnz Ha Hk)
      as (st1 & Hrun & Hk1 & _).
    simpl. rewrite Hrun. simpl. apply IH; auto.
  - now apply fold_attacks_Raise_add.
Qed.
End Fold.

(** ** Before the loop: accumulators and initial snapshot *)

Lemma timeline_from_setup (war : war_data) (all_attacks : list attack)
    (h : heap) :
  exists (cd od : dict loc) (n0 : nat) (st0 : locals),
    timeline_from war all_attacks h =
      (st <- fold_attacks (teamSize war) cd od all_attacks st0 ;;
       Ok (war_timeline st, store st)) /\
    within 0 n0 (dict_values cd) /\
    within 0 n0 (dict_values od) /\
    NoDup (dict_values cd) /\
    NoDup (dict_values od) /\
    (forall l, In l (dict_values cd) -> ~ In l (dict_values od)) /\
    kept n0 st0 /\
    tally_of cd od st0 = initial_tally war /\
    map (read (store st0)) (war_timeline st0) = [initial_snapshot war].
Proof.
  unfold timeline_from.
  destruct (initialize_member_stats_spec (members (clan war)) h)
    as (cd & Hc & Hcw & Hcnd & Hcr).
  rewrite Hc. set (h1 := h ++ _) in *.
  destruct (initialize_member_stats_spec (members (opponent war)) h1)
    as (od & Ho & How & Hond & Hor).
  rewrite Ho. set (h2 := h1 ++ _) in *.
  assert (Hl1 : List.length h1 =
                (List.length h + List.length (members (clan war)))%nat)
    by (unfold h1; now rewrite length_app, length_map).
  assert (Hl2 : List.length h2 =
                (List.length h1 + List.length (members (opponent war)))%nat)
    by (unfold h2; now rewrite length_app, length_map).
  rewrite <- Hl1 in Hcw. rewrite <- Hl2 in How.
  assert (Hbc : Forall (fun l => (l < List.length h2)%nat) (dict_values cd)).
  { eapply Forall_impl; [| exact Hcw]. simpl; intros; lia. }
  assert (Hbo : Forall (fun l => (l < List.length h2)%nat) (dict_values od)).
  { eapply Forall_impl; [| exact How]. simpl; intros; lia. }
  rewrite deepcopy_spec by exact Hbc.
  set (X := map (deref h2) (dict_values cd)).
  rewrite deepcopy_spec.
  2:{ eapply Forall_impl; [| exact Hbo]. simpl; intros l Hl.
      rewrite length_app; lia. }
  rewrite (@map_deref_app h2 X (dict_values od) Hbo).
  set (Y := map (deref h2) (dict_values od)).
  assert (HlX : List.length X = List.length (dict_values cd))
    by (unfold X; apply length_map).
  assert (HlY : List.length Y = List.length (dict_values od))
    by (unfold Y; apply length_map).
  assert (Hrc : dict_read h2 cd = member_stats (members (clan war))).
  { rewrite <- Hcr. apply dict_read_ext. intros l Hl. apply deref_app_old.
    unfold within in Hcw. rewrite Forall_forall in Hcw.
    specialize (Hcw _ Hl). lia. }
  exists cd, od, (List.length h2). eexists. split; [reflexivity |].
  repeat split; simpl.
  - eapply within_weaken; [| | exact Hcw]; lia.
  - eapply within_weaken; [| | exact How]; lia.
  - assumption.
  - assumption.
  - intros l H1 H2. unfold within in Hcw, How.
    rewrite Forall_forall in Hcw, How.
    specialize (Hcw _ H1). specialize (How _ H2). lia.
  - rewrite !length_app. lia.
  - constructor; [| constructor]. unfold snapshot_locs; simpl.
    apply Forall_app; split.
    + eapply within_weaken; [| | apply within_seq]; auto.
      rewrite !length_app. lia.
    + eapply within_weaken; [| | apply within_seq].
      * rewrite length_app; lia.
      * rewrite !length_app. lia.
  - unfold tally_of, initial_tally; simpl. f_equal.
    + rewrite <- Hrc. apply dict_read_ext. intros l Hl.
      rewrite <- app_assoc. apply deref_app_old.
      rewrite Forall_forall in Hbc. auto.
    + rewrite <- Hor. apply dict_read_ext. intros l Hl.
      rewrite <- app_assoc. apply deref_app_old.
      rewrite Forall_forall in Hbo. auto.
  - unfold read, initial_snapshot; simpl. f_equal. f_equal.
    + rewrite <- Hrc, dict_values_read. fold X.
      rewrite <- HlX, <- app_assoc. apply map_deref_seq.
    + rewrite <- Hor, dict_values_read. fold h2 Y.
      rewrite <- HlY. rewrite <- (app_nil_r Y) at 1.
      apply (map_deref_seq (h2 ++ X) Y []).
Qed.

(** What [timeline_from] returns, read in the heap it returns, is the fold
    on values: no snapshot shares an object with the accumulators or with
    another snapshot, so no later iteration shows through; and it raises
    what the fold on values raises. *)
Lemma timeline_on_values_correct (war : war_data) (all_attacks : list attack)
    (h : heap) :
  read_timeline_from war all_attacks h = timeline_on_values war all_attacks.
Proof.
  unfold read_timeline_from.
  destruct (timeline_from_setup war all_attacks h)
    as (cd & od & n0 & st0 & Hrun & Hc & Ho & Hcn & Hon & Hap & Hk & Ht & Hrd).
  rewrite Hrun. unfold timeline_on_values.
  destruct all_attacks as [| a l].
  - simpl. unfold read_timeline; simpl. now rewrite Hrd.
  - destruct (convertible (Attack.destructionPercentage a)) eqn:Ea.
    2:{ rewrite (as_float_not_convertible _ Ea).
        now rewrite fold_attacks_Raise_add. }
    rewrite (as_float_convertible _ Ea). cbn [bind].
    destruct (truediv float_zero (teamSize war * 100)) as [q | e] eqn:Ed.
    2:{ now rewrite (@fold_attacks_Raise_div _ cd od a l st0 e Ea Ed). }
    destruct (truediv_Ok_inv _ _ Ed) as [Hd Hnz]. cbn [bind].
    destruct (all_convertible l) eqn:El.
    + destruct (@fold_attacks_spec (teamSize war) cd od n0 Hc Ho Hcn Hon Hap
                  (a :: l) Hd Hnz) with (st := st0) as (st' & Hf & Hr).
      { now rewrite all_convertible_cons, Ea, El. }
      { exact Hk. }
      rewrite Hf. simpl. unfold read_timeline; simpl.
      rewrite Hr, Hrd, Ht. reflexivity.
    + rewrite (@fold_attacks_Raise (teamSize war) cd od n0 Hc Ho Hcn Hon Hap
                 (a :: l) Hd Hnz); [reflexivity | | exact Hk].
      now rewrite all_convertible_cons, Ea, El.
Qed.

Lemma timeline_unfold (war : war_data) (h : heap) :
  timeline war h =
    (all_attacks <- extract_attacks war ;; timeline_on_values war all_attacks).
Proof.
  unfold timeline, compute_timeline.
  destruct (extract_attacks war) as [l | e]; simpl; auto.
  apply timeline_on_values_correct.
Qed.

(** ** Extraction *)

Lemma make_attack_well_formed (side : string) (a : raw_attack) :
  well_formed a = true ->
  exists atk def st dp ord,
    raw_attackerTag a = Some atk /\ raw_defenderTag a = Some def /\
    raw_stars a = Some st /\ raw_destructionPercentage a = Some dp /\
    raw_order a = Some ord /\
    make_attack side a =
      Ok {| Attack.attackerClan := side;
            Attack.attackerTag := atk;
            Attack.defenderTag := def;
            Attack.stars := st;
            Attack.destructionPercentage := dp;
            Attack.order := ord;
            Attack.duration := get (raw_duration a) 0 |}.
Proof.
  unfold well_formed, make_attack.
  destruct (raw_attackerTag a) as [atk |]; [| discriminate].
  destruct (raw_defenderTag a) as [def |]; [| discriminate].
  destruct (raw_stars a) as [st |]; [| discriminate].
  destruct (raw_destructionPercentage a) as [dp |]; [| discriminate].
  destruct (raw_order a) as [ord |]; [| discriminate].
  intros _. exists atk, def, st, dp, ord. repeat split.
Qed.

Lemma make_attack_malformed (side : string) (a : raw_attack) :
  well_formed a = false -> exists key, make_attack side a = Raise (KeyError key).
Proof.
  unfold well_formed, make_attack.
  destruct (raw_attackerTag a); simpl; [| eauto].
  destruct (raw_defenderTag a); simpl; [| eauto].
  destruct (raw_stars a); simpl; [| eauto].
  destruct (raw_destructionPercentage a); simpl; [| eauto].
  destruct (raw_order a); simpl; [discriminate | eauto].
Qed.

Lemma make_attack_side (side : string) (a : raw_attack) (x : attack) :
  make_attack side a = Ok x -> Attack.attackerClan x = side.
Proof.
  destruct (well_formed a) eqn:E.
  - destruct (make_attack_well_formed side a E)
      as (? & ? & ? & ? & ? & _ & _ & _ & _ & _ & ->).
    intros [= <-]. reflexivity.
  - destruct (make_attack_malformed side a E) as (key & ->). discriminate.
Qed.

Lemma make_attacks_app (side : string) (l1 l2 : list raw_attack) :
  make_attacks side (l1 ++ l2) =
    (x1 <- make_attacks side l1 ;;
     x2 <- make_attacks side l2 ;;
     Ok (x1 ++ x2)).
Proof.
  induction l1 as [| a l1 IH]; simpl.
  - destruct (make_attacks side l2); reflexivity.
  - destruct (make_attack side a); simpl; auto.
    rewrite IH. destruct (make_attacks side l1); simpl; auto.
    destruct (make_attacks side l2); reflexivity.
Qed.

Lemma make_attacks_Ok (side : string) (l : list raw_attack) :
  forallb well_formed l = true -> exists xs, make_attacks side l = Ok xs.
Proof.
  induction l as [| a l IH]; simpl; intros H; [eauto |].
  apply andb_true_iff in H. destruct H as [Ha Hl].
  destruct (make_attack_well_formed side a Ha)
    as (? & ? & ? & ? & ? & _ & _ & _ & _ & _ & ->).
  destruct (IH Hl) as (xs & ->). simpl. eauto.
Qed.

Lemma make_attacks_Raise (side : string) (l : list raw_attack) :
  forallb well_formed l = false ->
  exists key, make_attacks side l = Raise (KeyError key).
Proof.
  induction l as [| a l IH]; simpl; intros H; [discriminate |].
  destruct (well_formed a) eqn:Ha; simpl in H.
  - destruct (make_attack_well_formed side a Ha)
      as (? & ? & ? & ? & ? & _ & _ & _ & _ & _ & ->).
    destruct (IH H) as (key & ->). simpl. eauto.
  - destruct (make_attack_malformed side a Ha) as (key & ->). simpl. eauto.
Qed.

Lemma make_attacks_length (side : string) (l : list raw_attack) :
  forall xs, make_attacks side l = Ok xs -> List.length xs = List.length l.
Proof.
  induction l as [| a l IH]; simpl; intros xs H.
  - injection H as <-. reflexivity.
  - apply bind_Ok_inv in H. destruct H as (x & _ & H).
    apply bind_Ok_inv in H. destruct H as (xs' & Hxs & H).
    injection H as <-. simpl. f_equal. auto.
Qed.

Lemma make_attacks_Forall2 (side : string) (l : list raw_attack) :
  forall xs, make_attacks side l = Ok xs ->
  Forall2 (fun a x => make_attack side a = Ok x) l xs.
Proof.
  induction l as [| a l IH]; simpl; intros xs H.
  - injection H as <-. constructor.
  - apply bind_Ok_inv in H. destruct H as (x & Hx & H).
    apply bind_Ok_inv in H. destruct H as (xs' & Hxs & H).
    injection H as <-. constructor; auto.
Qed.

Lemma append_attacks_spec (side : string) (l : list raw_attack) :
  forall acc,
    append_attacks side l acc = (xs <- make_attacks side l ;; Ok (acc ++ xs)).
Proof.
  induction l as [| a l IH]; intros acc; simpl.
  - now rewrite app_nil_r.
  - destruct (make_attack side a) as [x | e]; simpl; auto.
    rewrite IH. destruct (make_attacks side l); simpl; auto.
    now rewrite <- app_assoc.
Qed.

Lemma extract_members_spec (side : string) (ms : list member) :
  forall acc,
    extract_members side ms acc =
      (xs <- make_attacks side (flat_map (fun m => get (m_attacks m) []) ms) ;;
       Ok (acc ++ xs)).
Proof.
  induction ms as [| m ms IH]; intros acc; simpl.
  - now rewrite app_nil_r.
  - rewrite append_attacks_spec, make_attacks_app.
    destruct (make_attacks side (get (m_attacks m) [])) as [x1 | e]; simpl; auto.
    rewrite IH.
    destruct (make_attacks side _) as [x2 | e]; simpl; auto.
    now rewrite app_assoc.
Qed.

Lemma combined_attacks_spec (war : war_data) :
  combined_attacks war =
    (c <- make_attacks "clan" (roster_attacks (clan war)) ;;
     o <- make_attacks "opponent" (roster_attacks (opponent war)) ;;
     Ok (c ++ o)).
Proof.
  unfold combined_attacks, roster_attacks.
  rewrite extract_members_spec.
  destruct (make_attacks "clan" _) as [c | e]; simpl; auto.
  apply extract_members_spec.
Qed.

(** ** The stable sort *)

Section SortedFacts.
Variable A : Type.
Variable key : A -> Z.

Let le (x y : A) : Prop := key x <= key y.

Lemma insert_sorted_perm (x : A) (l : list A) :
  Permutation (x :: l) (insert_sorted key x l).
Proof.
  induction l as [| y l IH]; simpl; auto.
  destruct (key x <=? key y); auto.
  eapply perm_trans; [apply perm_swap |]. auto.
Qed.

Lemma sorted_perm (l : list A) : Permutation l (sorted key l).
Proof.
  induction l as [| x l IH]; simpl; auto.
  eapply perm_trans; [| apply insert_sorted_perm]. auto.
Qed.

Lemma sorted_length (l : list A) :
  List.length (sorted key l) = List.length l.
Proof. symmetry. apply Permutation_length, sorted_perm. Qed.

Lemma insert_sorted_sorted (x : A) (l : list A) :
  StronglySorted le l -> StronglySorted le (insert_sorted key x l).
Proof.
  induction l as [| y l IH]; simpl; intros H.
  - constructor; auto.
  - inversion H as [| ? ? Hs Hall]; subst.
    destruct (key x <=? key y) eqn:E.
    + apply Z.leb_le in E. constructor; auto.
      constructor; auto.
      eapply Forall_impl; [| exact Hall]. unfold le. intros; lia.
    + apply Z.leb_gt in E. constructor; auto.
      eapply Permutation_Forall; [apply insert_sorted_perm |].
      constructor; auto. unfold le. lia.
Qed.

Lemma sorted_sorted (l : list A) : StronglySorted le (sorted key l).
Proof.
  induction l as [| x l IH]; simpl.
  - constructor.
  - now apply insert_sorted_sorted.
Qed.

(** Stability: among the elements of one key, the order is the input's. *)
Lemma insert_sorted_stable (k : Z) (x : A) (l : list A) :
  StronglySorted le l ->
  filter (fun y => key y =? k) (insert_sorted key x l) =
  filter (fun y => key y =? k) (x :: l).
Proof.
  induction l as [| y l IH]; intros H; auto.
  inversion H as [| ? ? Hs Hall]; subst.
  simpl insert_sorted. destruct (key x <=? key y) eqn:E; auto.
  apply Z.leb_gt in E.
  cbn [filter]. rewrite IH by assumption. cbn [filter].
  destruct (key x =? k) eqn:Ex; destruct (key y =? k) eqn:Ey; auto.
  (* x and y cannot both have key k, since key y < key x *)
  apply Z.eqb_eq in Ex, Ey. lia.
Qed.

Lemma sorted_stable (k : Z) (l : list A) :
  filter (fun y => key y =? k) (sorted key l) =
  filter (fun y => key y =? k) l.
Proof.
  induction l as [| x l IH]; auto.
  simpl sorted. rewrite insert_sorted_stable by apply sorted_sorted.
  simpl. now rewrite IH.
Qed.
End SortedFacts.

(** ** What [timeline] returns *)

Lemma extract_attacks_inv (war : war_data) (all_attacks : list attack) :
  extract_attacks war = Ok all_attacks ->
  exists c o,
    make_attacks "clan" (roster_attacks (clan war)) = Ok c /\
    make_attacks "opponent" (roster_attacks (opponent war)) = Ok o /\
    all_attacks = sorted Attack.order (c ++ o).
Proof.
  unfold extract_attacks. rewrite combined_attacks_spec. intros H.
  apply bind_Ok_inv in H. destruct H as (l & H & Hs).
  apply bind_Ok_inv in H. destruct H as (c & Hc & H).
  apply bind_Ok_inv in H. destruct H as (o & Ho & H).
  injection H as <-. injection Hs as <-. eauto.
Qed.

Lemma extract_attacks_length (war : war_data) (all_attacks : list attack) :
  extract_attacks war = Ok all_attacks ->
  List.length all_attacks = attack_count war.
Proof.
  intros H. destruct (extract_attacks_inv war H) as (c & o & Hc & Ho & ->).
  rewrite sorted_length, length_app. unfold attack_count.
  now rewrite (make_attacks_length _ _ Hc), (make_attacks_length _ _ Ho).
Qed.

Lemma timeline_on_values_Ok (war : war_data) (all_attacks : list attack) :
  runs (teamSize war) all_attacks ->
  timeline_on_values war all_attacks =
    Ok (initial_snapshot war
          :: scan (teamSize war) all_attacks (initial_tally war)).
Proof.
  unfold timeline_on_values. destruct all_attacks as [| a l]; [reflexivity |].
  intros [H | (Hl & Hd & Hnz)]; [discriminate |].
  rewrite all_convertible_cons in Hl. apply andb_true_iff in Hl.
  destruct Hl as [Ha Hl].
  rewrite (as_float_convertible _ Ha). cbn [bind].
  rewrite truediv_Ok by (auto; lia). cbn [bind]. now rewrite Hl.
Qed.

Lemma timeline_on_values_inv (war : war_data) (all_attacks : list attack) tl :
  timeline_on_values war all_attacks = Ok tl ->
  runs (teamSize war) all_attacks /\
  tl = initial_snapshot war
         :: scan (teamSize war) all_attacks (initial_tally war).
Proof.
  unfold timeline_on_values, runs. destruct all_attacks as [| a l].
  - intros [= <-]. auto.
  - intros H. apply bind_Ok_inv in H. destruct H as (x & Hx & H).
    apply bind_Ok_inv in H. destruct H as (q & Hq & H).
    destruct (all_convertible l) eqn:El; [| discriminate].
    injection H as <-. split; [| reflexivity]. right.
    destruct (truediv_Ok_inv _ _ Hq) as [Hd Hnz].
    rewrite all_convertible_cons, El. unfold convertible at 1. rewrite Hx.
    repeat split; auto. lia.
Qed.

Lemma runs_firstn (team_size : Z) (n : nat) (l : list attack) :
  runs team_size l -> runs team_size (firstn n l).
Proof.
  intros [-> | (Hl & Hd & Hnz)].
  - left. apply firstn_nil.
  - right. repeat split; auto. now apply all_convertible_firstn.
Qed.

Lemma timeline_Ok_inv (war : war_data) (h : heap) tl :
  timeline war h = Ok tl ->
  exists all_attacks,
    extract_attacks war = Ok all_attacks /\
    runs (teamSize war) all_attacks /\
    tl = initial_snapshot war
           :: scan (teamSize war) all_attacks (initial_tally war).
Proof.
  rewrite timeline_unfold. intros H.
  apply bind_Ok_inv in H. destruct H as (l & Hl & H).
  exists l. split; auto. now apply timeline_on_values_inv.
Qed.

Lemma timeline_Ok_intro (war : war_data) (h : heap) all_attacks :
  extract_attacks war = Ok all_attacks ->
  runs (teamSize war) all_attacks ->
  timeline war h =
    Ok (initial_snapshot war
          :: scan (teamSize war) all_attacks (initial_tally war)).
Proof.
  intros He Hz. rewrite timeline_unfold, He. simpl.
  now apply timeline_on_values_Ok.
Qed.

(** What the loop raises, and when. *)
Lemma timeline_on_values_Raise (war : war_data) (all_attacks : list attack)
    (e : error) :
  timeline_on_values war all_attacks = Raise e <->
  exists a l,
    all_attacks = a :: l /\
    ((e = OverflowError /\
      (convertible (Attack.destructionPercentage a) = false \/
       convertible (Int (teamSize war * 100)) = false \/
       (teamSize war <> 0 /\ all_convertible l = false))) \/
     (e = ZeroDivisionError /\
      convertible (Attack.destructionPercentage a) = true /\
      teamSize war = 0)).
Proof.
  unfold timeline_on_values. destruct all_attacks as [| a l].
  - split; [discriminate | intros (? & ? & H & _); discriminate].
  - destruct (convertible (Attack.destructionPercentage a)) eqn:Ea.
    + rewrite (as_float_convertible _ Ea). cbn [bind].
      destruct (truediv float_zero (teamSize war * 100)) as [q | e'] eqn:Ed;
        cbn [bind].
      * destruct (truediv_Ok_inv _ _ Ed) as [Hd Hnz].
        destruct (all_convertible l) eqn:El.
        -- split; [discriminate |].
           intros (a' & l' & [= <- <-] & [(_ & [H | [H | [_ H]]]) | (_ & _ & H)]);
             try congruence; lia.
        -- split.
           ++ intros [= <-]. exists a, l. split; auto. left. split; auto.
              right. right. split; [lia | exact El].
           ++ intros (a' & l' & [= <- <-] & [(-> & _) | (_ & _ & H)]);
                [reflexivity | lia].
      * destruct (truediv_Raise_inv _ _ Ed) as [(-> & Hd) | (-> & Hd & Hz)].
        -- split.
           ++ intros [= <-]. exists a, l. split; auto.
           ++ intros (a' & l' & [= <- <-] & [(-> & _) | (_ & _ & H)]);
                [reflexivity |].
              rewrite H in Hd. simpl in Hd. unfold convertible in Hd.
              simpl in Hd. rewrite float_of_int_0 in Hd. discriminate.
        -- split.
           ++ intros [= <-]. exists a, l. split; auto. right.
              repeat split; auto. lia.
           ++ intros (a' & l' & [= <- <-]
                      & [(_ & [H | [H | [H _]]]) | (-> & _)]);
                try congruence; try reflexivity. lia.
    + rewrite (as_float_not_convertible _ Ea). cbn [bind]. split.
      * intros [= <-]. exists a, l. split; auto.
      * intros (a' & l' & [= <- <-] & [(-> & _) | (_ & H & _)]);
          [reflexivity | congruence].
Qed.

Lemma compute_timeline_Raise (war : war_data) (h : heap) (e : error) :
  compute_timeline war h = Raise e <->
  extract_attacks war = Raise e \/
  exists all_attacks,
    extract_attacks war = Ok all_attacks /\
    timeline_on_values war all_attacks = Raise e.
Proof.
  unfold compute_timeline.
  destruct (extract_attacks war) as [l | e'] eqn:He; simpl.
  - pose proof (timeline_on_values_correct war l h) as Hc.
    unfold read_timeline_from in Hc. split.
    + intros Hrun. right. exists l. split; auto.
      rewrite Hrun in Hc. simpl in Hc. congruence.
    + intros [H | (l' & [= <-] & H)]; [discriminate |].
      rewrite H in Hc. destruct (timeline_from war l h); simpl in Hc;
        congruence.
  - split.
    + intros [= ->]. now left.
    + intros [[= ->] | (l' & H & _)]; [reflexivity | discriminate].
Qed.

Lemma compute_timeline_read (war : war_data) (h : heap) r :
  compute_timeline war h = Ok r -> timeline war h = Ok (read_timeline r).
Proof. unfold timeline. now intros ->. Qed.

Lemma timeline_compute (war : war_data) (h : heap) tl :
  timeline war h = Ok tl ->
  exists r, compute_timeline war h = Ok r /\ tl = read_timeline r.
Proof.
  unfold timeline. intros H. apply bind_Ok_inv in H.
  destruct H as (r & Hr & H). injection H as <-. eauto.
Qed.

(** ** The scan *)

Lemma scan_length (team_size : Z) (l : list attack) :
  forall t, List.length (scan team_size l t) = List.length l.
Proof. induction l as [| a l IH]; intros t; simpl; auto. Qed.

Lemma tally_after_snoc (t : tally) (l : list attack) (a : attack) :
  tally_after t (l ++ [a]) = tally_attack a (tally_after t l).
Proof. unfold tally_after. now rewrite fold_left_app. Qed.

Lemma scan_nth (team_size : Z) (l : list attack) :
  forall t n a,
    nth_error l n = Some a ->
    nth_error (scan team_size l t) n =
      Some (snapshot_of team_size a (tally_after t (firstn (S n) l))).
Proof.
  induction l as [| b l IH]; intros t n a H.
  - destruct n; discriminate.
  - destruct n as [| n].
    + injection H as ->. reflexivity.
    + simpl in H. cbn [scan nth_error]. rewrite (IH _ _ _ H). reflexivity.
Qed.

Lemma scan_nth_inv (team_size : Z) (l : list attack) t n s :
  nth_error (scan team_size l t) n = Some s ->
  exists a,
    nth_error l n = Some a /\
    s = snapshot_of team_size a (tally_after t (firstn (S n) l)).
Proof.
  intros H.
  destruct (nth_error l n) as [a |] eqn:E.
  - rewrite (scan_nth team_size l t n E) in H. injection H as <-. eauto.
  - apply nth_error_None in E. rewrite <- (scan_length team_size l t) in E.
    apply nth_error_None in E. congruence.
Qed.

Lemma scan_firstn (team_size : Z) (l : list attack) :
  forall t n,
    scan team_size (firstn n l) t = firstn n (scan team_size l t).
Proof.
  induction l as [| a l IH]; intros t [| n]; simpl; auto.
  f_equal. apply IH.
Qed.

Lemma firstn_S_snoc (A : Type) (l : list A) n a :
  nth_error l n = Some a -> firstn (S n) l = firstn n l ++ [a].
Proof.
  revert n; induction l as [| b l IH]; intros [| n] H; try discriminate.
  - injection H as ->. reflexivity.
  - simpl in H. rewrite !firstn_cons, (IH _ H). reflexivity.
Qed.

(** The raw sums of the tally are the sums of the attacks folded in. *)
Lemma tally_after_cons (t : tally) (a : attack) (l : list attack) :
  tally_after t (a :: l) = tally_after (tally_attack a t) l.
Proof. reflexivity. Qed.

Lemma side_sum_tally_attack (b : bool) (a : attack) (t : tally) :
  side_sum b (tally_attack a t) =
    if Bool.eqb (is_clan a) b
    then float_add (side_sum b t)
           (number_value (Attack.destructionPercentage a))
    else side_sum b t.
Proof. unfold side_sum, tally_attack. destruct (is_clan a), b; reflexivity. Qed.

Lemma destruction_sum_from_spec (b : bool) (l : list attack) :
  all_convertible l = true ->
  forall t,
    destruction_sum_from b l (side_sum b t) =
      Ok (side_sum b (tally_after t l)).
Proof.
  induction l as [| a l IH]; intros Hl t; [reflexivity |].
  rewrite all_convertible_cons in Hl. apply andb_true_iff in Hl.
  destruct Hl as [Ha Hl].
  rewrite tally_after_cons, <- (IH Hl (tally_attack a t)).
  rewrite side_sum_tally_attack. cbn [destruction_sum_from].
  destruct (Bool.eqb (is_clan a) b); [| reflexivity].
  now rewrite (add_convertible _ _ Ha).
Qed.

Lemma destruction_sum_tally (war : war_data) (b : bool) (l : list attack) :
  all_convertible l = true ->
  destruction_sum b l = Ok (side_sum b (tally_after (initial_tally war) l)).
Proof.
  intros Hl. unfold destruction_sum.
  rewrite <- (destruction_sum_from_spec b _ Hl (initial_tally war)).
  now destruct b.
Qed.

Lemma extract_attacks_Ok (war : war_data) :
  forallb well_formed
    (roster_attacks (clan war) ++ roster_attacks (opponent war)) = true ->
  exists all_attacks, extract_attacks war = Ok all_attacks.
Proof.
  rewrite forallb_app. intros H. apply andb_true_iff in H.
  destruct H as [Hc Ho].
  destruct (make_attacks_Ok "clan" _ Hc) as (c & Ec).
  destruct (make_attacks_Ok "opponent" _ Ho) as (o & Eo).
  unfold extract_attacks. rewrite combined_attacks_spec, Ec, Eo. simpl. eauto.
Qed.

Lemma read_timeline_length (r : list (snapshot loc) * heap) :
  List.length (read_timeline r) = List.length (fst r).
Proof. unfold read_timeline. apply length_map. Qed.

(** ** Order facts *)

Lemma adjacent_one (A : Type) (P : A -> A -> Prop) (x : A) : adjacent P [x].
Proof.
  intros n a b Ha Hb. destruct n as [| n]; simpl in *; [discriminate |].
  destruct n; discriminate.
Qed.

Lemma adjacent_cons (A : Type) (P : A -> A -> Prop) (x y : A) (l : list A) :
  P x y -> adjacent P (y :: l) -> adjacent P (x :: y :: l).
Proof.
  intros Hxy Hyl [| n] a b Ha Hb; simpl in *.
  - injection Ha as <-. injection Hb as <-. exact Hxy.
  - eapply Hyl; eauto.
Qed.

Lemma side_count_snoc (b : bool) (l : list attack) (a : attack) :
  side_count b (l ++ [a]) =
    if Bool.eqb (is_clan a) b then S (side_count b l) else side_count b l.
Proof.
  unfold side_count. rewrite filter_app, length_app. simpl.
  destruct (Bool.eqb (is_clan a) b); simpl; lia.
Qed.

Lemma side_count_firstn (b : bool) (n : nat) (l : list attack) :
  (side_count b (firstn n l) <= side_count b l)%nat.
Proof.
  unfold side_count. rewrite <- (firstn_skipn n l) at 2.
  rewrite filter_app, length_app. lia.
Qed.

Lemma divisor_spec (team_size : Z) :
  convertible (Int (team_size * 100)) = true ->
  float_of_int (team_size * 100) = Some (divisor team_size).
Proof.
  unfold convertible, divisor, number_value. simpl.
  destruct (float_of_int (team_size * 100)); [reflexivity | discriminate].
Qed.

Lemma two_53 : 2 ^ 53 = 9007199254740992.
Proof. reflexivity. Qed.

Section OrderFacts.
Context {L : FloatOrder F}.

Lemma float_le_zero_zero : float_le float_zero float_zero = true.
Proof.
  eapply float_of_int_mono with (z := 0) (z' := 0);
    [lia | apply float_of_int_0 | apply float_of_int_0].
Qed.

Lemma float_le_zero_hundred : float_le float_zero float_hundred = true.
Proof.
  eapply float_of_int_mono with (z := 0) (z' := 100);
    [lia | apply float_of_int_0 | apply float_of_int_100].
Qed.

Lemma float_le_hundred_hundred : float_le float_hundred float_hundred = true.
Proof. eapply float_le_refl_r. apply float_le_zero_hundred. Qed.

Lemma number_value_nonneg (n : number) :
  number_nonneg n -> float_le float_zero (number_value n) = true.
Proof.
  destruct n as [z | x]; unfold number_value; simpl; intros H; [| exact H].
  destruct (float_of_int z) as [x |] eqn:E.
  - eapply float_of_int_mono with (z := 0) (z' := z);
      [lia | apply float_of_int_0 | exact E].
  - apply float_le_zero_zero.
Qed.

Lemma number_value_percent (n : number) :
  number_percent n ->
  float_le float_zero (number_value n) = true /\
  float_le (number_value n) float_hundred = true.
Proof.
  destruct n as [z | x]; unfold number_value; simpl; intros H; [| exact H].
  destruct (float_of_int z) as [x |] eqn:E.
  - split.
    + eapply float_of_int_mono with (z := 0) (z' := z);
        [lia | apply float_of_int_0 | exact E].
    + eapply float_of_int_mono with (z := z) (z' := 100);
        [lia | exact E | apply float_of_int_100].
  - exfalso. apply (@float_of_int_small _ L z); [rewrite two_53; lia | exact E].
Qed.

Lemma normalized_le (team_size : Z) (x y : pyfloat) :
  0 < team_size ->
  convertible (Int (team_size * 100)) = true ->
  float_le float_zero x = true ->
  float_le x y = true ->
  float_le (normalized x team_size) (normalized y team_size) = true.
Proof.
  intros Hts Hd Hx Hxy. unfold normalized. apply float_mul_mono.
  - eapply float_truediv_nonneg; [| apply (divisor_spec _ Hd) | exact Hx]. lia.
  - eapply float_truediv_mono;
      [| apply (divisor_spec _ Hd) | exact Hx | exact Hxy]. lia.
Qed.

Lemma normalized_nonneg (team_size : Z) (x : pyfloat) :
  0 < team_size ->
  convertible (Int (team_size * 100)) = true ->
  float_le float_zero x = true ->
  float_le float_zero (normalized x team_size) = true.
Proof.
  intros Hts Hd Hx. unfold normalized. apply float_mul_nonneg.
  eapply float_truediv_nonneg; [| apply (divisor_spec _ Hd) | exact Hx]. lia.
Qed.

Lemma normalized_le_100 (team_size z : Z) (x bound : pyfloat) :
  0 < team_size ->
  convertible (Int (team_size * 100)) = true ->
  0 <= z <= team_size * 100 ->
  float_of_int z = Some bound ->
  float_le float_zero x = true ->
  float_le x bound = true ->
  float_le (normalized x team_size) float_hundred = true.
Proof.
  intros Hts Hd Hz Hb H0 Hx. unfold normalized.
  eapply float_ratio; [| apply (divisor_spec _ Hd) | exact H0 |]; [lia |].
  eapply float_le_trans; [exact Hx |].
  eapply float_of_int_mono; [exact Hz | exact Hb | apply (divisor_spec _ Hd)].
Qed.

Lemma not_ahead_snapshot_of (team_size : Z) (a : attack) (t : tally) :
  0 < team_size ->
  convertible (Int (team_size * 100)) = true ->
  float_le float_zero (t_sum_clan_destruction t) = true ->
  float_le float_zero (t_sum_opponent_destruction t) = true ->
  not_ahead team_size (snapshot_of team_size a t) t.
Proof.
  intros Hts Hd Hc Ho. unfold not_ahead, snapshot_of; simpl.
  repeat match goal with |- _ /\ _ => split end; try lia; auto;
    eapply float_le_refl_r; apply normalized_nonneg; eauto.
Qed.

Lemma tally_attack_grows (team_size : Z) (a : attack) (t : tally)
    (s : snapshot member_stat) :
  0 < team_size ->
  convertible (Int (team_size * 100)) = true ->
  0 <= Attack.stars a ->
  number_nonneg (Attack.destructionPercentage a) ->
  not_ahead team_size s t ->
  non_decreasing s (snapshot_of team_size a (tally_attack a t)) /\
  float_le float_zero (t_sum_clan_destruction (tally_attack a t)) = true /\
  float_le float_zero (t_sum_opponent_destruction (tally_attack a t)) = true.
Proof.
  intros Hts Hd Hst Hdp (H1 & H2 & H3 & H4 & H5 & H6 & H7 & H8).
  pose proof (number_value_nonneg _ Hdp) as Hv.
  unfold non_decreasing, snapshot_of, tally_attack.
  destruct (is_clan a); simpl.
  - pose proof (float_add_nonneg _ _ H7 Hv) as Hg.
    repeat match goal with |- _ /\ _ => split end; try lia; auto.
    + eapply float_le_trans; [exact H3 |]. now apply normalized_le.
    + eapply float_le_trans; [exact H7 | exact Hg].
  - pose proof (float_add_nonneg _ _ H8 Hv) as Hg.
    repeat match goal with |- _ /\ _ => split end; try lia; auto.
    + eapply float_le_trans; [exact H6 |]. now apply normalized_le.
    + eapply float_le_trans; [exact H8 | exact Hg].
Qed.

Lemma scan_non_decreasing (team_size : Z) (l : list attack) :
  0 < team_size ->
  convertible (Int (team_size * 100)) = true ->
  Forall (fun a => 0 <= Attack.stars a /\
                   number_nonneg (Attack.destructionPercentage a)) l ->
  forall t s,
    not_ahead team_size s t ->
    adjacent non_decreasing (s :: scan team_size l t).
Proof.
  intros Hts Hd Hl. induction Hl as [| a l [Hst Hdp] Hl IH]; intros t s Hs;
    simpl.
  - apply adjacent_one.
  - destruct (@tally_attack_grows team_size a t s Hts Hd Hst Hdp Hs)
      as (Hg & Hc & Ho).
    apply adjacent_cons; [exact Hg |].
    apply IH. now apply not_ahead_snapshot_of.
Qed.

Lemma not_ahead_initial (war : war_data) :
  0 < teamSize war ->
  convertible (Int (teamSize war * 100)) = true ->
  not_ahead (teamSize war) (initial_snapshot war) (initial_tally war).
Proof.
  intros Hts Hd. unfold not_ahead, initial_snapshot, initial_tally; simpl.
  repeat match goal with |- _ /\ _ => split end; try lia;
    try apply float_le_zero_zero;
    apply normalized_nonneg; auto using float_le_zero_zero.
Qed.

Lemma side_sum_bounds (war : war_data) (b : bool) (l : list attack) :
  Forall (fun a => number_percent (Attack.destructionPercentage a)) l ->
  100 * Z.of_nat (side_count b l) <= 2 ^ 53 ->
  float_le float_zero (side_sum b (tally_after (initial_tally war) l))
    = true /\
  exists bound,
    float_of_int (100 * Z.of_nat (side_count b l)) = Some bound /\
    float_le (side_sum b (tally_after (initial_tally war) l)) bound = true.
Proof.
  induction l as [| a l IH] using rev_ind; intros H Hk.
  - split.
    + destruct b; apply float_le_zero_zero.
    + exists float_zero. split; [apply float_of_int_0 |].
      destruct b; apply float_le_zero_zero.
  - apply Forall_app in H. destruct H as [Hl Ha].
    inversion Ha as [| ? ? Hp _]; subst.
    destruct (number_value_percent _ Hp) as [V0 V100].
    rewrite tally_after_snoc, side_sum_tally_attack.
    rewrite side_count_snoc in *.
    destruct (Bool.eqb (is_clan a) b); [| now apply IH].
    destruct IH as (I0 & bound & Hb & Ib); [exact Hl | lia |].
    split.
    + eapply float_le_trans; [exact I0 | now apply float_add_nonneg].
    + replace (100 * Z.of_nat (S (side_count b l)))
        with (100 * (Z.of_nat (side_count b l) + 1)) in * by lia.
      destruct (float_of_int (100 * (Z.of_nat (side_count b l) + 1)))
        as [bound' |] eqn:Eb.
      * exists bound'. split; [reflexivity |].
        eapply float_add_bounded with (k := Z.of_nat (side_count b l));
          eauto. lia.
      * exfalso. eapply float_of_int_small; [| exact Eb]. lia.
Qed.
End OrderFacts.

Lemma filter_length_perm (A : Type) (f : A -> bool) (l l' : list A) :
  Permutation l l' -> List.length (filter f l) = List.length (filter f l').
Proof.
  induction 1 as [| x l l' _ IH | x y l | l l' l'' _ IH1 _ IH2]; simpl; auto.
  - destruct (f x); simpl; auto.
  - destruct (f x), (f y); simpl; auto.
  - congruence.
Qed.

Lemma side_count_all (side : string) (b : bool) (l : list attack) :
  Forall (fun a => Attack.attackerClan a = side) l ->
  side_count b l =
    if Bool.eqb (String.eqb side "clan") b then List.length l else 0%nat.
Proof.
  unfold side_count, is_clan. induction 1 as [| a l Ha _ IH]; simpl.
  - now destruct (Bool.eqb _ b).
  - rewrite Ha. destruct (Bool.eqb _ b); simpl; congruence.
Qed.

Lemma make_attacks_side (side : string) (l : list raw_attack) xs :
  make_attacks side l = Ok xs ->
  Forall (fun a => Attack.attackerClan a = side) xs.
Proof.
  intros H. apply make_attacks_Forall2 in H.
  induction H as [| a x l xs Hx _ IH]; constructor; auto.
  eapply make_attack_side; eauto.
Qed.

Lemma side_count_extract (war : war_data) (all_attacks : list attack) :
  extract_attacks war = Ok all_attacks ->
  side_count true all_attacks = List.length (roster_attacks (clan war)) /\
  side_count false all_attacks = List.length (roster_attacks (opponent war)).
Proof.
  intros He. destruct (extract_attacks_inv war He) as (c & o & Hc & Ho & ->).
  pose proof (make_attacks_side _ _ Hc) as Sc.
  pose proof (make_attacks_side _ _ Ho) as So.
  assert (Hcount : forall b,
            side_count b (sorted Attack.order (c ++ o)) =
            (side_count b c + side_count b o)%nat).
  { intros b. unfold side_count.
    rewrite <- (filter_length_perm _ (sorted_perm Attack.order (c ++ o))).
    now rewrite filter_app, length_app. }
  rewrite !Hcount.
  rewrite !(side_count_all _ Sc), !(side_count_all _ So). simpl.
  rewrite (make_attacks_length _ _ Hc), (make_attacks_length _ _ Ho).
  split; lia.
Qed.

(** ** The accumulators at the start *)

Lemma dict_set_absent (V : Type) (d : dict V) (k : string) (v : V) :
  ~ In k (dict_keys d) -> dict_set d k v = d ++ [(k, v)].
Proof.
  induction d as [| [k' v'] d IH]; simpl; intros H; auto.
  destruct (String.eqb_spec k' k) as [E | E].
  - exfalso. apply H. now left.
  - f_equal. apply IH. intros Hin. apply H. now right.
Qed.

Lemma dict_set_zero_present (d : dict member_stat) (k : string) :
  Forall (fun p => snd p = zero_stat (fst p)) d ->
  In k (dict_keys d) -> dict_set d k (zero_stat k) = d.
Proof.
  induction d as [| [k' v'] d IH]; simpl; intros Hz Hin; [contradiction |].
  inversion Hz as [| ? ? Hv Hd]; subst. simpl in Hv.
  destruct (String.eqb_spec k' k) as [E | E].
  - subst. reflexivity.
  - f_equal. apply IH; auto. destruct Hin; [congruence | assumption].
Qed.

Lemma zeroed_set (d : dict member_stat) (k : string) :
  zeroed d ->
  zeroed (dict_set d k (zero_stat k)) /\
  (forall x, In x (dict_keys (dict_set d k (zero_stat k))) <->
             In x (dict_keys d) \/ x = k).
Proof.
  intros [Hnd Hz].
  destruct (in_dec string_dec k (dict_keys d)) as [Hin | Hout].
  - rewrite dict_set_zero_present by assumption. split; [split; auto |].
    intros x. split; [auto | intros [H | ->]; auto].
  - rewrite dict_set_absent by assumption. unfold zeroed, dict_keys.
    rewrite map_app. simpl. split; [split |].
    + apply NoDup_app; [exact Hnd | repeat constructor; auto | ].
      intros x Hx [-> | []]. auto.
    + apply Forall_app. split; auto.
    + intros x. rewrite in_app_iff. simpl. intuition.
Qed.

Lemma member_stats_from_zeroed (ms : list member) :
  forall d,
    zeroed d ->
    zeroed (member_stats_from ms d) /\
    (forall x, In x (dict_keys (member_stats_from ms d)) <->
               In x (dict_keys d) \/ In x (map m_tag ms)) /\
    (NoDup (map m_tag ms) ->
     (forall x, In x (map m_tag ms) -> ~ In x (dict_keys d)) ->
     member_stats_from ms d =
       d ++ map (fun m => (m_tag m, zero_stat (m_tag m))) ms).
Proof.
  induction ms as [| m ms IH]; intros d Hd; simpl.
  - split; [assumption |]. split; [intuition |].
    intros _ _. now rewrite app_nil_r.
  - destruct (zeroed_set (m_tag m) Hd) as [Hd1 Hk1].
    destruct (IH _ Hd1) as (Hz & Hk & Heq).
    split; [assumption |]. split.
    + intros x. rewrite Hk, Hk1. intuition.
    + intros Hnd Hfresh. inversion Hnd as [| ? ? Hm Hnd']; subst.
      rewrite Heq; auto.
      * rewrite dict_set_absent by (apply Hfresh; now left).
        now rewrite <- app_assoc.
      * intros x Hx. rewrite Hk1. intros [H | ->]; auto.
        apply (Hfresh x); auto.
Qed.

Lemma filter_none (A : Type) (f : A -> bool) (l : list A) :
  (forall y, In y l -> f y = false) -> filter f l = [].
Proof.
  induction l as [| x l IH]; simpl; intros H; auto.
  rewrite (H x) by auto. apply IH. auto.
Qed.

Lemma filter_eqb_NoDup (t : string) (l : list string) :
  NoDup l -> In t l ->
  List.length (filter (fun k => String.eqb k t) l) = 1%nat.
Proof.
  induction 1 as [| x l Hx Hnd IH]; simpl; intros Hin; [contradiction |].
  destruct (String.eqb_spec x t) as [E | E].
  - subst. simpl. f_equal.
    rewrite filter_none; auto.
    intros y Hy. destruct (String.eqb_spec y t); congruence.
  - apply IH. destruct Hin; [congruence | assumption].
Qed.

Lemma member_stats_zeroed (ms : list member) :
  roster_zeroed ms (dict_values (member_stats ms)).
Proof.
  unfold member_stats.
  destruct (@member_stats_from_zeroed ms []) as ([Hnd Hz] & Hk & Heq).
  { split; constructor. }
  set (d := member_stats_from ms []) in *.
  assert (Htag : map tag (dict_values d) = dict_keys d).
  { unfold dict_values, dict_keys. rewrite map_map. apply map_ext_in.
    intros p Hp. rewrite Forall_forall in Hz. now rewrite (Hz p Hp). }
  unfold roster_zeroed. repeat split.
  - unfold dict_values. rewrite Forall_map.
    eapply Forall_impl; [| exact Hz]. intros p ->. auto.
  - intros m Hm.
    assert (Hf : forall l,
              List.length (filter (has_tag (m_tag m)) l) =
              List.length
                (filter (fun k => String.eqb k (m_tag m)) (map tag l))).
    { induction l as [| x l IHl]; simpl; auto. unfold has_tag at 1.
      destruct (String.eqb (tag x) (m_tag m)); simpl; auto. }
    rewrite Hf, Htag. apply filter_eqb_NoDup; auto.
    apply Hk. right. now apply in_map.
  - intros s Hs. assert (Hin : In (tag s) (dict_keys d)).
    { rewrite <- Htag. now apply in_map. }
    apply Hk in Hin. destruct Hin as [[] | Hin].
    apply in_map_iff in Hin. destruct Hin as (m & Hm & Hin). eauto.
  - intros Hms. rewrite Heq by auto. simpl.
    unfold dict_values. rewrite map_map. reflexivity.
Qed.

Lemma extract_attacks_none (war : war_data) :
  attack_count war = 0%nat -> extract_attacks war = Ok [].
Proof.
  unfold attack_count. intros H.
  assert (Hc : roster_attacks (clan war) = [])
    by (apply length_zero_iff_nil; lia).
  assert (Ho : roster_attacks (opponent war) = [])
    by (apply length_zero_iff_nil; lia).
  unfold extract_attacks. now rewrite combined_attacks_spec, Hc, Ho.
Qed.

(** ** Malformed records *)

Lemma lacks_mandatory_field_iff (a : raw_attack) :
  lacks_mandatory_field a <-> well_formed a = false.
Proof.
  unfold lacks_mandatory_field, well_formed.
  destruct (raw_attackerTag a), (raw_defenderTag a), (raw_stars a),
    (raw_destructionPercentage a), (raw_order a);
    split; intros H; auto; try discriminate;
    repeat (destruct H as [H | H]; try discriminate).
Qed.

Lemma forallb_false_iff (A : Type) (f : A -> bool) (l : list A) :
  forallb f l = false <-> exists a, In a l /\ f a = false.
Proof.
  induction l as [| x l IH]; simpl.
  - split; [discriminate | intros (a & [] & _)].
  - destruct (f x) eqn:E; simpl.
    + rewrite IH. split.
      * intros (a & Ha & Hf). eauto.
      * intros (a & [-> | Ha] & Hf); [congruence | eauto].
    + split; auto. intros _. exists x. auto.
Qed.

Lemma extract_attacks_Raise (war : war_data) :
  forallb well_formed
    (roster_attacks (clan war) ++ roster_attacks (opponent war)) = false ->
  exists key, extract_attacks war = Raise (KeyError key).
Proof.
  rewrite forallb_app. intros H.
  unfold extract_attacks. rewrite combined_attacks_spec.
  destruct (forallb well_formed (roster_attacks (clan war))) eqn:Ec.
  - simpl in H. destruct (make_attacks_Ok "clan" _ Ec) as (c & ->).
    destruct (make_attacks_Raise "opponent" _ H) as (key & ->).
    simpl. eauto.
  - destruct (make_attacks_Raise "clan" _ Ec) as (key & ->). simpl. eauto.
Qed.

Lemma make_attacks_In (side : string) (l : list raw_attack) xs a :
  make_attacks side l = Ok xs -> In a l ->
  exists x, make_attack side a = Ok x /\ In x xs.
Proof.
  intros H. apply make_attacks_Forall2 in H.
  induction H as [| b x l xs Hx _ IH]; simpl; intros Hin; [contradiction |].
  destruct Hin as [-> | Hin]; [eauto |].
  destruct (IH Hin) as (y & Hy & Hyin). eauto.
Qed.

Lemma make_attack_duration (side : string) (a : raw_attack) (x : attack) :
  make_attack side a = Ok x -> Attack.duration x = get (raw_duration a) 0.
Proof.
  destruct (well_formed a) eqn:E.
  - destruct (make_attack_well_formed side a E)
      as (? & ? & ? & ? & ? & _ & _ & _ & _ & _ & ->).
    intros [= <-]. reflexivity.
  - destruct (make_attack_malformed side a E) as (key & ->). discriminate.
Qed.

(** ** Order of the snapshots *)

Lemma scan_order (team_size : Z) (l : list attack) :
  forall t,
    map (@Snapshot.order _ member_stat) (scan team_size l t) =
      map Attack.order l /\
    map (@Snapshot.last_attack _ member_stat) (scan team_size l t) =
      map Some l.
Proof.
  induction l as [| a l IH]; intros t; simpl; [auto |].
  destruct (IH (tally_attack a t)) as [-> ->]. auto.
Qed.

Lemma StronglySorted_map_order (l : list attack) :
  StronglySorted (fun a b => Attack.order a <= Attack.order b) l ->
  StronglySorted Z.le (map Attack.order l).
Proof.
  induction 1 as [| a l _ IH Hall]; simpl; constructor; auto.
  rewrite Forall_map. exact Hall.
Qed.

Lemma StronglySorted_strict (l : list Z) :
  StronglySorted Z.le l -> NoDup l -> StronglySorted Z.lt l.
Proof.
  induction 1 as [| x l _ IH Hall]; intros Hnd; constructor.
  - apply IH. now inversion Hnd.
  - inversion Hnd as [| ? ? Hx _]; subst.
    rewrite Forall_forall in *. intros y Hy.
    specialize (Hall y Hy). assert (x <> y) by congruence. lia.
Qed.

(** ** Unknown identifiers *)

Lemma dict_adjust_keys (V : Type) (f : V -> V) (d : dict V) (k : string) :
  dict_keys (dict_adjust f d k) = dict_keys d.
Proof.
  induction d as [| [k' v] d IH]; simpl; auto.
  destruct (String.eqb k' k); simpl; congruence.
Qed.

Lemma dict_adjust_unknown (V : Type) (f : V -> V) (d : dict V) (k : string) :
  ~ In k (dict_keys d) -> dict_adjust f d k = d.
Proof.
  induction d as [| [k' v] d IH]; simpl; intros H; auto.
  destruct (String.eqb_spec k' k) as [E | E].
  - exfalso. apply H. now left.
  - f_equal. apply IH. intros Hin. apply H. now right.
Qed.

Lemma tally_attack_keys (a : attack) (t : tally) :
  dict_keys (t_clan_members_stats (tally_attack a t)) =
    dict_keys (t_clan_members_stats t) /\
  dict_keys (t_opponent_members_stats (tally_attack a t)) =
    dict_keys (t_opponent_members_stats t).
Proof.
  unfold tally_attack. destruct (is_clan a); simpl;
    now rewrite !dict_adjust_keys.
Qed.

Lemma tally_after_keys (l : list attack) (t : tally) :
  dict_keys (t_clan_members_stats (tally_after t l)) =
    dict_keys (t_clan_members_stats t) /\
  dict_keys (t_opponent_members_stats (tally_after t l)) =
    dict_keys (t_opponent_members_stats t).
Proof.
  induction l as [| a l IH] using rev_ind; [auto |].
  rewrite tally_after_snoc.
  destruct (tally_attack_keys a (tally_after t l)) as [-> ->]. exact IH.
Qed.

Lemma member_stats_keys (ms : list member) (k : string) :
  In k (dict_keys (member_stats ms)) -> In k (map m_tag ms).
Proof.
  unfold member_stats.
  destruct (@member_stats_from_zeroed ms []) as (_ & Hk & _).
  { split; constructor. }
  intros H. apply Hk in H. destruct H as [[] | H]. exact H.
Qed.

Lemma timeline_shows (war : war_data) (l : list attack) (n : nat) s :
  nth_error (initial_snapshot war
               :: scan (teamSize war) l (initial_tally war)) n = Some s ->
  shows s (tally_after (initial_tally war) (firstn n l)).
Proof.
  destruct n as [| n]; simpl.
  - intros [= <-]. unfold shows; simpl. repeat split.
  - intros H. apply scan_nth_inv in H. destruct H as (a & Ha & ->).
    unfold shows; simpl. repeat split.
Qed.

(** ** Last attacks, wars with the same attacks, the other side *)

Lemma read_timeline_last_attack (r : list (snapshot loc) * heap) :
  map (@Snapshot.last_attack _ member_stat) (read_timeline r) =
  map (@Snapshot.last_attack _ loc) (fst r).
Proof.
  unfold read_timeline. rewrite map_map. apply map_ext. reflexivity.
Qed.

Lemma same_attacks_extract (war war' : war_data) :
  same_attacks war war' -> extract_attacks war' = extract_attacks war.
Proof.
  intros (_ & Hc & Ho). unfold extract_attacks.
  now rewrite !combined_attacks_spec, Hc, Ho.
Qed.

Lemma same_attacks_Raise (war war' : war_data) (l : list attack) (e : error) :
  same_attacks war war' ->
  timeline_on_values war l = Raise e <-> timeline_on_values war' l = Raise e.
Proof.
  intros (Hts & _). rewrite !timeline_on_values_Raise, Hts. reflexivity.
Qed.

End Facts.

(** ** The order laws on rationals *)

Lemma exact_order : FloatOrder exact.
Proof.
  constructor;
    cbn [exact pyfloat float_zero float_hundred float_of_int float_add
         float_truediv float_mul float_le].
  - intros x y z H1 H2. apply Qle_bool_iff in H1, H2. apply Qle_bool_iff.
    eapply Qle_trans; eauto.
  - intros x y _. apply Qle_bool_iff, Qle_refl.
  - intros z _. discriminate.
  - intros z z' x x' [_ Hz] [= <-] [= <-]. apply Qle_bool_iff.
    now rewrite <- Zle_Qle.
  - intros x y Hx Hy. apply Qle_bool_iff in Hx, Hy. apply Qle_bool_iff.
    rewrite <- (Qplus_0_r x) at 1.
    apply Qplus_le_compat; [apply Qle_refl | exact Hy].
  - intros k x y b b' Hk _ Hb Hb' _ _ Hx Hy.
    assert (Eb : b = inject_Z (100 * k)) by congruence.
    assert (Eb' : b' = inject_Z (100 * (k + 1))) by congruence.
    subst b b'. clear Hb Hb'.
    apply Qle_bool_iff in Hx, Hy. apply Qle_bool_iff.
    replace (100 * (k + 1)) with (100 * k + 100) by lia.
    rewrite inject_Z_plus. now apply Qplus_le_compat.
  - intros z d x y Hz [= <-] _ Hxy. apply Qle_bool_iff in Hxy.
    apply Qle_bool_iff. unfold Qdiv. apply Qmult_le_compat_r; auto.
    apply Qinv_le_0_compat. change 0%Q with (inject_Z 0).
    rewrite <- Zle_Qle. lia.
  - intros z d x Hz [= <-] Hx. apply Qle_bool_iff in Hx.
    apply Qle_bool_iff. unfold Qdiv. apply Qmult_le_0_compat; auto.
    apply Qinv_le_0_compat. change 0%Q with (inject_Z 0).
    rewrite <- Zle_Qle. lia.
  - intros x y _ Hxy. apply Qle_bool_iff in Hxy. apply Qle_bool_iff.
    apply Qmult_le_compat_r; [exact Hxy | discriminate].
  - intros x Hx. apply Qle_bool_iff in Hx. apply Qle_bool_iff.
    apply Qmult_le_0_compat; [exact Hx | discriminate].
  - intros z d x Hz [= <-] _ Hx. apply Qle_bool_iff in Hx.
    apply Qle_bool_iff.
    setoid_replace 100%Q with (1 * 100)%Q at 2 by reflexivity.
    apply Qmult_le_compat_r; [| discriminate].
    apply Qle_shift_div_r.
    + change 0%Q with (inject_Z 0). rewrite <- Zlt_Qlt. lia.
    + now rewrite Qmult_1_l.
Qed.

(** * The claims *)

(** C1, as amended.  Whenever [compute_timeline] returns, the timeline it
    returns has one snapshot more than the two rosters have attacks: a first
    one without a last attack, followed by one for each attack that
    [extract_attacks] returned.  It returns exactly when the extraction
    returns and either there is no attack, or the team size is not zero and
    [team_size * 100] and every destruction percentage have a float. *)
Theorem C1_snapshot_count {F : PyFloat} (war : war_data) (h : heap) :
  (forall r,
     compute_timeline war h = Ok r ->
     List.length (fst r) = S (attack_count war) /\
     exists all_attacks,
       extract_attacks war = Ok all_attacks /\
       List.length all_attacks = attack_count war /\
       map (@Snapshot.last_attack _ loc) (fst r)
         = None :: map Some all_attacks) /\
  ((exists r, compute_timeline war h = Ok r) <->
   exists all_attacks,
     extract_attacks war = Ok all_attacks /\
     (all_attacks = [] \/
      (all_convertible all_attacks = true /\
       convertible (Int (teamSize war * 100)) = true /\
       teamSize war <> 0))).
Proof.
  split.
  - intros r Hr. pose proof (compute_timeline_read _ _ Hr) as Ht.
    destruct (timeline_Ok_inv _ _ Ht) as (l & He & _ & Htl).
    split.
    + rewrite <- read_timeline_length, Htl. simpl.
      now rewrite scan_length, (extract_attacks_length _ He).
    + exists l. split; [exact He |].
      split; [now apply extract_attacks_length |].
      rewrite <- read_timeline_last_attack, Htl. simpl.
      now rewrite (proj2 (scan_order _ _ _)).
  - split.
    + intros (r & Hr). pose proof (compute_timeline_read _ _ Hr) as Ht.
      destruct (timeline_Ok_inv _ _ Ht) as (l & He & Hruns & _).
      exists l. split; assumption.
    + intros (l & He & Hruns).
      pose proof (timeline_Ok_intro war h He Hruns) as Ht.
      destruct (timeline_compute _ _ Ht) as (r & Hr & _).
      exists r. exact Hr.
Qed.

Lemma C1_witness :
  exists r, compute_timeline (F := binary64) war_scenario_B [] = Ok r /\
            List.length (fst r) = 3%nat.
Proof.
  assert (Hx : exists r,
            compute_timeline (F := binary64) war_scenario_B [] = Ok r)
    by (eexists; vm_compute; reflexivity).
  destruct Hx as (r & Hr). exists r. split; [exact Hr |].
  exact (proj1 (proj1 (@C1_snapshot_count binary64 war_scenario_B []) r Hr)).
Defined.

(** C1 as stated fails: this war has one attack, and [compute_timeline]
    raises instead of returning two snapshots. *)
Lemma C1_counterexample :
  attack_count (F := binary64) war_zero_team = 1%nat /\
  compute_timeline (F := binary64) war_zero_team [] = Raise ZeroDivisionError /\
  ~ (exists r, compute_timeline (F := binary64) war_zero_team [] = Ok r /\
               List.length (fst r) = 2%nat).
Proof.
  split; [reflexivity |]. split; [vm_compute; reflexivity |].
  intros (r & Hr & _). vm_compute in Hr. discriminate.
Qed.

(** C2, as amended.  [extract_attacks] returns the clan attacks followed by
    the opponent attacks, sorted by order in ascending order, attacks of
    equal order staying in their input order (clan before opponent); the
    snapshots after the initial one carry these orders and these attacks, in
    the same sequence, so in ascending order, and in strictly ascending order
    when no two attacks share an order. *)
Theorem C2_order_fidelity {F : PyFloat} (war : war_data)
    (all_attacks : list attack) :
  extract_attacks war = Ok all_attacks ->
  exists c o,
    make_attacks "clan" (roster_attacks (clan war)) = Ok c /\
    make_attacks "opponent" (roster_attacks (opponent war)) = Ok o /\
    Forall (fun a => Attack.attackerClan a = "clan") c /\
    Forall (fun a => Attack.attackerClan a = "opponent") o /\
    Permutation (c ++ o) all_attacks /\
    StronglySorted (fun a b => Attack.order a <= Attack.order b)
      all_attacks /\
    (forall k,
       filter (fun a => Attack.order a =? k) all_attacks =
       filter (fun a => Attack.order a =? k) c ++
       filter (fun a => Attack.order a =? k) o) /\
    (forall h tl,
       timeline war h = Ok tl ->
       map (@Snapshot.order _ member_stat) tl =
         0 :: map Attack.order all_attacks /\
       map (@Snapshot.last_attack _ member_stat) tl =
         None :: map Some all_attacks /\
       StronglySorted Z.le
         (map (@Snapshot.order _ member_stat) (List.tl tl)) /\
       (NoDup (map Attack.order all_attacks) ->
        StronglySorted Z.lt
          (map (@Snapshot.order _ member_stat) (List.tl tl)))).
Proof.
  intros He. destruct (extract_attacks_inv war He) as (c & o & Hc & Ho & E).
  exists c, o. subst all_attacks.
  pose proof (sorted_sorted Attack.order (c ++ o)) as Hs.
  repeat split; auto.
  - eapply make_attacks_side; eauto.
  - eapply make_attacks_side; eauto.
  - apply sorted_perm.
  - intros k. now rewrite sorted_stable, filter_app.
  - destruct (timeline_Ok_inv _ _ H) as (l & He' & _ & ->).
    rewrite He in He'. injection He' as <-. simpl.
    now rewrite (proj1 (scan_order _ _ _)).
  - destruct (timeline_Ok_inv _ _ H) as (l & He' & _ & ->).
    rewrite He in He'. injection He' as <-. simpl.
    now rewrite (proj2 (scan_order _ _ _)).
  - destruct (timeline_Ok_inv _ _ H) as (l & He' & _ & ->).
    rewrite He in He'. injection He' as <-. simpl.
    rewrite (proj1 (scan_order _ _ _)).
    now apply StronglySorted_map_order.
  - destruct (timeline_Ok_inv _ _ H) as (l & He' & _ & ->).
    rewrite He in He'. injection He' as <-. simpl. intros Hnd.
    rewrite (proj1 (scan_order _ _ _)).
    apply StronglySorted_strict; auto.
    now apply StronglySorted_map_order.
Qed.

Lemma C2_witness :
  exists c o,
    make_attacks (F := binary64) "clan" (roster_attacks (clan war_tie))
      = Ok c /\
    make_attacks (F := binary64) "opponent"
      (roster_attacks (opponent war_tie)) = Ok o /\
    forall h tl,
      timeline (F := binary64) war_tie h = Ok tl ->
      map (@Snapshot.order _ member_stat) tl = [0; 1; 1].
Proof.
  destruct (@C2_order_fidelity binary64 war_tie _ eq_refl)
    as (c & o & Hc & Ho & _ & _ & _ & _ & _ & Ht).
  exists c, o. repeat split; auto.
  intros h tl Htl. destruct (Ht h tl Htl) as (Hord & _). exact Hord.
Defined.

(** C2 as stated fails: the two attacks of this war both carry order 1, and
    the orders of the snapshots after the initial one, 1 and 1, are not in
    strictly ascending order. *)
Lemma C2_counterexample :
  exists tl,
    timeline (F := binary64) war_tie [] = Ok tl /\
    map (@Snapshot.order _ member_stat) (List.tl tl) = [1; 1] /\
    ~ StronglySorted Z.lt (map (@Snapshot.order _ member_stat) (List.tl tl)).
Proof.
  eexists. split; [vm_compute; reflexivity |]. split; [reflexivity |].
  simpl. intros H. inversion H as [| ? ? _ Hall]; subst.
  inversion Hall as [| ? ? Hlt _]; subst. lia.
Qed.

(** C3.  In a returned timeline the snapshot appended after the attack of
    index [n] carries, for each side, that side's raw destruction-percentage
    sum over the attacks folded so far, divided by the float of
    [team_size * 100] and multiplied by the float of 100, all three in float
    arithmetic; there is such a snapshot only if the team size is not zero.
    On Python's floats, the snapshot after the second attack of scenario B
    shows 50.0 for the attacking side. *)
Theorem C3_destruction_formula :
  (forall (F : PyFloat) (war : war_data) (h : heap)
          (all_attacks : list attack) (tl : list (snapshot member_stat)),
     extract_attacks war = Ok all_attacks ->
     timeline war h = Ok tl ->
     List.length tl = S (List.length all_attacks) /\
     forall n s,
       nth_error tl (S n) = Some s ->
       teamSize war <> 0 /\
       exists sum_clan sum_opponent d,
         destruction_sum true (firstn (S n) all_attacks) = Ok sum_clan /\
         destruction_sum false (firstn (S n) all_attacks) = Ok sum_opponent /\
         float_of_int (teamSize war * 100) = Some d /\
         Snapshot.clan_destruction s =
           float_mul (float_truediv sum_clan d) float_hundred /\
         Snapshot.opponent_destruction s =
           float_mul (float_truediv sum_opponent d) float_hundred) /\
  (exists tl s,
     timeline (F := binary64) war_scenario_B [] = Ok tl /\
     nth_error tl 2 = Some s /\
     Some (Snapshot.clan_destruction s) = float_of_int 50).
Proof.
  split.
  - intros F war h l tl He Ht.
    destruct (timeline_Ok_inv _ _ Ht) as (l' & He' & Hruns & ->).
    rewrite He in He'. injection He' as <-.
    split; [simpl; now rewrite scan_length |].
    intros n s Hs. simpl in Hs.
    apply scan_nth_inv in Hs. destruct Hs as (a & Ha & ->).
    destruct Hruns as [-> | (Hl & Hd & Hnz)]; [destruct n; discriminate |].
    split; [exact Hnz |].
    pose proof (all_convertible_firstn (S n) _ Hl) as Hpre.
    exists (side_sum true (tally_after (initial_tally war) (firstn (S n) l))),
      (side_sum false (tally_after (initial_tally war) (firstn (S n) l))),
      (divisor (teamSize war)).
    repeat split.
    + now apply destruction_sum_tally.
    + now apply destruction_sum_tally.
    + now apply divisor_spec.
  - eexists. eexists. split; [vm_compute; reflexivity |].
    split; [reflexivity |]. vm_compute. reflexivity.
Qed.

Lemma C3_witness :
  exists tl,
    timeline (F := binary64) war_scenario_B [] = Ok tl /\
    List.length tl = 3%nat /\
    forall n s,
      nth_error tl (S n) = Some s ->
      exists sum_clan d,
        destruction_sum true (firstn (S n) attacks_scenario_B)
          = Ok sum_clan /\
        float_of_int 200 = Some d /\
        Snapshot.clan_destruction s =
          float_mul (float_truediv sum_clan d) float_hundred.
Proof.
  assert (Hx : exists tl, timeline (F := binary64) war_scenario_B [] = Ok tl)
    by (eexists; vm_compute; reflexivity).
  destruct Hx as (tl & Ht).
  assert (He : extract_attacks (F := binary64) war_scenario_B
               = Ok attacks_scenario_B) by (vm_compute; reflexivity).
  destruct (proj1 C3_destruction_formula binary64 war_scenario_B []
              attacks_scenario_B tl He Ht) as (Hlen & Hsnap).
  exists tl. split; [exact Ht |]. split; [exact Hlen |].
  intros n s Hs.
  destruct (Hsnap n s Hs) as (_ & sc & so & d & Hc & _ & Hd & Hcd & _).
  exists sc, d. repeat split; assumption.
Defined.

(** The percentage is a float: 7 percent on a team of one is shown as
    7.000000000000001, the float next above 7. *)
Example seven_percent_is_rounded :
  exists tl s,
    timeline (F := binary64) war_seven [] = Ok tl /\
    nth_error tl 1 = Some s /\
    Snapshot.clan_destruction s = S754_finite false 7881299347898369 (-50) /\
    float_of_int (PyFloat := binary64) 7
      = Some (S754_finite false 7881299347898368 (-50)).
Proof.
  eexists. eexists. split; [vm_compute; reflexivity |].
  split; [reflexivity |]. split; reflexivity.
Qed.



(** C5.  [extract_attacks] raises exactly when some raw attack record of
    either roster lacks attackerTag, defenderTag, stars,
    destructionPercentage or order; what it raises is a KeyError, and
    [compute_timeline] raises it too, so no timeline is returned.  When it
    returns, every raw record has its attack in the list, with the record's
    duration, or 0 when the record has none. *)
Theorem C5_malformed_attack {F : PyFloat} (war : war_data) :
  ((exists e, extract_attacks war = Raise e) <->
   (exists a,
      In a (roster_attacks (clan war) ++ roster_attacks (opponent war)) /\
      lacks_mandatory_field a)) /\
  (forall e,
     extract_attacks war = Raise e ->
     (exists key, e = KeyError key) /\
     (forall h, compute_timeline war h = Raise e)) /\
  (forall all_attacks,
     extract_attacks war = Ok all_attacks ->
     forall side a,
       (side = "clan" /\ In a (roster_attacks (clan war))) \/
       (side = "opponent" /\ In a (roster_attacks (opponent war))) ->
       exists x,
         make_attack side a = Ok x /\
         In x all_attacks /\
         Attack.duration x = get (raw_duration a) 0 /\
         (raw_duration a = None -> Attack.duration x = 0)).
Proof.
  set (raws := roster_attacks (clan war) ++ roster_attacks (opponent war)).
  assert (Hcase : forall e, extract_attacks war = Raise e ->
            forallb well_formed raws = false).
  { intros e He. destruct (forallb well_formed raws) eqn:E; auto.
    destruct (extract_attacks_Ok war E) as (l & Hl). congruence. }
  split; [| split].
  - split.
    + intros (e & He). apply Hcase, forallb_false_iff in He.
      destruct He as (a & Ha & Hf). exists a. split; auto.
      now apply lacks_mandatory_field_iff.
    + intros (a & Ha & Hf). apply lacks_mandatory_field_iff in Hf.
      destruct (extract_attacks_Raise war) as (key & Hk); [| eauto].
      apply forallb_false_iff. eauto.
  - intros e He. pose proof (Hcase e He) as Hf.
    destruct (extract_attacks_Raise war Hf) as (key & Hk).
    split; [exists key; congruence |].
    intros h. unfold compute_timeline. now rewrite He.
  - intros l He side a Hin.
    destruct (extract_attacks_inv war He) as (c & o & Hc & Ho & ->).
    assert (Hx : exists x, make_attack side a = Ok x /\ In x (c ++ o)).
    { destruct Hin as [[-> Hin] | [-> Hin]].
      - destruct (@make_attacks_In _ _ _ _ _ Hc Hin) as (x & Hx & Hxin).
        exists x. split; auto. apply in_or_app. auto.
      - destruct (@make_attacks_In _ _ _ _ _ Ho Hin) as (x & Hx & Hxin).
        exists x. split; auto. apply in_or_app. auto. }
    destruct Hx as (x & Hx & Hxin). exists x.
    pose proof (make_attack_duration _ _ Hx) as Hd.
    repeat split; auto.
    + eapply Permutation_in; [apply sorted_perm | exact Hxin].
    + intros Hn. now rewrite Hd, Hn.
Qed.

Lemma C5_witness :
  exists key,
    KeyError "stars" = KeyError key /\
    compute_timeline (F := binary64) war_malformed []
      = Raise (KeyError "stars").
Proof.
  destruct (proj1 (proj2 (@C5_malformed_attack binary64 war_malformed))
              (KeyError "stars") eq_refl) as ((key & Hk) & Hc).
  exists key. split; [exact Hk | apply Hc].
Defined.






(** C8.  The first snapshot of a returned timeline has order 0, all six
    totals zero, no last attack, and for each roster exactly one all-zero
    MemberStat per member tag; a war without attacks returns a timeline that
    consists of this initial snapshot. *)
Theorem C8_initial_snapshot {F : PyFloat} (war : war_data) (h : heap) :
  (forall tl,
     timeline war h = Ok tl ->
     exists s0 rest,
       tl = s0 :: rest /\
       Snapshot.order s0 = 0 /\
       Snapshot.clan_stars s0 = 0 /\
       Snapshot.clan_destruction s0 = float_zero /\
       Snapshot.clan_attacks_used s0 = 0 /\
       Snapshot.opponent_stars s0 = 0 /\
       Snapshot.opponent_destruction s0 = float_zero /\
       Snapshot.opponent_attacks_used s0 = 0 /\
       Snapshot.last_attack s0 = None /\
       roster_zeroed (members (clan war)) (Snapshot.clan_members s0) /\
       roster_zeroed (members (opponent war)) (Snapshot.opponent_members s0) /\
       (attack_count war = 0%nat -> rest = [])) /\
  (attack_count war = 0%nat -> exists s0, timeline war h = Ok [s0]).
Proof.
  split.
  - intros tl Ht. destruct (timeline_Ok_inv _ _ Ht) as (l & He & _ & ->).
    eexists. eexists. split; [reflexivity |]. simpl.
    repeat match goal with |- _ /\ _ => split end; auto;
      try apply member_stats_zeroed.
    intros Hk. rewrite (extract_attacks_none _ Hk) in He.
    injection He as <-. reflexivity.
  - intros Hk. eexists.
    apply (timeline_Ok_intro war h (extract_attacks_none _ Hk)). now left.
Qed.

Lemma C8_witness :
  exists s0, timeline (F := binary64) war_scenario_C [] = Ok [s0].
Proof.
  apply (proj2 (@C8_initial_snapshot binary64 war_scenario_C [])).
  reflexivity.
Defined.

(** C9.  Snapshot [N] of the final timeline, read in the heap
    [compute_timeline] ends with, is snapshot [N] of the timeline built from
    the first [N] attacks only, read in the heap that run ends with; the same
    holds of all the snapshots before it.  Folding further attacks changes
    nothing in a snapshot already appended. *)
Theorem C9_snapshots_immune {F : PyFloat} (war : war_data) (h : heap)
    (all_attacks : list attack) (tl : list (snapshot member_stat)) (N : nat) :
  extract_attacks war = Ok all_attacks ->
  timeline war h = Ok tl ->
  (N <= List.length all_attacks)%nat ->
  exists tlN s,
    read_timeline_from war (firstn N all_attacks) h = Ok tlN /\
    List.length tlN = S N /\
    nth_error tl N = Some s /\
    nth_error tlN N = Some s /\
    tlN = firstn (S N) tl.
Proof.
  intros He Ht HN.
  destruct (timeline_Ok_inv _ _ Ht) as (l & He' & Hz & ->).
  rewrite He in He'. injection He' as <-.
  rewrite timeline_on_values_correct.
  set (ts := teamSize war). set (t0 := initial_tally war).
  assert (Hrun : timeline_on_values war (firstn N all_attacks) =
                 Ok (firstn (S N) (initial_snapshot war
                                     :: scan ts all_attacks t0))).
  { rewrite firstn_cons, <- scan_firstn.
    apply timeline_on_values_Ok. now apply runs_firstn. }
  assert (Hlen : List.length (firstn (S N) (initial_snapshot war
                                :: scan ts all_attacks t0)) = S N).
  { rewrite length_firstn. simpl. rewrite scan_length. lia. }
  destruct (nth_error (initial_snapshot war :: scan ts all_attacks t0) N)
    as [s |] eqn:E.
  - eexists; exists s. repeat split; eauto.
    rewrite nth_error_firstn.
    destruct (Nat.ltb_spec N (S N)); [exact E | lia].
  - apply nth_error_None in E. simpl in E. rewrite scan_length in E. lia.
Qed.

Lemma C9_witness :
  exists tl tlN s,
    timeline (F := binary64) war_scenario_B [] = Ok tl /\
    read_timeline_from war_scenario_B (firstn 1 attacks_scenario_B) []
      = Ok tlN /\
    nth_error tl 1 = Some s /\
    nth_error tlN 1 = Some s.
Proof.
  assert (He : extract_attacks (F := binary64) war_scenario_B
               = Ok attacks_scenario_B)
    by (vm_compute; reflexivity).
  assert (Ht : exists tl, timeline (F := binary64) war_scenario_B [] = Ok tl)
    by (eexists; vm_compute; reflexivity).
  destruct Ht as (tl & Ht).
  destruct (@C9_snapshots_immune binary64 war_scenario_B []
              attacks_scenario_B tl 1%nat He Ht)
    as (tlN & s & H1 & H2 & H3 & H4 & H5).
  - simpl. lia.
  - exists tl, tlN, s. repeat split; assumption.
Defined.

(** C10, as amended.  With a team size of zero: an empty combined attack
    list gives the single initial snapshot, no division being evaluated;
    a combined attack list with at least one attack makes [compute_timeline]
    raise in its first iteration, ZeroDivisionError when the destruction
    percentage of the first attack has a float, and OverflowError, at the
    addition that precedes the division, when it is an int that has none. *)
Theorem C10_zero_team_size {F : PyFloat} (war : war_data) (h : heap)
    (all_attacks : list attack) :
  teamSize war = 0 ->
  extract_attacks war = Ok all_attacks ->
  (all_attacks = [] ->
     timeline war h = Ok [initial_snapshot war] /\
     exists s h', compute_timeline war h = Ok ([s], h')) /\
  (forall a l,
     all_attacks = a :: l ->
     (convertible (Attack.destructionPercentage a) = true ->
      compute_timeline war h = Raise ZeroDivisionError) /\
     (convertible (Attack.destructionPercentage a) = false ->
      compute_timeline war h = Raise OverflowError)).
Proof.
  intros Hz He. split.
  - intros ->.
    pose proof (timeline_Ok_intro war h He (or_introl eq_refl)) as Ht.
    simpl in Ht. split; auto.
    destruct (timeline_compute _ _ Ht) as ([tl h'] & Hr & Hread).
    unfold read_timeline in Hread; simpl in Hread.
    destruct tl as [| s [| s' tl]]; try discriminate.
    exists s, h'. exact Hr.
  - intros a l ->. split; intros Hc; apply compute_timeline_Raise; right;
      exists (a :: l); (split; [exact He |]);
      apply timeline_on_values_Raise; exists a, l; (split; [reflexivity |]).
    + right. auto.
    + left. auto.
Qed.

Lemma C10_witness :
  compute_timeline (F := binary64) war_zero_team [] = Raise ZeroDivisionError.
Proof.
  refine (proj1 (proj2 (@C10_zero_team_size binary64 war_zero_team []
                   [ {| Attack.attackerClan := "clan";
                        Attack.attackerTag := "#a";
                        Attack.defenderTag := "#x";
                        Attack.stars := 3;
                        Attack.destructionPercentage := Int 100;
                        Attack.order := 1;
                        Attack.duration := 0 |} ] _ _) _ _ eq_refl) _).
  - reflexivity.
  - reflexivity.
  - reflexivity.
Defined.

(** C10 as stated fails: this war has a team size of zero and one attack,
    whose destruction percentage is the int [10^400]; on Python's floats
    [compute_timeline] raises OverflowError, not ZeroDivisionError. *)
Lemma C10_counterexample :
  teamSize (war_zero_team_huge (F := binary64)) = 0 /\
  (exists a, extract_attacks (F := binary64) war_zero_team_huge = Ok [a]) /\
  compute_timeline (F := binary64) war_zero_team_huge []
    = Raise OverflowError /\
  compute_timeline (F := binary64) war_zero_team_huge []
    <> Raise ZeroDivisionError.
Proof.
  assert (Hrun : compute_timeline (F := binary64) war_zero_team_huge []
                 = Raise OverflowError) by (vm_compute; reflexivity).
  split; [reflexivity |]. split; [eexists; vm_compute; reflexivity |].
  split; [exact Hrun |]. rewrite Hrun. discriminate.
Qed.

(** * Further properties *)

(** ** Running totals *)

Section TotalsFacts.
Context {F : PyFloat}.

Lemma stars_sum_snoc (b : bool) (l : list attack) (a : attack) :
  stars_sum b (l ++ [a]) =
    if Bool.eqb (is_clan a) b then stars_sum b l + Attack.stars a
    else stars_sum b l.
Proof. unfold stars_sum. now rewrite fold_left_app. Qed.

Lemma tally_after_totals (war : war_data) (l : list attack) :
  let t := tally_after (initial_tally war) l in
  t_clan_attacks_used t = Z.of_nat (side_count true l) /\
  t_opponent_attacks_used t = Z.of_nat (side_count false l) /\
  t_clan_stars t = stars_sum true l /\
  t_opponent_stars t = stars_sum false l.
Proof.
  induction l as [| a l IH] using rev_ind.
  - simpl. repeat split.
  - simpl in *. rewrite tally_after_snoc, !side_count_snoc, !stars_sum_snoc.
    destruct IH as (I1 & I2 & I3 & I4). unfold tally_attack.
    destruct (is_clan a); simpl; rewrite ?I1, ?I2, ?I3, ?I4;
      repeat split; lia.
Qed.

Lemma side_count_total (l : list attack) :
  (side_count true l + side_count false l)%nat = List.length l.
Proof.
  unfold side_count. induction l as [| a l IH]; simpl; auto.
  destruct (is_clan a); simpl; lia.
Qed.

Lemma timeline_nth_shows (war : war_data) (h : heap)
    (all_attacks : list attack) tl n s :
  extract_attacks war = Ok all_attacks ->
  timeline war h = Ok tl ->
  nth_error tl n = Some s ->
  (n <= List.length all_attacks)%nat /\
  shows s (tally_after (initial_tally war) (firstn n all_attacks)).
Proof.
  intros He Ht Hn.
  destruct (timeline_Ok_inv _ _ Ht) as (l & He' & _ & ->).
  rewrite He in He'. injection He' as <-. split.
  - assert (Hlt : (n < List.length
                      (initial_snapshot war
                         :: scan (teamSize war) all_attacks
                              (initial_tally war)))%nat)
      by (apply nth_error_Some; congruence).
    simpl in Hlt. rewrite scan_length in Hlt. lia.
  - now apply timeline_shows.
Qed.

End TotalsFacts.

(** X1.  In the snapshot of index [n] each side's attacks-used counter is
    the number of that side's attacks among the first [n] merged attacks, and
    the two counters add up to [n]. *)
Theorem X1_attacks_used_count {F : PyFloat} (war : war_data) (h : heap)
    (all_attacks : list attack) (tl : list (snapshot member_stat))
    (n : nat) (s : snapshot member_stat) :
  extract_attacks war = Ok all_attacks ->
  timeline war h = Ok tl ->
  nth_error tl n = Some s ->
  Snapshot.clan_attacks_used s
    = Z.of_nat (side_count true (firstn n all_attacks)) /\
  Snapshot.opponent_attacks_used s
    = Z.of_nat (side_count false (firstn n all_attacks)) /\
  Snapshot.clan_attacks_used s + Snapshot.opponent_attacks_used s
    = Z.of_nat n.
Proof.
  intros He Ht Hn.
  destruct (@timeline_nth_shows _ war h all_attacks tl n s He Ht Hn)
    as (Hle & S1 & S2 & S3 & S4 & _).
  destruct (tally_after_totals war (firstn n all_attacks))
    as (T1 & T2 & _ & _).
  rewrite S2, S4, T1, T2.
  pose proof (side_count_total (firstn n all_attacks)) as Htot.
  rewrite length_firstn in Htot. repeat split; lia.
Qed.

Lemma X1_witness :
  exists tl s,
    timeline (F := binary64) war_scenario_B [] = Ok tl /\
    nth_error tl 2 = Some s /\
    Snapshot.clan_attacks_used s + Snapshot.opponent_attacks_used s = 2.
Proof.
  assert (Ht : exists tl, timeline (F := binary64) war_scenario_B [] = Ok tl)
    by (eexists; vm_compute; reflexivity).
  destruct Ht as (tl & Ht).
  assert (Hs : exists s, nth_error tl 2 = Some s).
  { vm_compute in Ht. injection Ht as <-. eexists. reflexivity. }
  destruct Hs as (s & Hs).
  assert (He : extract_attacks (F := binary64) war_scenario_B = Ok attacks_scenario_B)
    by (vm_compute; reflexivity).
  exists tl, s. repeat split; auto.
  exact (proj2 (proj2 (@X1_attacks_used_count binary64 war_scenario_B [] _ _ 2%nat _ He Ht Hs))).
Defined.

(** X2.  In the snapshot of index [n] each side's stars are the sum of the
    stars of that side's attacks among the first [n] merged attacks. *)
Theorem X2_stars_sum {F : PyFloat} (war : war_data) (h : heap)
    (all_attacks : list attack) (tl : list (snapshot member_stat))
    (n : nat) (s : snapshot member_stat) :
  extract_attacks war = Ok all_attacks ->
  timeline war h = Ok tl ->
  nth_error tl n = Some s ->
  Snapshot.clan_stars s = stars_sum true (firstn n all_attacks) /\
  Snapshot.opponent_stars s = stars_sum false (firstn n all_attacks).
Proof.
  intros He Ht Hn.
  destruct (@timeline_nth_shows _ war h all_attacks tl n s He Ht Hn)
    as (_ & S1 & S2 & S3 & S4 & _).
  destruct (tally_after_totals war (firstn n all_attacks))
    as (_ & _ & T3 & T4).
  now rewrite S1, S3, T3, T4.
Qed.

Lemma X2_witness :
  exists tl s,
    timeline (F := binary64) war_scenario_B [] = Ok tl /\
    nth_error tl 2 = Some s /\
    Snapshot.clan_stars s = 3.
Proof.
  assert (Ht : exists tl, timeline (F := binary64) war_scenario_B [] = Ok tl)
    by (eexists; vm_compute; reflexivity).
  destruct Ht as (tl & Ht).
  assert (Hs : exists s, nth_error tl 2 = Some s).
  { vm_compute in Ht. injection Ht as <-. eexists. reflexivity. }
  destruct Hs as (s & Hs).
  assert (He : extract_attacks (F := binary64) war_scenario_B = Ok attacks_scenario_B)
    by (vm_compute; reflexivity).
  exists tl, s. repeat split; auto.
  exact (proj1 (@X2_stars_sum binary64 war_scenario_B [] _ _ 2%nat _ He Ht Hs)).
Defined.

(** ** Per-member counters *)

Section CountersFacts.
Context {F : PyFloat}.

Lemma side_dict_tally_attack (b : bool) (a : attack) (t : tally) :
  side_dict b (tally_attack a t) =
    if Bool.eqb (is_clan a) b
    then dict_adjust add_attack_used (side_dict b t) (Attack.attackerTag a)
    else dict_adjust add_defense_used (side_dict b t) (Attack.defenderTag a).
Proof.
  unfold side_dict, tally_attack. destruct (is_clan a), b; reflexivity.
Qed.

Lemma shows_side_members (b : bool) (s : snapshot member_stat) (t : tally) :
  shows s t -> side_members b s = dict_values (side_dict b t).
Proof.
  intros (_ & _ & _ & _ & Hc & Ho). unfold side_members, side_dict.
  destruct b; assumption.
Qed.

Lemma shows_side_attacks_used (b : bool) (s : snapshot member_stat)
    (t : tally) :
  shows s t ->
  side_attacks_used b s =
    if b then t_clan_attacks_used t else t_opponent_attacks_used t.
Proof.
  intros (_ & H2 & _ & H4 & _). unfold side_attacks_used.
  destruct b; assumption.
Qed.

Lemma dict_adjust_Forall (V : Type) (f : V -> V) (P Q : string * V -> Prop)
    (k0 : string) :
  (forall k v, P (k, v) -> k <> k0 -> Q (k, v)) ->
  (forall v, P (k0, v) -> Q (k0, f v)) ->
  forall d : dict V,
    NoDup (dict_keys d) -> Forall P d -> Forall Q (dict_adjust f d k0).
Proof.
  intros Hne Heq. induction d as [| [k v] d IH]; simpl; intros Hnd HP.
  - constructor.
  - inversion Hnd as [| ? ? Hk Hnd']; subst.
    inversion HP as [| ? ? Hp HP']; subst.
    destruct (String.eqb_spec k k0) as [E | E].
    + subst. constructor; [now apply Heq |].
      rewrite Forall_forall in HP'. apply Forall_forall. intros [k' v'] Hin.
      apply Hne; [now apply HP' |].
      intros ->. apply Hk. change k0 with (fst (k0, v')). now apply in_map.
    + constructor; [now apply Hne | now apply IH].
Qed.

Lemma attacks_by_snoc (b : bool) (k : string) (l : list attack) (a : attack) :
  attacks_by b k (l ++ [a]) =
    if Bool.eqb (is_clan a) b && String.eqb (Attack.attackerTag a) k
    then S (attacks_by b k l) else attacks_by b k l.
Proof.
  unfold attacks_by. rewrite filter_app, length_app. simpl.
  destruct (Bool.eqb (is_clan a) b && String.eqb (Attack.attackerTag a) k);
    simpl; lia.
Qed.

Lemma defenses_of_snoc (b : bool) (k : string) (l : list attack) (a : attack) :
  defenses_of b k (l ++ [a]) =
    if Bool.eqb (is_clan a) (negb b) && String.eqb (Attack.defenderTag a) k
    then S (defenses_of b k l) else defenses_of b k l.
Proof.
  unfold defenses_of. rewrite filter_app, length_app. simpl.
  destruct (Bool.eqb (is_clan a) (negb b)
            && String.eqb (Attack.defenderTag a) k); simpl; lia.
Qed.

Lemma eqb_negb_false (x b : bool) :
  Bool.eqb x b = true -> Bool.eqb x (negb b) = false.
Proof. destruct x, b; simpl; congruence. Qed.

Lemma eqb_negb_true (x b : bool) :
  Bool.eqb x b = false -> Bool.eqb x (negb b) = true.
Proof. destruct x, b; simpl; congruence. Qed.

Lemma counted_step (b : bool) (l : list attack) (a : attack) (t : tally) :
  counted b l (side_dict b t) ->
  counted b (l ++ [a]) (side_dict b (tally_attack a t)).
Proof.
  intros [Hnd Hall]. rewrite side_dict_tally_attack.
  destruct (Bool.eqb (is_clan a) b) eqn:Eb.
  - split; [now rewrite dict_adjust_keys |].
    pose proof (eqb_negb_false _ _ Eb) as En.
    eapply dict_adjust_Forall; [| | exact Hnd | exact Hall].
    + intros k v (H1 & H2 & H3) Hk. simpl in *.
      rewrite attacks_by_snoc, defenses_of_snoc, Eb, En. simpl.
      destruct (String.eqb_spec (Attack.attackerTag a) k); [congruence | auto].
    + intros v (H1 & H2 & H3). simpl in *.
      rewrite attacks_by_snoc, defenses_of_snoc, Eb, En, String.eqb_refl.
      simpl. repeat split; auto. lia.
  - split; [now rewrite dict_adjust_keys |].
    pose proof (eqb_negb_true _ _ Eb) as En.
    eapply dict_adjust_Forall; [| | exact Hnd | exact Hall].
    + intros k v (H1 & H2 & H3) Hk. simpl in *.
      rewrite attacks_by_snoc, defenses_of_snoc, Eb, En. simpl.
      destruct (String.eqb_spec (Attack.defenderTag a) k); [congruence | auto].
    + intros v (H1 & H2 & H3). simpl in *.
      rewrite attacks_by_snoc, defenses_of_snoc, Eb, En, String.eqb_refl.
      simpl. repeat split; auto. lia.
Qed.

Lemma counted_initial (b : bool) (war : war_data) :
  counted b [] (side_dict b (initial_tally war)).
Proof.
  assert (H : forall ms, counted b [] (member_stats ms)).
  { intros ms. unfold member_stats.
    destruct (@member_stats_from_zeroed _ ms []) as ([Hnd Hz] & _).
    { split; constructor. }
    split; auto. eapply Forall_impl; [| exact Hz].
    intros [k v] Hv. simpl in *. subst v. repeat split. }
  unfold side_dict, initial_tally. destruct b; simpl; apply H.
Qed.

Lemma counted_tally_after (b : bool) (war : war_data) (l : list attack) :
  counted b l (side_dict b (tally_after (initial_tally war) l)).
Proof.
  induction l as [| a l IH] using rev_ind.
  - apply counted_initial.
  - rewrite tally_after_snoc. now apply counted_step.
Qed.

End CountersFacts.

(** X3.  In the snapshot of index [n], every MemberStat of a side shows as
    attacks_used the number of attacks, among the first [n] merged attacks,
    that this side made under the member's tag, and as defenses_used the
    number of attacks the other side made on the member's tag. *)
Theorem X3_member_counters {F : PyFloat} (war : war_data) (h : heap)
    (all_attacks : list attack) (tl : list (snapshot member_stat))
    (n : nat) (s : snapshot member_stat) (b : bool) (m : member_stat) :
  extract_attacks war = Ok all_attacks ->
  timeline war h = Ok tl ->
  nth_error tl n = Some s ->
  In m (side_members b s) ->
  attacks_used m = Z.of_nat (attacks_by b (tag m) (firstn n all_attacks)) /\
  defenses_used m = Z.of_nat (defenses_of b (tag m) (firstn n all_attacks)).
Proof.
  intros He Ht Hn Hm.
  destruct (@timeline_nth_shows _ war h all_attacks tl n s He Ht Hn)
    as (_ & Hshows).
  rewrite (shows_side_members b Hshows) in Hm.
  destruct (counted_tally_after b war (firstn n all_attacks)) as [_ Hall].
  unfold dict_values in Hm. apply in_map_iff in Hm.
  destruct Hm as ([k v] & Hv & Hin). simpl in Hv. subst v.
  rewrite Forall_forall in Hall. destruct (Hall _ Hin) as (H1 & H2 & H3).
  simpl in *. rewrite H1. auto.
Qed.

Lemma X3_witness :
  exists tl s m,
    timeline (F := binary64) war_scenario_B [] = Ok tl /\
    nth_error tl 2 = Some s /\
    In m (Snapshot.clan_members s) /\
    tag m = "#a" /\
    attacks_used m
      = Z.of_nat (attacks_by (F := binary64) true "#a" (firstn 2 attacks_scenario_B)) /\
    defenses_used m
      = Z.of_nat (defenses_of (F := binary64) true "#a" (firstn 2 attacks_scenario_B)).
Proof.
  assert (Hx : exists tl s m,
            timeline (F := binary64) war_scenario_B [] = Ok tl /\
            nth_error tl 2 = Some s /\
            In m (side_members true s) /\ tag m = "#a").
  { eexists. eexists. eexists. split; [vm_compute; reflexivity |].
    split; [reflexivity |]. split; [left; reflexivity | reflexivity]. }
  destruct Hx as (tl & s & m & Ht & Hs & Hm & Htag).
  assert (He : extract_attacks (F := binary64) war_scenario_B = Ok attacks_scenario_B)
    by (vm_compute; reflexivity).
  exists tl, s, m. rewrite <- Htag.
  repeat split; auto;
    apply (@X3_member_counters binary64 war_scenario_B [] _ tl 2%nat s true m
             He Ht Hs Hm).
Defined.

Section CountersFacts2.
Context {F : PyFloat}.

Lemma side_dict_keys (b : bool) (war : war_data) (l : list attack) (k : string) :
  In k (dict_keys (side_dict b (tally_after (initial_tally war) l))) <->
  In k (side_tags b war).
Proof.
  destruct (tally_after_keys l (initial_tally war)) as [Kc Ko].
  unfold side_dict, side_tags. destruct b; rewrite ?Kc, ?Ko; simpl;
    unfold member_stats;
    match goal with
    | |- In _ (dict_keys (member_stats_from ?ms [])) <-> _ =>
        destruct (@member_stats_from_zeroed _ ms []) as (_ & Hk & _);
          [split; constructor |];
          rewrite Hk; simpl; intuition
    end.
Qed.

Lemma counted_tags (b : bool) (l : list attack) (d : dict member_stat) :
  counted b l d -> map tag (dict_values d) = dict_keys d.
Proof.
  intros [_ Hall]. unfold dict_values, dict_keys. rewrite map_map.
  apply map_ext_in. intros p Hp. rewrite Forall_forall in Hall.
  now destruct (Hall p Hp) as (H1 & _).
Qed.

End CountersFacts2.

(** X4.  Every snapshot of a returned timeline lists, for each side, the
    same member tags in the same order as the initial snapshot: the tags of
    that side's roster, each once. *)
Theorem X4_roster_stable {F : PyFloat} (war : war_data) (h : heap)
    (tl : list (snapshot member_stat)) (s : snapshot member_stat) (b : bool) :
  timeline war h = Ok tl ->
  In s tl ->
  exists s0,
    nth_error tl 0 = Some s0 /\
    map tag (side_members b s) = map tag (side_members b s0) /\
    NoDup (map tag (side_members b s)) /\
    (forall t, In t (map tag (side_members b s)) <-> In t (side_tags b war)).
Proof.
  intros Ht Hs.
  destruct (timeline_Ok_inv _ _ Ht) as (l & He & _ & Htl).
  assert (Hkeys : forall n s', nth_error tl n = Some s' ->
            map tag (side_members b s') =
            dict_keys (side_dict b (initial_tally war)) /\
            NoDup (map tag (side_members b s')) /\
            (forall t, In t (map tag (side_members b s'))
                       <-> In t (side_tags b war))).
  { intros n s' Hn.
    destruct (@timeline_nth_shows _ war h l tl n s' He Ht Hn) as (_ & Hsh).
    rewrite (shows_side_members b Hsh).
    pose proof (counted_tally_after b war (firstn n l)) as Hc.
    rewrite (counted_tags Hc).
    destruct (tally_after_keys (firstn n l) (initial_tally war)) as [Kc Ko].
    split; [| split].
    - unfold side_dict. destruct b; assumption.
    - apply Hc.
    - intros t. apply side_dict_keys. }
  exists (initial_snapshot war). split; [now rewrite Htl |].
  apply In_nth_error in Hs. destruct Hs as (n & Hn).
  destruct (Hkeys n s Hn) as (K1 & K2 & K3).
  destruct (Hkeys 0%nat (initial_snapshot war)) as (K0 & _);
    [now rewrite Htl |].
  repeat split; auto; try apply K3. congruence.
Qed.

Lemma X4_witness :
  exists tl s s0,
    timeline (F := binary64) war_scenario_B [] = Ok tl /\
    nth_error tl 2 = Some s /\
    nth_error tl 0 = Some s0 /\
    map tag (Snapshot.opponent_members s)
      = map tag (Snapshot.opponent_members s0).
Proof.
  assert (Hx : exists tl s,
            timeline (F := binary64) war_scenario_B [] = Ok tl /\
            nth_error tl 2 = Some s /\ In s tl).
  { eexists. eexists. split; [vm_compute; reflexivity |].
    split; [reflexivity |]. right. right. left. reflexivity. }
  destruct Hx as (tl & s & Ht & Hs & Hin).
  destruct (@X4_roster_stable binary64 war_scenario_B [] tl s false Ht Hin)
    as (s0 & H0 & Htags & _).
  exists tl, s, s0. repeat split; assumption.
Defined.

(** ** Members' counters against the side's counter *)

Section ConservedFacts.
Context {F : PyFloat}.

Lemma total_adjust_attack (d : dict member_stat) (k : string) :
  total_attacks_used (dict_values (dict_adjust add_attack_used d k)) =
    total_attacks_used (dict_values d)
    + (if existsb (String.eqb k) (dict_keys d) then 1 else 0).
Proof.
  induction d as [| [k' v] d IH]; simpl; [reflexivity |].
  rewrite (String.eqb_sym k k').
  destruct (String.eqb k' k); simpl; [lia | rewrite IH; lia].
Qed.

Lemma total_adjust_defense (d : dict member_stat) (k : string) :
  total_attacks_used (dict_values (dict_adjust add_defense_used d k)) =
    total_attacks_used (dict_values d).
Proof.
  induction d as [| [k' v] d IH]; simpl; [reflexivity |].
  destruct (String.eqb k' k); simpl; [reflexivity | now rewrite IH].
Qed.

Lemma existsb_same_members (A : Type) (f : A -> bool) (l1 l2 : list A) :
  (forall x, In x l1 <-> In x l2) -> existsb f l1 = existsb f l2.
Proof.
  intros H. destruct (existsb f l1) eqn:E1; destruct (existsb f l2) eqn:E2;
    auto.
  - apply existsb_exists in E1. destruct E1 as (x & Hx & Hf).
    assert (existsb f l2 = true)
      by (apply existsb_exists; exists x; split; [now apply H | auto]).
    congruence.
  - apply existsb_exists in E2. destruct E2 as (x & Hx & Hf).
    assert (existsb f l1 = true)
      by (apply existsb_exists; exists x; split; [now apply H | auto]).
    congruence.
Qed.

Lemma unknown_attackers_snoc (b : bool) (tags : list string)
    (l : list attack) (a : attack) :
  unknown_attackers b tags (l ++ [a]) =
    if Bool.eqb (is_clan a) b
       && negb (existsb (String.eqb (Attack.attackerTag a)) tags)
    then S (unknown_attackers b tags l) else unknown_attackers b tags l.
Proof.
  unfold unknown_attackers. rewrite filter_app, length_app. simpl.
  destruct (Bool.eqb (is_clan a) b
            && negb (existsb (String.eqb (Attack.attackerTag a)) tags));
    simpl; lia.
Qed.

Lemma attacks_conserved (b : bool) (war : war_data) (l : list attack) :
  total_attacks_used
    (dict_values (side_dict b (tally_after (initial_tally war) l)))
  + Z.of_nat (unknown_attackers b (side_tags b war) l)
  = Z.of_nat (side_count b l).
Proof.
  induction l as [| a l IH] using rev_ind.
  - destruct (counted_initial b war) as [_ Hall].
    assert (Hz : forall d : dict member_stat,
              Forall (fun p => attacks_used (snd p) = 0) d ->
              total_attacks_used (dict_values d) = 0).
    { induction 1 as [| p d Hp _ IHd]; simpl; [auto | lia]. }
    simpl. rewrite Hz; [reflexivity |].
    eapply Forall_impl; [| exact Hall]. intros p (_ & H2 & _). exact H2.
  - rewrite tally_after_snoc, side_dict_tally_attack,
      unknown_attackers_snoc, side_count_snoc.
    destruct (Bool.eqb (is_clan a) b); simpl.
    + rewrite total_adjust_attack.
      rewrite (@existsb_same_members _ (String.eqb (Attack.attackerTag a))
                 _ _ (side_dict_keys b war l)).
      destruct (existsb _ (side_tags b war)); simpl; lia.
    + rewrite total_adjust_defense. exact IH.
Qed.

End ConservedFacts.

(** X5.  In every snapshot, the attacks_used of a side's members add up to
    the side's attacks-used counter less the attacks that side made under a
    tag that is not on its roster. *)
Theorem X5_attacks_conserved {F : PyFloat} (war : war_data) (h : heap)
    (all_attacks : list attack) (tl : list (snapshot member_stat))
    (n : nat) (s : snapshot member_stat) (b : bool) :
  extract_attacks war = Ok all_attacks ->
  timeline war h = Ok tl ->
  nth_error tl n = Some s ->
  total_attacks_used (side_members b s)
  + Z.of_nat (unknown_attackers b (side_tags b war) (firstn n all_attacks))
  = side_attacks_used b s.
Proof.
  intros He Ht Hn.
  destruct (@timeline_nth_shows _ war h all_attacks tl n s He Ht Hn)
    as (_ & Hsh).
  rewrite (shows_side_members b Hsh), (shows_side_attacks_used b Hsh).
  rewrite attacks_conserved.
  destruct (tally_after_totals war (firstn n all_attacks))
    as (T1 & T2 & _ & _).
  destruct b; simpl in *; congruence.
Qed.

Lemma X5_witness :
  exists tl s,
    timeline (F := binary64) war_scenario_D [] = Ok tl /\
    nth_error tl 1 = Some s /\
    total_attacks_used (Snapshot.clan_members s) + 1
      = Snapshot.clan_attacks_used s.
Proof.
  assert (Hx : exists tl s,
            timeline (F := binary64) war_scenario_D [] = Ok tl /\ nth_error tl 1 = Some s).
  { eexists. eexists. split; [vm_compute; reflexivity | reflexivity]. }
  destruct Hx as (tl & s & Ht & Hs).
  exists tl, s. repeat split; auto.
  exact (@X5_attacks_conserved binary64 war_scenario_D [] _ tl 1%nat s true
           eq_refl Ht Hs).
Defined.

(** ** The objects of a run *)

(** X6.  The timeline read from a run does not depend on the objects the
    heap holds when [compute_timeline] is called. *)
Theorem X6_heap_independent {F : PyFloat} (war : war_data) (h1 h2 : heap) :
  timeline war h1 = timeline war h2.
Proof. now rewrite !timeline_unfold. Qed.

Lemma firstn_assign (n : nat) (h : heap) (l : loc) (v : member_stat) :
  (n <= l)%nat -> firstn n (assign h l v) = firstn n h.
Proof.
  revert n l. induction h as [| x h IH]; intros [| n] [| l] H; simpl; auto;
    try lia.
  f_equal. apply IH. lia.
Qed.

Section ObjectsFacts.
Context {F : PyFloat}.

Lemma firstn_bump (n : nat) f (d : dict loc) (k : string) (h : heap) :
  Forall (fun l => (n <= l)%nat) (dict_values d) ->
  firstn n (bump f d k h) = firstn n h.
Proof.
  intros Hd. unfold bump. destruct (dict_get d k) as [l |] eqn:E; auto.
  apply firstn_assign. rewrite Forall_forall in Hd. apply Hd.
  eapply dict_get_In; eauto.
Qed.

Lemma firstn_count_attack (n : nat) (cd od : dict loc) (a : attack)
    (st st1 : locals) :
  Forall (fun l => (n <= l)%nat) (dict_values cd) ->
  Forall (fun l => (n <= l)%nat) (dict_values od) ->
  count_attack cd od a st = Ok st1 ->
  firstn n (store st1) = firstn n (store st) /\
  List.length (store st1) = List.length (store st) /\
  war_timeline st1 = war_timeline st.
Proof.
  intros Hc Ho Hrun. unfold count_attack in Hrun.
  destruct (is_clan a); apply bind_Ok_inv in Hrun;
    destruct Hrun as (sum & _ & Hrun); injection Hrun as <-; simpl;
    now rewrite !firstn_bump, !bump_length.
Qed.

Lemma timeline_locs_snoc (tl : list (snapshot loc)) (s : snapshot loc) :
  timeline_locs (tl ++ [s]) = timeline_locs tl ++ snapshot_locs s.
Proof.
  unfold timeline_locs. rewrite flat_map_app. simpl. now rewrite app_nil_r.
Qed.

Lemma kept_locs_below (n0 : nat) (st : locals) :
  kept n0 st ->
  Forall (fun l => (n0 <= l < List.length (store st))%nat)
    (timeline_locs (war_timeline st)).
Proof.
  intros [_ Hk]. unfold timeline_locs. apply Forall_flat_map.
  exact Hk.
Qed.

Section FoldFresh.
Variable team_size : Z.
Variables cd od : dict loc.
Variable base : heap.
Variable n0 : nat.
Hypothesis cd_between : within (List.length base) n0 (dict_values cd).
Hypothesis od_between : within (List.length base) n0 (dict_values od).

Let at_least (d : dict loc) :
  within (List.length base) n0 (dict_values d) ->
  Forall (fun l => (List.length base <= l)%nat) (dict_values d).
Proof.
  intros H. eapply Forall_impl; [| exact H]. simpl. intros; lia.
Qed.

Let less_than (d : dict loc) (h : heap) :
  within (List.length base) n0 (dict_values d) ->
  (n0 <= List.length h)%nat ->
  Forall (fun l => (l < List.length h)%nat) (dict_values d).
Proof.
  intros H Hn. eapply Forall_impl; [| exact H]. simpl. intros; lia.
Qed.

Lemma fold_attack_fresh (a : attack) (st st' : locals) :
  fold_attack team_size cd od a st = Ok st' ->
  fresh base n0 st -> fresh base n0 st'.
Proof.
  intros Hrun (Hbase & Hnd & Hk).
  pose proof (kept_locs_below Hk) as Hbelow.
  destruct Hk as [Hn Hsn].
  unfold fold_attack in Hrun.
  apply bind_Ok_inv in Hrun. destruct Hrun as (st1 & Hst1 & Hrun).
  destruct (@firstn_count_attack (List.length base) cd od a st st1
              (at_least cd cd_between) (at_least od od_between) Hst1)
    as (Hfirst & Hlen & Htl).
  rewrite Hbase in Hfirst.
  apply bind_Ok_inv in Hrun. destruct Hrun as (cq & _ & Hrun).
  apply bind_Ok_inv in Hrun. destruct Hrun as (oq & _ & Hrun).
  assert (Hn1 : (n0 <= List.length (store st1))%nat) by lia.
  rewrite deepcopy_spec in Hrun by (apply less_than; auto).
  rewrite deepcopy_spec in Hrun.
  2:{ eapply Forall_impl; [| apply (@less_than od (store st1)); auto].
      simpl. intros l Hl. rewrite length_app. lia. }
  injection Hrun as <-.
  set (X := map (deref (store st1)) (dict_values cd)).
  set (Y := map (deref (store st1 ++ X)) (dict_values od)).
  assert (HlX : List.length X = List.length (dict_values cd))
    by (unfold X; apply length_map).
  assert (HlY : List.length Y = List.length (dict_values od))
    by (unfold Y; apply length_map).
  assert (Hlo : (List.length base <= List.length (store st1))%nat).
  { rewrite <- Hfirst at 1. rewrite length_firstn. lia. }
  unfold fresh, kept; simpl. rewrite Htl. repeat split.
  - rewrite <- app_assoc, firstn_app.
    replace (List.length base - List.length (store st1))%nat with 0%nat
      by lia.
    simpl. now rewrite app_nil_r.
  - rewrite timeline_locs_snoc. unfold snapshot_locs; simpl.
    rewrite length_app, <- HlX, <- HlY, <- seq_app.
    apply NoDup_app; [exact Hnd | apply seq_NoDup |].
    intros l Hl Hin. rewrite Forall_forall in Hbelow.
    specialize (Hbelow l Hl). apply in_seq in Hin. lia.
  - rewrite !length_app. lia.
  - apply Forall_app; split.
    + eapply Forall_impl; [| exact Hsn]. simpl. intros s Hs.
      eapply within_weaken; [| | exact Hs]; auto.
      rewrite !length_app. lia.
    + constructor; [| constructor].
      unfold snapshot_locs; simpl. apply Forall_app; split.
      * eapply within_weaken; [| | apply within_seq]; auto.
        rewrite !length_app. lia.
      * eapply within_weaken; [| | apply within_seq].
        -- rewrite length_app; lia.
        -- rewrite !length_app. lia.
Qed.

Lemma fold_attacks_fresh (l : list attack) :
  forall st st',
    fold_attacks team_size cd od l st = Ok st' ->
    fresh base n0 st -> fresh base n0 st'.
Proof.
  induction l as [| a l IH]; simpl; intros st st' Hrun Hf.
  - now injection Hrun as <-.
  - apply bind_Ok_inv in Hrun. destruct Hrun as (st1 & H1 & Hrun).
    eapply IH; [exact Hrun |]. eapply fold_attack_fresh; eauto.
Qed.
End FoldFresh.

Lemma timeline_from_setup_fresh (war : war_data) (all_attacks : list attack)
    (h : heap) :
  exists (cd od : dict loc) (n0 : nat) (st0 : locals),
    timeline_from war all_attacks h =
      (st <- fold_attacks (teamSize war) cd od all_attacks st0 ;;
       Ok (war_timeline st, store st)) /\
    within (List.length h) n0 (dict_values cd) /\
    within (List.length h) n0 (dict_values od) /\
    (List.length h <= n0)%nat /\
    fresh h n0 st0.
Proof.
  unfold timeline_from.
  destruct (initialize_member_stats_spec (members (clan war)) h)
    as (cd & Hc & Hcw & _ & _).
  rewrite Hc. set (h1 := h ++ _) in *.
  destruct (initialize_member_stats_spec (members (opponent war)) h1)
    as (od & Ho & How & _ & _).
  rewrite Ho. set (h2 := h1 ++ _) in *.
  assert (Hl1 : List.length h1 =
                (List.length h + List.length (members (clan war)))%nat)
    by (unfold h1; now rewrite length_app, length_map).
  assert (Hl2 : List.length h2 =
                (List.length h1 + List.length (members (opponent war)))%nat)
    by (unfold h2; now rewrite length_app, length_map).
  rewrite <- Hl1 in Hcw. rewrite <- Hl2 in How.
  assert (Hbc : Forall (fun l => (l < List.length h2)%nat) (dict_values cd)).
  { eapply Forall_impl; [| exact Hcw]. simpl; intros; lia. }
  assert (Hbo : Forall (fun l => (l < List.length h2)%nat) (dict_values od)).
  { eapply Forall_impl; [| exact How]. simpl; intros; lia. }
  rewrite deepcopy_spec by exact Hbc.
  set (X := map (deref h2) (dict_values cd)).
  rewrite deepcopy_spec.
  2:{ eapply Forall_impl; [| exact Hbo]. simpl; intros l Hl.
      rewrite length_app; lia. }
  set (Y := map (deref (h2 ++ X)) (dict_values od)).
  assert (HlX : List.length X = List.length (dict_values cd))
    by (unfold X; apply length_map).
  assert (HlY : List.length Y = List.length (dict_values od))
    by (unfold Y; apply length_map).
  exists cd, od, (List.length h2). eexists. split; [reflexivity |].
  split; [| split; [| split]].
  - eapply within_weaken; [| | exact Hcw]; lia.
  - eapply within_weaken; [| | exact How]; lia.
  - lia.
  - unfold fresh, kept; simpl. repeat split.
    + unfold h2, h1. rewrite <- !app_assoc, firstn_app, Nat.sub_diag.
      rewrite firstn_all. simpl. now rewrite app_nil_r.
    + unfold timeline_locs, snapshot_locs; simpl. rewrite app_nil_r.
      rewrite length_app, <- HlX, <- HlY, <- seq_app. apply seq_NoDup.
    + rewrite !length_app. lia.
    + constructor; [| constructor]. unfold snapshot_locs; simpl.
      apply Forall_app; split.
      * eapply within_weaken; [| | apply within_seq]; auto.
        rewrite !length_app. lia.
      * eapply within_weaken; [| | apply within_seq].
        -- rewrite length_app; lia.
        -- rewrite !length_app. lia.
Qed.

Lemma compute_timeline_fresh (war : war_data) (h : heap)
    (tl : list (snapshot loc)) (h' : heap) :
  compute_timeline war h = Ok (tl, h') ->
  firstn (List.length h) h' = h /\
  NoDup (timeline_locs tl) /\
  Forall (fun l => (List.length h <= l < List.length h')%nat)
    (timeline_locs tl).
Proof.
  unfold compute_timeline. intros Hrun.
  apply bind_Ok_inv in Hrun. destruct Hrun as (l & _ & Hrun).
  destruct (timeline_from_setup_fresh war l h)
    as (cd & od & n0 & st0 & Heq & Hc & Ho & Hlo & Hf).
  rewrite Heq in Hrun.
  apply bind_Ok_inv in Hrun. destruct Hrun as (st & Hfold & Hrun).
  injection Hrun as <- <-.
  destruct (@fold_attacks_fresh (teamSize war) cd od h n0 Hc Ho l st0 st
              Hfold Hf) as (H1 & H2 & H3).
  repeat split; auto.
  eapply Forall_impl; [| apply (kept_locs_below H3)].
  simpl. intros; lia.
Qed.

End ObjectsFacts.

(** X7.  A run changes no object that was in the heap when
    [compute_timeline] was called: the heap it ends with starts with the heap
    it was given. *)
Theorem X7_existing_objects_untouched {F : PyFloat} (war : war_data) (h : heap)
    (tl : list (snapshot loc)) (h' : heap) :
  compute_timeline war h = Ok (tl, h') ->
  firstn (List.length h) h' = h.
Proof. intros Hrun. now apply (compute_timeline_fresh war h Hrun). Qed.

Lemma X7_witness :
  exists tl h',
    compute_timeline (F := binary64) war_scenario_B [zero_stat "#old"] = Ok (tl, h') /\
    firstn 1 h' = [zero_stat "#old"].
Proof.
  assert (Hx : exists tl h',
            compute_timeline (F := binary64) war_scenario_B [zero_stat "#old"] = Ok (tl, h'))
    by (eexists; eexists; vm_compute; reflexivity).
  destruct Hx as (tl & h' & Hrun).
  exists tl, h'. split; [exact Hrun |].
  exact (@X7_existing_objects_untouched binary64 war_scenario_B [zero_stat "#old"]
           tl h' Hrun).
Defined.

(** X8.  The MemberStat objects the snapshots of a returned timeline refer
    to are pairwise distinct, were all allocated by this run, and are all in
    the heap the run ends with: no two snapshots, and no two entries of one
    snapshot, share an object. *)
Theorem X8_snapshots_share_nothing {F : PyFloat} (war : war_data) (h : heap)
    (tl : list (snapshot loc)) (h' : heap) :
  compute_timeline war h = Ok (tl, h') ->
  NoDup (timeline_locs tl) /\
  Forall (fun l => (List.length h <= l < List.length h')%nat)
    (timeline_locs tl).
Proof. intros Hrun. now apply (compute_timeline_fresh war h Hrun). Qed.

Lemma X8_witness :
  exists tl h',
    compute_timeline (F := binary64) war_scenario_B [zero_stat "#old"] = Ok (tl, h') /\
    NoDup (timeline_locs tl).
Proof.
  assert (Hx : exists tl h',
            compute_timeline (F := binary64) war_scenario_B [zero_stat "#old"] = Ok (tl, h'))
    by (eexists; eexists; vm_compute; reflexivity).
  destruct Hx as (tl & h' & Hrun).
  exists tl, h'. split; [exact Hrun |].
  exact (proj1 (@X8_snapshots_share_nothing binary64 war_scenario_B
                  [zero_stat "#old"] tl h' Hrun)).
Defined.

(** ** Errors *)

(** X9.  [compute_timeline] raises in three cases only.  [extract_attacks]
    raises, and then it raises the same error.  Or the extraction returns at
    least one attack and it raises OverflowError: the destruction percentage
    of the first attack, or [team_size * 100], is an int too large for a
    float, or the team size is not zero and the destruction percentage of a
    later attack is such an int.  Or the extraction returns at least one
    attack, the destruction percentage of the first one has a float and the
    team size is zero, and it raises ZeroDivisionError.  In particular a
    malformed record is reported before any arithmetic is attempted. *)
Theorem X9_errors {F : PyFloat} (war : war_data) (h : heap) (e : error) :
  compute_timeline war h = Raise e <->
  extract_attacks war = Raise e \/
  (exists a l,
     extract_attacks war = Ok (a :: l) /\
     ((e = OverflowError /\
       (convertible (Attack.destructionPercentage a) = false \/
        convertible (Int (teamSize war * 100)) = false \/
        (teamSize war <> 0 /\ all_convertible l = false))) \/
      (e = ZeroDivisionError /\
       convertible (Attack.destructionPercentage a) = true /\
       teamSize war = 0))).
Proof.
  rewrite compute_timeline_Raise. split.
  - intros [H | (l & He & H)]; [now left | right].
    apply timeline_on_values_Raise in H.
    destruct H as (a & l' & -> & H). exists a, l'. split; assumption.
  - intros [H | (a & l & He & H)]; [now left | right].
    exists (a :: l). split; [exact He |].
    apply timeline_on_values_Raise. exists a, l. split; [reflexivity | exact H].
Qed.

Section ErrorsFacts2.
Context {F : PyFloat}.

Lemma make_attack_missing (side : string) (a : raw_attack) (k : string) :
  missing_key a = Some k -> make_attack side a = Raise (KeyError k).
Proof.
  unfold missing_key, make_attack.
  destruct (raw_attackerTag a); simpl; [| now intros [= <-]].
  destruct (raw_defenderTag a); simpl; [| now intros [= <-]].
  destruct (raw_stars a); simpl; [| now intros [= <-]].
  destruct (raw_destructionPercentage a); simpl; [| now intros [= <-]].
  destruct (raw_order a); simpl; [discriminate | now intros [= <-]].
Qed.

Lemma make_attacks_first_missing (side : string) (pre : list raw_attack)
    (a : raw_attack) (post : list raw_attack) (k : string) :
  forallb well_formed pre = true ->
  missing_key a = Some k ->
  make_attacks side (pre ++ a :: post) = Raise (KeyError k).
Proof.
  intros Hpre Hk. rewrite make_attacks_app.
  destruct (make_attacks_Ok side pre Hpre) as (xs & ->). simpl.
  now rewrite (make_attack_missing side a Hk).
Qed.

Lemma app_split_at (A : Type) (l1 l2 pre post : list A) (a : A) :
  l1 ++ l2 = pre ++ a :: post ->
  (exists post1, l1 = pre ++ a :: post1 /\ post = post1 ++ l2) \/
  (exists pre2, pre = l1 ++ pre2 /\ l2 = pre2 ++ a :: post).
Proof.
  revert pre. induction l1 as [| x l1 IH]; intros pre H.
  - right. exists pre. auto.
  - destruct pre as [| y pre]; simpl in H; injection H as -> H.
    + left. exists l1. auto.
    + destruct (IH pre H) as [(post1 & -> & ->) | (pre2 & -> & ->)].
      * left. exists post1. auto.
      * right. exists pre2. auto.
Qed.

End ErrorsFacts2.

(** X10.  The error of a malformed war names the first mandatory key, in
    the order attackerTag, defenderTag, stars, destructionPercentage, order,
    that the first malformed record lacks, the records being visited roster
    by roster (clan first) and member by member. *)
Theorem X10_first_missing_key {F : PyFloat} (war : war_data) (pre : list raw_attack)
    (a : raw_attack) (post : list raw_attack) (k : string) :
  roster_attacks (clan war) ++ roster_attacks (opponent war)
    = pre ++ a :: post ->
  forallb well_formed pre = true ->
  missing_key a = Some k ->
  extract_attacks war = Raise (KeyError k) /\
  forall h, compute_timeline war h = Raise (KeyError k).
Proof.
  intros Hsplit Hpre Hk.
  assert (He : extract_attacks war = Raise (KeyError k)).
  { unfold extract_attacks. rewrite combined_attacks_spec.
    destruct (@app_split_at _ _ _ _ _ _ Hsplit)
      as [(post1 & Hc & _) | (pre2 & Hp & Ho)].
    - rewrite Hc, (make_attacks_first_missing "clan" pre a post1 Hpre Hk).
      reflexivity.
    - subst pre. rewrite forallb_app in Hpre.
      apply andb_true_iff in Hpre. destruct Hpre as [Hc Hp2].
      destruct (make_attacks_Ok "clan" _ Hc) as (c & ->). simpl.
      rewrite Ho, (make_attacks_first_missing "opponent" pre2 a post Hp2 Hk).
      reflexivity. }
  split; auto. intros h. unfold compute_timeline. now rewrite He.
Qed.

Lemma X10_witness :
  extract_attacks (F := binary64) war_malformed = Raise (KeyError "stars") /\
  forall h, compute_timeline (F := binary64) war_malformed h = Raise (KeyError "stars").
Proof.
  apply (@X10_first_missing_key binary64 war_malformed []
           {| raw_attackerTag := Some "#a";
              raw_defenderTag := Some "#x";
              raw_stars := None;
              raw_destructionPercentage := Some (Int 100);
              raw_order := Some 1;
              raw_duration := Some 30 |} [] "stars");
    reflexivity.
Defined.

(** ** The war a page shows *)

Section PagesFacts.
Context {F : PyFloat}.

Lemma previous_choices_In (l : list war_data) :
  forall i c,
    In c (previous_choices i l) <->
    exists j, (j < List.length l)%nat /\
              c = {| Choice.position := Z.of_nat (i + j);
                     Choice.label :=
                       String.append "Previous War " (decimal (i + j)) |}.
Proof.
  induction l as [| w l IH]; intros i c; simpl.
  - split; [intros [] | intros (j & Hj & _); lia].
  - rewrite IH. split.
    + intros [<- | (j & Hj & ->)].
      * exists 0%nat. rewrite Nat.add_0_r. split; [lia | reflexivity].
      * exists (S j). rewrite <- plus_n_Sm. split; [lia | reflexivity].
    + intros ([| j] & Hj & ->).
      * left. now rewrite Nat.add_0_r.
      * right. exists j. rewrite <- plus_n_Sm. split; [lia | reflexivity].
Qed.

Lemma wars_available_positions (current : option war_data)
    (previous : list war_data) (p : Z) :
  In p (map Choice.position (wars_available current previous)) <->
  (p = 0 /\ current <> None) \/
  (1 <= p <= Z.of_nat (List.length previous)).
Proof.
  assert (Hprev : In p (map Choice.position (previous_choices 1 previous))
                  <-> 1 <= p <= Z.of_nat (List.length previous)).
  { rewrite in_map_iff. split.
    - intros (c & <- & Hc). apply previous_choices_In in Hc.
      destruct Hc as (j & Hj & ->). simpl. lia.
    - intros Hp. eexists. split.
      2:{ apply previous_choices_In. exists (Z.to_nat (p - 1)).
          split; [lia | reflexivity]. }
      simpl. lia. }
  unfold wars_available. rewrite map_app, in_app_iff, Hprev.
  destruct current as [c |]; simpl.
  - split.
    + intros [[<- | []] | Hp]; [left | right]; auto.
      split; [reflexivity | discriminate].
    + intros [[-> _] | Hp]; auto.
  - split.
    + intros [[] | Hp]. auto.
    + intros [[_ Hc] | Hp]; [congruence | auto].
Qed.

Lemma previous_at_cases (previous : list war_data) (position : Z) :
  (1 <= position <= Z.of_nat (List.length previous) /\
   exists w,
     (if (0 <=? position - 1)
         && (position - 1 <? Z.of_nat (List.length previous))
      then nth_error previous (Z.to_nat (position - 1))
      else None) = Some w /\
     nth_error previous (Z.to_nat (position - 1)) = Some w) \/
  (~ 1 <= position <= Z.of_nat (List.length previous) /\
   (if (0 <=? position - 1)
       && (position - 1 <? Z.of_nat (List.length previous))
    then nth_error previous (Z.to_nat (position - 1))
    else None) = None).
Proof.
  destruct ((0 <=? position - 1)
            && (position - 1 <? Z.of_nat (List.length previous))) eqn:R.
  - apply andb_true_iff in R. destruct R as [R1 R2].
    apply Z.leb_le in R1. apply Z.ltb_lt in R2.
    left. split; [lia |].
    destruct (nth_error previous (Z.to_nat (position - 1))) as [w |] eqn:N.
    + exists w. auto.
    + apply nth_error_None in N. lia.
  - right. split; auto. apply andb_false_iff in R.
    destruct R as [R | R]; [apply Z.leb_gt in R | apply Z.ltb_ge in R]; lia.
Qed.

Lemma select_war_None (position : Z) (current : option war_data)
    (previous : list war_data) :
  select_war position current previous = None <->
  previous = [] /\ (position <> 0 \/ current = None).
Proof.
  unfold select_war. cbv zeta.
  destruct (previous_at_cases previous position)
    as [(Hr & w & -> & _) | (Hr & ->)].
  - destruct (position =? 0) eqn:E.
    + apply Z.eqb_eq in E. lia.
    + split; [destruct current; discriminate |].
      intros [-> _]. simpl in Hr. lia.
  - destruct (position =? 0) eqn:E; destruct current as [c |];
      destruct previous as [| w0 rest]; split; intros H;
      try discriminate H;
      try (apply proj1 in H; discriminate H);
      try reflexivity.
    + destruct H as [_ [Hc | Hc]]; [| discriminate Hc].
      apply Z.eqb_eq in E. congruence.
    + auto.
    + split; [reflexivity |]. left. now apply Z.eqb_neq.
    + auto.
Qed.

Lemma select_war_Some (position : Z) (current : option war_data)
    (previous : list war_data) (w : war_data) (sel : Z) :
  select_war position current previous = Some (w, sel) ->
  war_at sel current previous = Some w /\
  In {| Choice.position := sel; Choice.label := label_of sel |}
    (wars_available current previous) /\
  (In position (map Choice.position (wars_available current previous)) ->
   sel = position) /\
  (~ In position (map Choice.position (wars_available current previous)) ->
   sel = 1 /\ nth_error previous 0 = Some w).
Proof.
  assert (Hprev : forall p,
            1 <= p <= Z.of_nat (List.length previous) ->
            In {| Choice.position := p; Choice.label := label_of p |}
              (wars_available current previous)).
  { intros p Hp. unfold wars_available. apply in_or_app. right.
    apply previous_choices_In. exists (Z.to_nat (p - 1)). split; [lia |].
    unfold label_of. replace (p =? 0) with false by (symmetry; lia).
    replace (1 + Z.to_nat (p - 1))%nat with (Z.to_nat p) by lia.
    f_equal. lia. }
  assert (Hat : forall p x,
            1 <= p -> nth_error previous (Z.to_nat (p - 1)) = Some x ->
            war_at p current previous = Some x).
  { intros p x Hp Hx. unfold war_at.
    replace (p =? 0) with false by (symmetry; lia).
    replace (1 <=? p) with true by (symmetry; lia). exact Hx. }
  assert (Hfallback : forall w0 rest,
            previous = w0 :: rest ->
            ~ In position
                (map Choice.position (wars_available current previous)) ->
            war_at 1 current previous = Some w0 /\
            In {| Choice.position := 1; Choice.label := label_of 1 |}
              (wars_available current previous) /\
            (In position
               (map Choice.position (wars_available current previous)) ->
             1 = position) /\
            (~ In position
                 (map Choice.position (wars_available current previous)) ->
             1 = 1 /\ nth_error previous 0 = Some w0)).
  { intros w0 rest Hp Hn. repeat split; auto.
    - apply Hat; [lia |]. now rewrite Hp.
    - apply Hprev. rewrite Hp. simpl. lia.
    - intros Hin. contradiction.
    - now rewrite Hp. }
  pose proof (wars_available_positions current previous position) as Hpos.
  unfold select_war. cbv zeta.
  destruct (previous_at_cases previous position)
    as [(Hr & w' & -> & Hn) | (Hr & ->)].
  - (* a listed previous war *)
    replace (position =? 0) with false by (symmetry; lia).
    intros [= <- <-]. split; [| split; [| split]].
    + apply Hat; [lia | assumption].
    + now apply Hprev.
    + reflexivity.
    + intros Hnot. exfalso. apply Hnot, Hpos. now right.
  - destruct (position =? 0) eqn:E; destruct current as [c |].
    + (* the current war *)
      apply Z.eqb_eq in E. subst position. intros [= <- <-].
      split; [| split; [| split]].
      * reflexivity.
      * unfold wars_available. simpl. auto.
      * reflexivity.
      * intros Hnot. exfalso. apply Hnot, Hpos. left.
        split; [reflexivity | discriminate].
    + destruct previous as [| w0 rest] eqn:Hp; [discriminate |].
      intros [= <- <-]. rewrite <- Hp in *. apply (Hfallback w0 rest Hp).
      rewrite Hpos. intros [[_ Hc] | Hin]; [congruence | contradiction].
    + apply Z.eqb_neq in E.
      destruct previous as [| w0 rest] eqn:Hp; [discriminate |].
      intros [= <- <-]. rewrite <- Hp in *. apply (Hfallback w0 rest Hp).
      rewrite Hpos. intros [[H0 _] | Hin]; [congruence | contradiction].
    + apply Z.eqb_neq in E.
      destruct previous as [| w0 rest] eqn:Hp; [discriminate |].
      intros [= <- <-]. rewrite <- Hp in *. apply (Hfallback w0 rest Hp).
      rewrite Hpos. intros [[H0 _] | Hin]; [congruence | contradiction].
Qed.

Lemma get_war_Rendered (clan_tag : string) (position : Z)
    (current : option war_data) (previous : list war_data) (h : heap)
    (p : Page.t) :
  get_war clan_tag position current previous h = Ok (Rendered p) ->
  exists w,
    select_war position current previous
      = Some (w, Page.selected_position p) /\
    timeline (orient clan_tag w) h = Ok (Page.war_timeline p) /\
    Page.clan p = clan (orient clan_tag w) /\
    Page.opponent p = opponent (orient clan_tag w) /\
    Page.attacks_per_member p = get (attacksPerMember w) 1 /\
    Page.wars_available p = wars_available current previous.
Proof.
  unfold get_war.
  destruct (select_war position current previous) as [[w sel] |];
    [| discriminate].
  intros H. apply bind_Ok_inv in H. destruct H as (tl & Ht & H).
  injection H as <-. exists w. simpl. repeat split; auto.
  unfold orient. destruct (String.eqb (r_tag (clan w)) clan_tag); reflexivity.
Qed.

End PagesFacts.

(** X11.  [get_war] answers 404 exactly when no previous war was fetched
    and the request is not for position 0 with a current war at hand. *)
Theorem X11_not_found {F : PyFloat} (clan_tag : string) (position : Z)
    (current : option war_data) (previous : list war_data) (h : heap) :
  get_war clan_tag position current previous h = Ok NotFound <->
  previous = [] /\ (position <> 0 \/ current = None).
Proof.
  rewrite <- select_war_None. unfold get_war.
  destruct (select_war position current previous) as [[w sel] |].
  - split; [| discriminate]. intros H.
    destruct (timeline (orient clan_tag w) h); discriminate.
  - split; reflexivity.
Qed.

(** X12.  The position a rendered page marks as selected is one of the
    positions its list of wars offers, under the label of that position, and
    the sides and timeline on the page are those of the war this position
    stands for (the current war for 0, the previous war of index
    [position - 1] otherwise), oriented for the requested clan tag. *)
Theorem X12_selected_is_listed {F : PyFloat} (clan_tag : string) (position : Z)
    (current : option war_data) (previous : list war_data) (h : heap)
    (p : Page.t) :
  get_war clan_tag position current previous h = Ok (Rendered p) ->
  In {| Choice.position := Page.selected_position p;
        Choice.label := label_of (Page.selected_position p) |}
    (Page.wars_available p) /\
  exists w,
    war_at (Page.selected_position p) current previous = Some w /\
    timeline (orient clan_tag w) h = Ok (Page.war_timeline p) /\
    Page.clan p = clan (orient clan_tag w) /\
    Page.opponent p = opponent (orient clan_tag w).
Proof.
  intros H. destruct (get_war_Rendered _ _ _ _ _ H)
    as (w & Hsel & Ht & Hc & Ho & _ & Hav).
  destruct (select_war_Some _ _ _ Hsel) as (Hat & Hin & _).
  rewrite Hav. split; [exact Hin |]. exists w. auto.
Qed.

Lemma X12_witness :
  exists p,
    get_war (F := binary64) "#HOME" 7 (Some war_scenario_B) [war_tie; war_scenario_C] []
      = Ok (Rendered p) /\
    Page.selected_position p = 1 /\
    In {| Choice.position := 1; Choice.label := "Previous War 1" |}
      (Page.wars_available p) /\
    exists w,
      war_at (F := binary64) 1 (Some war_scenario_B) [war_tie; war_scenario_C] = Some w /\
      timeline (F := binary64) (orient "#HOME" w) [] = Ok (Page.war_timeline p).
Proof.
  assert (Hx : exists p,
            get_war (F := binary64) "#HOME" 7 (Some war_scenario_B)
              [war_tie; war_scenario_C] [] = Ok (Rendered p) /\
            Page.selected_position p = 1).
  { eexists. split; [vm_compute; reflexivity | reflexivity]. }
  destruct Hx as (p & Hp & Hsel).
  destruct (@X12_selected_is_listed binary64 "#HOME" 7 (Some war_scenario_B)
              [war_tie; war_scenario_C] [] p Hp)
    as (Hin & w & Hat & Ht & _).
  rewrite Hsel in Hin, Hat.
  exists p. repeat split; auto. exists w. auto.
Defined.

(** X13.  A requested position that the list of wars offers is the one
    shown; any other request (a negative or too large position, or position
    0 without a current war) is answered with the first previous war under
    position 1. *)
Theorem X13_requested_position {F : PyFloat} (clan_tag : string) (position : Z)
    (current : option war_data) (previous : list war_data) (h : heap)
    (p : Page.t) :
  get_war clan_tag position current previous h = Ok (Rendered p) ->
  (In position (map Choice.position (Page.wars_available p)) ->
   Page.selected_position p = position) /\
  (~ In position (map Choice.position (Page.wars_available p)) ->
   Page.selected_position p = 1 /\
   exists w,
     nth_error previous 0 = Some w /\
     timeline (orient clan_tag w) h = Ok (Page.war_timeline p)).
Proof.
  intros H. destruct (get_war_Rendered _ _ _ _ _ H)
    as (w & Hsel & Ht & _ & _ & _ & Hav).
  destruct (select_war_Some _ _ _ Hsel) as (_ & _ & Hyes & Hno).
  rewrite Hav. split; [exact Hyes |].
  intros Hn. destruct (Hno Hn) as [H1 Hw]. split; [exact H1 |].
  exists w. auto.
Qed.

Lemma X13_witness :
  exists p,
    get_war (F := binary64) "#HOME" 0 None [war_tie; war_scenario_C] [] = Ok (Rendered p) /\
    Page.selected_position p = 1 /\
    exists w,
      nth_error [war_tie (F := binary64); war_scenario_C] 0 = Some w /\
      timeline (F := binary64) (orient "#HOME" w) [] = Ok (Page.war_timeline p).
Proof.
  assert (Hx : exists p,
            get_war (F := binary64) "#HOME" 0 None [war_tie; war_scenario_C] []
              = Ok (Rendered p) /\
            ~ In 0 (map Choice.position (Page.wars_available p))).
  { eexists. split; [vm_compute; reflexivity |].
    simpl. intros [H | [H | []]]; discriminate. }
  destruct Hx as (p & Hp & Hn).
  destruct (proj2 (@X13_requested_position binary64 "#HOME" 0 None
                     [war_tie; war_scenario_C] [] p Hp) Hn)
    as (Hsel & w & Hw & Ht).
  exists p. repeat split; auto. exists w. auto.
Defined.

(** ** The war seen from the other side *)

Section MirrorFacts.
Context {F : PyFloat}.

Section SortedUnique.
Variable A : Type.
Variable key : A -> Z.

Lemma insert_sorted_comm (x y : A) (s : list A) :
  key x <> key y ->
  insert_sorted key x (insert_sorted key y s) =
  insert_sorted key y (insert_sorted key x s).
Proof.
  intros Hxy. induction s as [| z s IH]; simpl.
  - destruct (Z.leb_spec (key x) (key y)), (Z.leb_spec (key y) (key x));
      auto; lia.
  - destruct (Z.leb_spec (key x) (key z)), (Z.leb_spec (key y) (key z));
      simpl;
      repeat match goal with
             | |- context [?a <=? ?b] => destruct (Z.leb_spec a b)
             end; auto; try lia.
    now rewrite IH.
Qed.

Lemma sorted_perm_unique (l l' : list A) :
  Permutation l l' -> NoDup (map key l) ->
  sorted key l = sorted key l'.
Proof.
  induction 1 as [| x l l' Hp IH | x y l | l l' l'' H1 IH1 H2 IH2];
    simpl; intros Hnd.
  - reflexivity.
  - inversion Hnd; subst. now rewrite IH.
  - inversion Hnd as [| ? ? Hy Hnd']; subst.
    apply insert_sorted_comm. intros E. apply Hy. simpl. auto.
  - rewrite IH1 by assumption. apply IH2.
    eapply Permutation_NoDup; [| exact Hnd]. now apply Permutation_map.
Qed.

Variable f : A -> A.
Hypothesis key_f : forall x, key (f x) = key x.

Lemma insert_sorted_map (x : A) (l : list A) :
  insert_sorted key (f x) (map f l) = map f (insert_sorted key x l).
Proof.
  induction l as [| y l IH]; simpl; auto.
  rewrite !key_f. destruct (key x <=? key y); simpl; congruence.
Qed.

Lemma sorted_map (l : list A) :
  sorted key (map f l) = map f (sorted key l).
Proof.
  induction l as [| x l IH]; simpl; auto.
  now rewrite IH, insert_sorted_map.
Qed.
End SortedUnique.

Lemma make_attack_relabel (side side' : string) (a : raw_attack) (x : attack) :
  make_attack side a = Ok x ->
  make_attack side' a = Ok (set_side side' x).
Proof.
  unfold make_attack.
  destruct (raw_attackerTag a), (raw_defenderTag a), (raw_stars a),
    (raw_destructionPercentage a), (raw_order a); simpl; try discriminate.
  intros [= <-]. reflexivity.
Qed.

Lemma make_attacks_relabel (side side' : string) (l : list raw_attack) :
  forall xs,
    make_attacks side l = Ok xs ->
    make_attacks side' l = Ok (map (set_side side') xs).
Proof.
  induction l as [| a l IH]; simpl; intros xs H.
  - now injection H as <-.
  - apply bind_Ok_inv in H. destruct H as (x & Hx & H).
    apply bind_Ok_inv in H. destruct H as (xs' & Hxs & H).
    injection H as <-.
    now rewrite (IH _ Hxs), (make_attack_relabel side side' a Hx).
Qed.

Lemma set_side_flip (side : string) (l : list attack) :
  Forall (fun a => Attack.attackerClan a = side) l ->
  map flip_attack l =
    map (set_side (if String.eqb side "clan" then "opponent" else "clan")) l.
Proof.
  induction 1 as [| a l Ha _ IH]; simpl; auto.
  rewrite IH. f_equal. unfold flip_attack, set_side, is_clan. now rewrite Ha.
Qed.

Lemma extract_attacks_swap (war : war_data) (all_attacks : list attack) :
  extract_attacks war = Ok all_attacks ->
  NoDup (map Attack.order all_attacks) ->
  extract_attacks (swap_sides war) = Ok (map flip_attack all_attacks).
Proof.
  intros He Hnd.
  destruct (extract_attacks_inv war He) as (c & o & Hc & Ho & ->).
  pose proof (make_attacks_side _ _ Hc) as Sc.
  pose proof (make_attacks_side _ _ Ho) as So.
  unfold extract_attacks. rewrite combined_attacks_spec. simpl.
  rewrite (@make_attacks_relabel "opponent" "clan" _ _ Ho).
  rewrite (@make_attacks_relabel "clan" "opponent" _ _ Hc). simpl.
  pose proof (set_side_flip Sc) as Fc. pose proof (set_side_flip So) as Fo.
  simpl in Fc, Fo. rewrite <- Fc, <- Fo.
  rewrite <- map_app, (sorted_map Attack.order flip_attack) by reflexivity.
  rewrite (@sorted_perm_unique _ Attack.order (o ++ c) (c ++ o));
    [reflexivity | |].
  - apply Permutation_app_comm.
  - assert (Hp : Permutation (o ++ c) (sorted Attack.order (c ++ o))).
    { eapply perm_trans; [apply Permutation_app_comm | apply sorted_perm]. }
    eapply Permutation_NoDup; [| exact Hnd].
    apply Permutation_map. now apply Permutation_sym.
Qed.

Lemma is_clan_flip (a : attack) : is_clan (flip_attack a) = negb (is_clan a).
Proof.
  unfold flip_attack. destruct (is_clan a) eqn:E; unfold is_clan; reflexivity.
Qed.

Lemma tally_attack_mirror (a : attack) (t : tally) :
  tally_attack (flip_attack a) (mirror_tally t) =
  mirror_tally (tally_attack a t).
Proof.
  unfold tally_attack. rewrite is_clan_flip.
  destruct (is_clan a); reflexivity.
Qed.

Lemma scan_mirror (team_size : Z) (l : list attack) :
  forall t,
    scan team_size (map flip_attack l) (mirror_tally t) =
    map mirror (scan team_size l t).
Proof.
  induction l as [| a l IH]; intros t; simpl; auto.
  rewrite tally_attack_mirror, IH. reflexivity.
Qed.

Lemma all_convertible_flip (l : list attack) :
  all_convertible (map flip_attack l) = all_convertible l.
Proof.
  unfold all_convertible. induction l as [| a l IH]; simpl; auto.
  now rewrite IH.
Qed.

End MirrorFacts.

(** X14.  When no two attacks share an order, the timeline of a war with
    its two sides exchanged, as [get_war] exchanges them for a war fetched
    from the other clan's point of view, is the mirror image of the war's
    timeline: snapshot by snapshot the two sides' totals and member lists
    change places and the last attack changes side. *)
Theorem X14_swap_mirrors {F : PyFloat} (war : war_data) (h h' : heap)
    (all_attacks : list attack) (tl : list (snapshot member_stat)) :
  extract_attacks war = Ok all_attacks ->
  NoDup (map Attack.order all_attacks) ->
  timeline war h = Ok tl ->
  timeline (swap_sides war) h' = Ok (map mirror tl).
Proof.
  intros He Hnd Ht.
  destruct (timeline_Ok_inv _ _ Ht) as (l & He' & Hz & ->).
  rewrite He in He'. injection He' as <-.
  rewrite (timeline_Ok_intro (swap_sides war) h'
             (extract_attacks_swap war He Hnd)).
  - simpl. f_equal. f_equal.
    change (initial_tally (swap_sides war))
      with (mirror_tally (initial_tally war)).
    apply scan_mirror.
  - destruct Hz as [-> | Hz]; [left; reflexivity | right].
    now rewrite all_convertible_flip.
Qed.

Lemma X14_witness :
  exists tl,
    timeline (F := binary64) war_scenario_B [] = Ok tl /\
    timeline (F := binary64) (swap_sides war_scenario_B) [] = Ok (map mirror tl).
Proof.
  assert (Hx : exists tl, timeline (F := binary64) war_scenario_B [] = Ok tl)
    by (eexists; vm_compute; reflexivity).
  destruct Hx as (tl & Ht).
  assert (He : extract_attacks (F := binary64) war_scenario_B = Ok attacks_scenario_B)
    by (vm_compute; reflexivity).
  exists tl. split; [exact Ht |].
  apply (@X14_swap_mirrors binary64 war_scenario_B [] [] attacks_scenario_B tl He);
    [| exact Ht].
  simpl. repeat constructor; simpl; intuition discriminate.
Defined.

(** ** Boosters *)

Section BoostersFacts.
Variable V : Type.
Variable R : Type.
Variable float : V -> option R.
Variable one : R.

Lemma parse_boosters_from_spec (bs : list (booster V)) :
  forall acc,
    parse_boosters_from float one bs acc =
      match parse_boosters_from float one bs [] with
      | Some ps => Some (acc ++ ps)
      | None => None
      end.
Proof.
  induction bs as [| b bs IH]; intros acc; simpl.
  - now rewrite app_nil_r.
  - destruct (booster_value float one b) as [v |]; [| reflexivity].
    destruct (truthy (get (b_roles b) [])).
    + rewrite (IH (acc ++ _)), (IH [_]).
      destruct (parse_boosters_from float one bs []); [| reflexivity].
      now rewrite <- app_assoc.
    + apply IH.
Qed.

Lemma parse_boosters_cons (b : booster V) (bs : list (booster V)) :
  parse_boosters float one (b :: bs) =
    match booster_value float one b, parse_boosters float one bs with
    | Some v, Some ps =>
        if truthy (get (b_roles b) [])
        then Some ({| pb_value := v; pb_roles := get (b_roles b) [] |} :: ps)
        else Some ps
    | _, _ => None
    end.
Proof.
  unfold parse_boosters. simpl.
  destruct (booster_value float one b) as [v |]; [| reflexivity].
  destruct (truthy (get (b_roles b) [])).
  - rewrite parse_boosters_from_spec.
    now destruct (parse_boosters_from float one bs []).
  - now destruct (parse_boosters_from float one bs []).
Qed.

(** X15.  When the boosters are parsed, the parsed list is, position by
    position and in the order of the form, the boosters that have at least one
    role: each parsed booster carries the role list of the booster at its
    position and the value [float] gives for that booster's value entry, the
    float of 1 when the booster has no value entry; so every parsed booster
    has a role. *)
Theorem X15_boosters_kept (bs : list (booster V))
    (ps : list (parsed_booster R)) :
  parse_boosters float one bs = Some ps ->
  Forall2 (kept_booster float one)
    (filter (fun b => truthy (get (b_roles b) [])) bs) ps /\
  Forall (fun p => pb_roles p <> []) ps.
Proof.
  revert ps. induction bs as [| b bs IH]; intros ps.
  - intros [= <-]. split; constructor.
  - rewrite parse_boosters_cons.
    destruct (booster_value float one b) as [v |] eqn:Ev; [| discriminate].
    destruct (parse_boosters float one bs) as [ps' |]; [| discriminate].
    destruct (IH ps' eq_refl) as [Hkept Hall].
    simpl. destruct (truthy (get (b_roles b) [])) eqn:Et; intros [= <-].
    + split.
      * constructor; [| exact Hkept]. split; [reflexivity | exact Ev].
      * constructor; [| exact Hall]. simpl.
        destruct (get (b_roles b) []); discriminate.
    + split; assumption.
Qed.

(** X16.  Parsing the boosters fails exactly when some booster of the form
    carries a value that [float] rejects, whether or not that booster has
    roles: a booster that would be dropped for having no role still makes
    the whole submission fail. *)
Theorem X16_boosters_fail (bs : list (booster V)) :
  parse_boosters float one bs = None <->
  exists b v, In b bs /\ b_value b = Some v /\ float v = None.
Proof.
  induction bs as [| b bs IH].
  - split; [discriminate | intros (b & v & [] & _)].
  - rewrite parse_boosters_cons. split.
    + destruct (booster_value float one b) as [x |] eqn:Ev.
      * destruct (parse_boosters float one bs) as [ps |].
        -- destruct (truthy (get (b_roles b) [])); discriminate.
        -- intros _. destruct (proj1 IH eq_refl) as (b0 & v & Hin & Hv & Hf).
           exists b0, v. simpl. auto.
      * intros _. unfold booster_value in Ev.
        destruct (b_value b) as [v |] eqn:Eb; [| discriminate].
        exists b, v. simpl. auto.
    + intros (b0 & v & [<- | Hin] & Hv & Hf).
      * unfold booster_value. now rewrite Hv, Hf.
      * destruct (booster_value float one b); [| reflexivity].
        assert (Hn : parse_boosters float one bs = None)
          by (apply IH; eauto).
        now rewrite Hn.
Qed.
End BoostersFacts.

Lemma X15_witness :
  exists ps,
    parse_boosters float_2_5 float_1
      [ {| b_value := Some "2.5"; b_roles := Some ["r1"; "r2"] |};
        {| b_value := Some "nan"; b_roles := Some [] |};
        {| b_value := None; b_roles := Some ["r3"] |} ] = Some ps /\
    Forall2 (kept_booster float_2_5 float_1)
      [ {| b_value := Some "2.5"; b_roles := Some ["r1"; "r2"] |};
        {| b_value := None; b_roles := Some ["r3"] |} ] ps.
Proof.
  assert (Hx : exists ps,
            parse_boosters float_2_5 float_1
              [ {| b_value := Some "2.5"; b_roles := Some ["r1"; "r2"] |};
                {| b_value := Some "nan"; b_roles := Some [] |};
                {| b_value := None; b_roles := Some ["r3"] |} ] = Some ps)
    by (eexists; reflexivity).
  destruct Hx as (ps & Hps). exists ps. split; [exact Hps |].
  exact (proj1 (@X15_boosters_kept string spec_float float_2_5 float_1 _ ps
                  Hps)).
Defined.

(** ** The list of wars and the request URL *)

Section ChoicesFacts.
Context {F : PyFloat}.

Lemma previous_choices_positions (l : list war_data) :
  forall i,
    map Choice.position (previous_choices i l)
      = map Z.of_nat (seq i (List.length l)) /\
    Forall (fun c => Choice.label c = label_of (Choice.position c))
      (previous_choices (S i) l).
Proof.
  induction l as [| w l IH]; intros i.
  - split; constructor.
  - destruct (IH (S i)) as [Hp Hl]. split.
    + cbn [previous_choices map List.length seq Choice.position].
      now rewrite Hp.
    + cbn [previous_choices]. constructor; [| exact Hl].
      cbn [Choice.label Choice.position]. unfold label_of.
      assert (E : (Z.of_nat (S i) =? 0) = false) by (apply Z.eqb_neq; lia).
      now rewrite E, Nat2Z.id.
Qed.

End ChoicesFacts.

(** X17.  The list of wars offers position 0 exactly when a current war was
    fetched, followed by the positions 1 to n of the n previous wars in
    ascending order, each once; position 0 is labelled "Current War" and
    position i "Previous War i". *)
Theorem X17_wars_available {F : PyFloat} (current : option war_data)
    (previous : list war_data) :
  map Choice.position (wars_available current previous)
    = match current with Some _ => [0] | None => [] end
      ++ map Z.of_nat (seq 1 (List.length previous)) /\
  Forall (fun c => Choice.label c = label_of (Choice.position c))
    (wars_available current previous).
Proof.
  destruct (previous_choices_positions previous 0) as [_ Hl].
  destruct (previous_choices_positions previous 1) as [Hp _].
  unfold wars_available. rewrite map_app, Hp. split.
  - destruct current; reflexivity.
  - apply Forall_app. split; [| exact Hl].
    destruct current; repeat constructor.
Qed.

(** X18.  The tag put in a request URL contains no '#': every '#' of the
    clan tag has become "%23", which makes the tag two characters longer per
    '#', and a tag without '#' is sent as it is. *)
Theorem X18_replace_hash (tag : string) :
  occurrences "#"%char (replace_hash tag) = 0%nat /\
  String.length (replace_hash tag)
    = (String.length tag + 2 * occurrences "#"%char tag)%nat /\
  (occurrences "#"%char tag = 0%nat -> replace_hash tag = tag).
Proof.
  induction tag as [| c rest (IH1 & IH2 & IH3)]; simpl.
  - repeat split.
  - destruct (Ascii.eqb c "#"%char) eqn:E; simpl.
    + split; [exact IH1 |]. split; [rewrite IH2; lia | discriminate].
    + rewrite E. split; [exact IH1 |]. split; [rewrite IH2; lia |].
      intros H. now rewrite IH3.
Qed.

